(** * Personal finance tracker: split-expense and ledger-balance engine

    A shallow embedding of the server side of the tracker (the shared
    schema, the storage class [DatabaseStorage] and the Express routes),
    together with the JavaScript built-ins the routes call on money texts
    ([parseFloat], [Number] arithmetic, [toFixed], [toString], [trim],
    [split]) and the [decimal(12,2)] columns that store them. *)

From Stdlib Require Import ZArith NArith QArith Qround Qabs Qpower Qreduction.
From Stdlib Require Import Bool List String Ascii Lia Lqa.
Import ListNotations.

Local Open Scope string_scope.
Local Open Scope Z_scope.

(* ================================================================== *)
(** ** JavaScript strings *)

(** Rocq strings are sequences of bytes: a JavaScript string is taken in
    its UTF-8 encoding (a string with a lone surrogate has none and is
    outside the model).  The comma is a single byte that never occurs
    inside a longer UTF-8 sequence, so [split] is exact.  A white space
    code point is stripped as the byte sequence that encodes it; in
    well-formed UTF-8 such a sequence at the start or at the end of a
    string is that code point. *)

Definition bytes (codes : list N) : string :=
  string_of_list_ascii (map ascii_of_N codes).

(** WhiteSpace and LineTerminator of ECMAScript, in UTF-8: TAB, LF, VT,
    FF, CR, SP, U+00A0, U+1680, U+2000 to U+200A, U+2028, U+2029, U+202F,
    U+205F, U+3000 and U+FEFF. *)
Definition white_space : list string :=
  map bytes
    [ [9]; [10]; [11]; [12]; [13]; [32];
      [194; 160];
      [225; 154; 128];
      [226; 128; 128]; [226; 128; 129]; [226; 128; 130]; [226; 128; 131];
      [226; 128; 132]; [226; 128; 133]; [226; 128; 134]; [226; 128; 135];
      [226; 128; 136]; [226; 128; 137]; [226; 128; 138];
      [226; 128; 168]; [226; 128; 169];
      [226; 128; 175];
      [226; 129; 159];
      [227; 128; 128];
      [239; 187; 191] ]%N.

(** [s] without the prefix [p], when it starts with [p]. *)
Fixpoint drop_prefix (p s : string) : option string :=
  match p, s with
  | EmptyString, _ => Some s
  | String a p', String b s' => if Ascii.eqb a b then drop_prefix p' s' else None
  | String _ _, EmptyString => None
  end.

(** [s] without the first of the prefixes [ps] it starts with. *)
Fixpoint drop_any (ps : list string) (s : string) : option string :=
  match ps with
  | [] => None
  | p :: rest =>
      match drop_prefix p s with
      | Some r => Some r
      | None => drop_any rest s
      end
  end.

(** Drops prefixes among [ps] as long as there is one, at most [fuel]
    times. *)
Fixpoint strip (ps : list string) (fuel : nat) (s : string) : string :=
  match fuel with
  | O => s
  | S f =>
      match drop_any ps s with
      | Some r => strip ps f r
      | None => s
      end
  end.

Fixpoint reverse (s : string) : string :=
  match s with
  | EmptyString => EmptyString
  | String c r => reverse r ++ String c EmptyString
  end.

(** Every white space code point takes at least one byte, so as many
    rounds as the string has bytes strip them all. *)
Definition trimStart (s : string) : string :=
  strip white_space (String.length s) s.

Definition trimEnd (s : string) : string :=
  reverse (strip (map reverse white_space) (String.length s) (reverse s)).

(** [String.prototype.trim] *)
Definition trim (s : string) : string := trimEnd (trimStart s).

(** Whether a string starts, or ends, with a white space code point. *)
Definition starts_with_space (s : string) : bool :=
  match drop_any white_space s with Some _ => true | None => false end.

Definition ends_with_space (s : string) : bool :=
  match drop_any (map reverse white_space) (reverse s) with
  | Some _ => true
  | None => false
  end.

(** [String.prototype.split] with a one-character separator: the pieces
    between the separators, empty pieces included; never the empty list. *)
Fixpoint split (sep : ascii) (s : string) : list string :=
  match s with
  | EmptyString => [EmptyString]
  | String c r =>
      if Ascii.eqb c sep then EmptyString :: split sep r
      else match split sep r with
           | h :: t => String c h :: t
           | [] => [String c EmptyString]
           end
  end.

(* ================================================================== *)
(** ** Decimal numerals *)

Definition is_digit (c : ascii) : bool :=
  let n := N_of_ascii c in ((48 <=? n) && (n <=? 57))%N.

Definition digit_val (c : ascii) : N := (N_of_ascii c - 48)%N.

Definition digit_char (d : N) : ascii := ascii_of_N (48 + d).

(** The [w] low decimal digits of [m], most significant first. *)
Fixpoint pad_digits (w : nat) (m : N) : string :=
  match w with
  | O => EmptyString
  | S w' => pad_digits w' (m / 10) ++ String (digit_char (m mod 10)) EmptyString
  end.

Fixpoint ndigits_aux (fuel : nat) (m : N) : nat :=
  match fuel with
  | O => 1
  | S f => if (m <? 10)%N then 1%nat else S (ndigits_aux f (m / 10))
  end.

(** Number of decimal digits of [m] (1 for zero). *)
Definition ndigits (m : N) : nat := ndigits_aux (N.to_nat (N.size m)) m.

Definition string_of_N (m : N) : string := pad_digits (ndigits m) m.

(** A decimal numeral read or written by the program: its value is
    [± dec_mant * 10 ^ dec_exp]. *)
Record decimal := mkDecimal { dec_neg : bool; dec_mant : N; dec_exp : Z }.

Definition dec_value (d : decimal) : Q :=
  let v := (inject_Z (Z.of_N (dec_mant d)) * 10 ^ dec_exp d)%Q in
  if dec_neg d then (- v)%Q else v.

Definition exp_of (e : option Z) : Z :=
  match e with Some x => x | None => 0 end.

Definition print_exponent (e : option Z) : string :=
  match e with
  | None => ""
  | Some x => "e" ++ (if x <? 0 then "-" else "+") ++ string_of_N (Z.abs_N x)
  end.

(** Writes [± m / 10^f * 10^e], with [f] fractional digits and an
    optional exponent part. *)
Definition print_decimal (neg : bool) (m : N) (f : nat) (e : option Z) : string :=
  (if neg then "-" else "")
  ++ string_of_N (m / 10 ^ N.of_nat f)
  ++ match f with O => "" | _ => "." ++ pad_digits f m end
  ++ print_exponent e.

(** Reads the longest run of digits, accumulating value and count. *)
Fixpoint scan_digits (acc : N) (cnt : nat) (s : string) : N * nat * string :=
  match s with
  | String c r =>
      if is_digit c then scan_digits (10 * acc + digit_val c) (S cnt) r
      else (acc, cnt, s)
  | EmptyString => (acc, cnt, s)
  end.

Definition scan_sign (s : string) : bool * string :=
  match s with
  | String "-"%char r => (true, r)
  | String "+"%char r => (false, r)
  | _ => (false, s)
  end.

(** ExponentPart: [e] or [E], an optional sign, at least one digit;
    otherwise nothing is consumed. *)
Definition scan_exponent (s : string) : Z * string :=
  match s with
  | String c r =>
      if (Ascii.eqb c "e" || Ascii.eqb c "E")%bool then
        let '(neg, r1) := scan_sign r in
        let '(x, n, r2) := scan_digits 0 0 r1 in
        match n with
        | O => (0, s)
        | _ => ((if neg then - Z.of_N x else Z.of_N x), r2)
        end
      else (0, s)
  | EmptyString => (0, s)
  end.

(** The longest prefix that is a signed decimal literal
    (StrDecimalLiteral without [Infinity]): digits with an optional
    fraction, or a fraction alone, and an optional exponent part.
    Returns the numeral and the unread rest. *)
Definition scan_decimal (s : string) : option (decimal * string) :=
  let '(neg, s1) := scan_sign s in
  let '(i, ni, s2) := scan_digits 0 0 s1 in
  let '(m, nf, s3) :=
    match s2 with
    | String "."%char r => scan_digits i 0 r
    | _ => (i, O, s2)
    end in
  match ni, nf with
  | O, O => None
  | _, _ =>
      let '(x, s4) := scan_exponent s3 in
      Some (mkDecimal neg m (x - Z.of_nat nf), s4)
  end.

(* ================================================================== *)
(** ** JavaScript numbers *)

(** A Number is an IEEE 754 binary64 value.  A finite one is kept as the
    rational it denotes, in lowest terms; the two zeros are identified
    (the program never divides by a Number it computed and prints both
    zeros alike).  Every operation is the exact rational operation
    followed by [binary64], the rounding to the nearest binary64 value,
    ties to the even significand, which is how IEEE 754 and ECMAScript
    define them. *)
Inductive number :=
| NaN
| Infinity (neg : bool)
| Finite (q : Q).

Definition is_neg (q : Q) : bool := negb (Qle_bool 0 q).

(** [floor (log2 |q|)] for [q <> 0]. *)
Definition ilog2 (q : Q) : Z :=
  let l := Z.log2 (Z.abs (Qnum q)) - Z.log2 (Zpos (Qden q)) in
  if Qle_bool (2 ^ l) (Qabs q) then l else l - 1.

(** Nearest integer, ties to even. *)
Definition round_half_even (q : Q) : Z :=
  let f := Qfloor q in
  match (q - inject_Z f ?= 1 # 2)%Q with
  | Lt => f
  | Gt => f + 1
  | Eq => if Z.even f then f else f + 1
  end.

(** roundTiesToEven onto binary64: 53 significant bits, least exponent
    -1074, overflow to infinity from [2^1024] on. *)
Definition binary64 (q : Q) : number :=
  if Qeq_bool q 0 then Finite 0
  else
    let e := Z.max (ilog2 q - 52) (-1074) in
    let z := (inject_Z (round_half_even (q / 2 ^ e)) * 2 ^ e)%Q in
    if Qle_bool (2 ^ 1024) (Qabs z) then Infinity (is_neg q)
    else Finite (Qred z).

Definition number_eqb (x y : number) : bool :=
  match x, y with
  | Finite a, Finite b => Qeq_bool a b
  | Infinity a, Infinity b => Bool.eqb a b
  | _, _ => false
  end.

Definition js_neg (x : number) : number :=
  match x with
  | NaN => NaN
  | Infinity s => Infinity (negb s)
  | Finite a => Finite (- a)
  end.

(** [x + y] *)
Definition js_add (x y : number) : number :=
  match x, y with
  | NaN, _ | _, NaN => NaN
  | Infinity a, Infinity b => if Bool.eqb a b then Infinity a else NaN
  | Infinity a, Finite _ => Infinity a
  | Finite _, Infinity b => Infinity b
  | Finite a, Finite b => binary64 (a + b)
  end.

(** [x - y] *)
Definition js_sub (x y : number) : number := js_add x (js_neg y).

(** [x / y] *)
Definition js_div (x y : number) : number :=
  match x, y with
  | NaN, _ | _, NaN => NaN
  | Infinity _, Infinity _ => NaN
  | Infinity a, Finite b => Infinity (xorb a (is_neg b))
  | Finite _, Infinity _ => Finite 0
  | Finite a, Finite b =>
      if Qeq_bool b 0 then (if Qeq_bool a 0 then NaN else Infinity (is_neg a))
      else binary64 (a / b)
  end.

(** The Number of an array length. *)
Definition number_of_nat (n : nat) : number := binary64 (inject_Z (Z.of_nat n)).

Fixpoint starts_with (p s : string) : bool :=
  match p, s with
  | EmptyString, _ => true
  | String a p', String b s' => Ascii.eqb a b && starts_with p' s'
  | String _ _, EmptyString => false
  end.

(** [parseFloat]: leading white space is skipped, the longest prefix that is
    a decimal literal is read and its value rounded; [NaN] when there is
    no such prefix. *)
Definition parseFloat (s : string) : number :=
  let t := trimStart s in
  match scan_decimal t with
  | Some (d, _) => binary64 (dec_value d)
  | None =>
      let '(neg, r) := scan_sign t in
      if starts_with "Infinity" r then Infinity neg else NaN
  end.

(** Nearest integer, ties away from zero, of a non-negative rational:
    the "larger n" of [toFixed] and the rounding of the numeric type. *)
Definition round_half_up (q : Q) : Z := Qfloor (q + (1 # 2)).

(** The candidate digits at one decimal exponent: the integers [s] next
    to [x / 10^ex] whose [s * 10^ex] rounds to [x], the closest first and
    the even one at a tie. *)
Definition shortest_at (x : Q) (ex : Z) : option Z :=
  let scaled := (x / 10 ^ ex)%Q in
  let lo := Qfloor scaled in
  let hi := lo + 1 in
  let ok s := number_eqb (binary64 (inject_Z s * 10 ^ ex)) (Finite x) in
  match ok lo, ok hi with
  | true, true =>
      match (scaled - inject_Z lo ?= inject_Z hi - scaled)%Q with
      | Lt => Some lo
      | Gt => Some hi
      | Eq => Some (if Z.even lo then lo else hi)
      end
  | true, false => Some lo
  | false, true => Some hi
  | false, false => None
  end.

Fixpoint shortest_from (fuel : nat) (x : Q) (ex : Z) : option (Z * Z) :=
  match fuel with
  | O => None
  | S f =>
      match shortest_at x ex with
      | Some s => Some (s, ex)
      | None => shortest_from f x (ex - 1)
      end
  end.

(** The digits [s] and exponent [ex] of Number::toString for [x > 0]:
    [s * 10^ex] rounds to [x] with as few digits as possible, that is
    with the largest exponent.  The search starts above the magnitude of
    [x] and ends within 17 significant digits for every binary64 value;
    the last branch only makes the function total. *)
Definition shortest (x : Q) : Z * Z :=
  let l := ilog2 x + 1 in
  match shortest_from 120 x (Z.max (l / 3) (l / 4) + 1) with
  | Some r => r
  | None => (Qfloor (x * 10 ^ 1074), -1074)
  end.

(** Number::toString, radix 10. *)
Definition toString (x : number) : string :=
  match x with
  | NaN => "NaN"
  | Infinity neg => if neg then "-Infinity" else "Infinity"
  | Finite q =>
      if Qeq_bool q 0 then "0"
      else
        let '(s, ex) := shortest (Qabs q) in
        let k := Z.of_nat (ndigits (Z.to_N s)) in
        let n := k + ex in
        if (0 <=? ex) && (n <=? 21) then
          print_decimal (is_neg q) (Z.to_N (s * 10 ^ ex)) 0 None
        else if (ex <? 0) && (-6 <? n) && (n <=? 21) then
          print_decimal (is_neg q) (Z.to_N s) (Z.to_nat (- ex)) None
        else
          print_decimal (is_neg q) (Z.to_N s) (Z.to_nat (k - 1)) (Some (n - 1))
  end.

(** [Number.prototype.toFixed(2)] *)
Definition toFixed2 (x : number) : string :=
  match x with
  | Finite q =>
      if Qle_bool (10 ^ 21) (Qabs q) then toString x
      else print_decimal (is_neg q) (Z.to_N (round_half_up (Qabs q * 100))) 2 None
  | _ => toString x
  end.

(* ================================================================== *)
(** ** The shared schema *)

(** A [decimal(12,2)] cell holds a whole number [c] of hundredths with
    [|c| < 10^12], or the special value NaN, which the type admits at
    every precision. *)
Inductive numeric :=
| NumericNaN
| Hundredths (c : Z).

(** A whole number of hundredths is read as the cell that holds it. *)
Coercion Hundredths : Z >-> numeric.

(** [isspace] of C: the six ASCII blanks. *)
Definition is_space (c : ascii) : bool :=
  match c with
  | " "%char | "009"%char | "010"%char | "011"%char | "012"%char
  | "013"%char => true
  | _ => false
  end.

Fixpoint skip_spaces (s : string) : string :=
  match s with
  | String c r => if is_space c then skip_spaces r else s
  | EmptyString => EmptyString
  end.

Fixpoint all_spaces (s : string) : bool :=
  match s with
  | String c r => is_space c && all_spaces r
  | EmptyString => true
  end.

(** The rest after the letters [nan], in either case. *)
Definition nan_prefix (s : string) : option string :=
  match s with
  | String a (String b (String c r)) =>
      if (Ascii.eqb a "n" || Ascii.eqb a "N")
         && (Ascii.eqb b "a" || Ascii.eqb b "A")
         && (Ascii.eqb c "n" || Ascii.eqb c "N")
      then Some r else None
  | _ => None
  end.

(** The input function of the column.  The database lies outside the
    repository; the model follows the input function of PostgreSQL's
    numeric type on what all its versions agree on: blanks around the
    value are skipped; [NaN], without a sign and in any case, is stored
    as NaN; a decimal numeral (sign, digits, fraction, exponent) is
    rounded half away from zero to two places and refused when twelve
    digits do not hold the result; an infinity is refused by the
    precision, anything else is a syntax error.  Non-decimal integers
    and digit separators, which PostgreSQL reads from version 16 on, are
    not read here. *)
Definition numeric_in (s : string) : option numeric :=
  let t := skip_spaces s in
  match nan_prefix t with
  | Some r => if all_spaces r then Some NumericNaN else None
  | None =>
      match scan_decimal t with
      | Some (d, r) =>
          let c := round_half_up (Qabs (dec_value d) * 100) in
          if all_spaces r && (c <? 10 ^ 12)
          then Some (Hundredths (if dec_neg d then - c else c))
          else None
      | None => None
      end
  end.

(** What a cell reads back as: a number always with two fractional
    digits. *)
Definition numeric_out (v : numeric) : string :=
  match v with
  | NumericNaN => "NaN"
  | Hundredths c => print_decimal (c <? 0) (Z.abs_N c) 2 None
  end.

(** A text column stores every string but one that holds the character
    U+0000. *)
Fixpoint storable (s : string) : bool :=
  match s with
  | String c r => negb (Ascii.eqb c "000") && storable r
  | EmptyString => true
  end.

(** Primary keys ([varchar] filled by [gen_random_uuid()]) are modelled
    as numbers drawn from a counter, and the id a request names a row by
    as such a number: an id text that is no key of any row is a number
    not yet drawn, and an id text the database refuses to read (one that
    holds U+0000) has no counterpart.  The time stamps of the rows and
    the [users] table play no part in what follows and are left out. *)
Definition id := nat.

Record BankAccount := mkBankAccount {
  ba_id : id; ba_userId : id; ba_name : string; ba_type : string;
  ba_balance : numeric }.

Record Transaction := mkTransaction {
  tx_id : id; tx_accountId : id; tx_amount : numeric; tx_type : string;
  tx_description : string }.

Record SplitExpense := mkSplitExpense {
  se_id : id; se_userId : id; se_payerName : string; se_amount : numeric;
  se_description : string }.

Record SplitParticipant := mkSplitParticipant {
  sp_id : id; sp_expenseId : id; sp_name : string; sp_shareAmount : numeric }.

(** The insert schemas ([createInsertSchema(...).pick(...)]): every
    column is a string; a column with a default may be absent. *)
Record InsertBankAccount := mkInsertBankAccount {
  iba_name : string; iba_type : option string; iba_balance : option string }.

Record InsertTransaction := mkInsertTransaction {
  it_accountId : id; it_amount : string; it_type : string;
  it_description : string }.

Record InsertSplitExpense := mkInsertSplitExpense {
  ise_payerName : string; ise_amount : string; ise_description : string }.

Record InsertSplitParticipant := mkInsertSplitParticipant {
  isp_name : string; isp_shareAmount : string }.

(** [Partial<InsertSplitExpense>] *)
Record PartialSplitExpense := mkPartialSplitExpense {
  pse_payerName : option string; pse_amount : option string;
  pse_description : option string }.

(** The database: one list of rows per table. *)
Record db := mkDb {
  bankAccounts : list BankAccount;
  transactions : list Transaction;
  splitExpenses : list SplitExpense;
  splitParticipants : list SplitParticipant;
  next_id : id }.

Definition empty_db : db := mkDb [] [] [] [] 0%nat.

(* ================================================================== *)
(** ** Effects *)

Inductive error :=
| Unauthorized      (* 401 of requireAuth *)
| AccessDenied      (* 403 "Access denied to this account" *)
| ZodError          (* a schema's parse rejects the body *)
| TypeError         (* a run-time exception of the handler *)
| DatabaseError.    (* the database or the query builder rejects a statement *)

(** A computation reads and writes the database and either returns or
    throws; what it wrote before throwing stays written. *)
Definition M (A : Type) : Type := db -> db * (error + A).

Definition ret {A} (a : A) : M A := fun s => (s, inr a).

Definition throw {A} (e : error) : M A := fun s => (s, inl e).

Definition bind {A B} (m : M A) (k : A -> M B) : M B :=
  fun s =>
    match m s with
    | (s', inl e) => (s', inl e)
    | (s', inr a) => k a s'
    end.

Notation "x <- m ;; k" := (bind m (fun x => k))
  (at level 61, m at next level, right associativity).
Notation "m ;;; k" := (bind m (fun _ => k))
  (at level 61, right associativity).

(* ================================================================== *)
(** ** DatabaseStorage *)

(** [db.insert(bankAccounts).values({ ...account, userId }).returning()]:
    the database fills the columns left out with their defaults and
    refuses the row when a text or the balance cannot be stored. *)
Definition createBankAccount (userId : id) (account : InsertBankAccount)
  : M BankAccount :=
  fun s =>
    let type := match iba_type account with Some t => t | None => "savings" end in
    match numeric_in (match iba_balance account with Some b => b | None => "0" end) with
    | Some c =>
        if storable (iba_name account) && storable type then
          let bankAccount := mkBankAccount (next_id s) userId (iba_name account) type c in
          (mkDb (bankAccounts s ++ [bankAccount]) (transactions s)
                (splitExpenses s) (splitParticipants s) (S (next_id s)),
           inr bankAccount)
        else (s, inl DatabaseError)
    | None => (s, inl DatabaseError)
    end.

Definition getBankAccount (i : id) : M (option BankAccount) :=
  fun s => (s, inr (find (fun a => Nat.eqb (ba_id a) i) (bankAccounts s))).

Definition set_balance (accountId : id) (c : numeric) (a : BankAccount) : BankAccount :=
  if Nat.eqb (ba_id a) accountId
  then mkBankAccount (ba_id a) (ba_userId a) (ba_name a) (ba_type a) c
  else a.

Definition updateBankAccountBalance (accountId : id) (newBalance : string)
  : M unit :=
  fun s =>
    match numeric_in newBalance with
    | None => (s, inl DatabaseError)
    | Some c =>
        (mkDb (map (set_balance accountId c) (bankAccounts s)) (transactions s)
              (splitExpenses s) (splitParticipants s) (next_id s),
         inr tt)
    end.

(** [db.insert(transactions).values(transaction).returning()]: the
    amount and the texts must be storable and the account must exist
    (foreign key). *)
Definition insertTransaction (transaction : InsertTransaction) : M Transaction :=
  fun s =>
    match numeric_in (it_amount transaction),
          find (fun a => Nat.eqb (ba_id a) (it_accountId transaction)) (bankAccounts s) with
    | Some c, Some _ =>
        if storable (it_type transaction) && storable (it_description transaction) then
          let newTransaction :=
            mkTransaction (next_id s) (it_accountId transaction) c
              (it_type transaction) (it_description transaction) in
          (mkDb (bankAccounts s) (transactions s ++ [newTransaction])
                (splitExpenses s) (splitParticipants s) (S (next_id s)),
           inr newTransaction)
        else (s, inl DatabaseError)
    | _, _ => (s, inl DatabaseError)
    end.

(** The local [newBalance] of [createTransaction], from the balance text
    read from the account row. *)
Definition newBalance (balance : string) (transaction : InsertTransaction) : number :=
  let currentBalance := parseFloat balance in
  let transactionAmount := parseFloat (it_amount transaction) in
  if String.eqb (it_type transaction) "credit"
  then js_add currentBalance transactionAmount
  else js_sub currentBalance transactionAmount.

Definition createTransaction (transaction : InsertTransaction) : M Transaction :=
  newTransaction <- insertTransaction transaction ;;
  account <- getBankAccount (it_accountId transaction) ;;
  match account with
  | Some account =>
      updateBankAccountBalance (it_accountId transaction)
        (toString (newBalance (numeric_out (ba_balance account)) transaction)) ;;;
      ret newTransaction
  | None => ret newTransaction
  end.

Definition deleteTransaction (i : id) : M unit :=
  fun s =>
    (mkDb (bankAccounts s)
          (filter (fun t => negb (Nat.eqb (tx_id t) i)) (transactions s))
          (splitExpenses s) (splitParticipants s) (next_id s),
     inr tt).

Definition createSplitExpense (userId : id) (expense : InsertSplitExpense)
  : M SplitExpense :=
  fun s =>
    match numeric_in (ise_amount expense) with
    | Some c =>
        if storable (ise_payerName expense) && storable (ise_description expense) then
          let splitExpense :=
            mkSplitExpense (next_id s) userId (ise_payerName expense) c
              (ise_description expense) in
          (mkDb (bankAccounts s) (transactions s)
                (splitExpenses s ++ [splitExpense]) (splitParticipants s)
                (S (next_id s)),
           inr splitExpense)
        else (s, inl DatabaseError)
    | None => (s, inl DatabaseError)
    end.

(** The rows of one multi-row insert, with consecutive fresh keys; [None]
    when a share or a name cannot be stored. *)
Fixpoint participant_rows (expenseId : id) (first : id)
    (participants : list InsertSplitParticipant) : option (list SplitParticipant) :=
  match participants with
  | [] => Some []
  | p :: rest =>
      match numeric_in (isp_shareAmount p), participant_rows expenseId (S first) rest with
      | Some c, Some rows =>
          if storable (isp_name p)
          then Some (mkSplitParticipant first expenseId (isp_name p) c :: rows)
          else None
      | _, _ => None
      end
  end.

(** One insert statement: all rows or none.  The query builder refuses
    an empty list of values; the expense must exist (foreign key); and a
    statement carries at most 65535 parameters, of which every row takes
    three here (the expense, the name and the share). *)
Definition createSplitParticipants (expenseId : id)
    (participants : list InsertSplitParticipant) : M (list SplitParticipant) :=
  fun s =>
    match participants,
          find (fun e => Nat.eqb (se_id e) expenseId) (splitExpenses s),
          participant_rows expenseId (next_id s) participants with
    | _ :: _, Some _, Some rows =>
        if 3 * Z.of_nat (List.length participants) <=? 65535 then
          (mkDb (bankAccounts s) (transactions s) (splitExpenses s)
                (splitParticipants s ++ rows)%list (next_id s + List.length rows)%nat,
           inr rows)
        else (s, inl DatabaseError)
    | _, _, _ => (s, inl DatabaseError)
    end.

Definition patch {A} (new : option A) (old : A) : A :=
  match new with Some v => v | None => old end.

(** A text of the set clause, when there is one, must be storable. *)
Definition storable_opt (text : option string) : bool :=
  match text with Some t => storable t | None => true end.

(** [db.update(splitExpenses).set(expense).where(eq(splitExpenses.id, id))]:
    absent fields are left alone; the query builder refuses an empty
    set, the database a value it cannot store. *)
Definition updateSplitExpense (i : id) (expense : PartialSplitExpense) : M unit :=
  fun s =>
    match pse_payerName expense, pse_amount expense, pse_description expense with
    | None, None, None => (s, inl DatabaseError)
    | _, _, _ =>
        match option_map numeric_in (pse_amount expense) with
        | Some None => (s, inl DatabaseError)
        | amount =>
            if storable_opt (pse_payerName expense)
               && storable_opt (pse_description expense) then
              let upd e :=
                if Nat.eqb (se_id e) i
                then mkSplitExpense (se_id e) (se_userId e)
                       (patch (pse_payerName expense) (se_payerName e))
                       (patch (match amount with Some c => c | None => None end)
                          (se_amount e))
                       (patch (pse_description expense) (se_description e))
                else e in
              (mkDb (bankAccounts s) (transactions s) (map upd (splitExpenses s))
                    (splitParticipants s) (next_id s),
               inr tt)
            else (s, inl DatabaseError)
        end
    end.

(** Deleting an expense deletes its participants ([onDelete: "cascade"]). *)
Definition deleteSplitExpense (i : id) : M unit :=
  fun s =>
    (mkDb (bankAccounts s) (transactions s)
          (filter (fun e => negb (Nat.eqb (se_id e) i)) (splitExpenses s))
          (filter (fun p => negb (Nat.eqb (sp_expenseId p) i)) (splitParticipants s))
          (next_id s),
     inr tt).

(** Newest first: the [date] of a row is its insertion time, so the
    order by [desc(date)] is the reverse of the insertion order. *)
Definition getSplitExpensesByUserId (userId : id)
  : M (list (SplitExpense * list SplitParticipant)) :=
  fun s =>
    (s, inr (map (fun e => (e, filter (fun p => Nat.eqb (sp_expenseId p) (se_id e))
                                  (splitParticipants s)))
                 (rev (filter (fun e => Nat.eqb (se_userId e) userId)
                         (splitExpenses s))))).

Definition getTransactionsByAccountId (accountId : id) : M (list Transaction) :=
  fun s =>
    (s, inr (rev (filter (fun t => Nat.eqb (tx_accountId t) accountId)
                    (transactions s)))).

(* ================================================================== *)
(** ** Routes *)

(** A field of a JSON request body, as the schemas see it. *)
Inductive field :=
| Absent
| Text (s : string)
| Other.             (* present, not a string *)

Record AccountBody := mkAccountBody {
  ab_name : field; ab_type : field; ab_balance : field }.

Record TransactionBody := mkTransactionBody {
  tb_accountId : option id; tb_amount : field; tb_type : field;
  tb_description : field }.

Record SplitBody := mkSplitBody {
  sb_participants : field; sb_payerName : field; sb_amount : field;
  sb_description : field }.

Record SplitPatchBody := mkSplitPatchBody {
  spb_payerName : field; spb_amount : field; spb_description : field }.

Definition requireAuth (user : option id) : M id :=
  match user with
  | Some u => ret u
  | None => throw Unauthorized
  end.

(** An optional string field of a schema: absent, or a string. *)
Definition optional (f : field) : option (option string) :=
  match f with
  | Absent => Some None
  | Text s => Some (Some s)
  | Other => None
  end.

(** [insertBankAccountSchema.parse] *)
Definition parse_insertBankAccountSchema (body : AccountBody) : M InsertBankAccount :=
  match ab_name body, optional (ab_type body), optional (ab_balance body) with
  | Text n, Some t, Some b => ret (mkInsertBankAccount n t b)
  | _, _, _ => throw ZodError
  end.

(** [insertTransactionSchema.parse] *)
Definition parse_insertTransactionSchema (body : TransactionBody) : M InsertTransaction :=
  match tb_accountId body, tb_amount body, tb_type body, tb_description body with
  | Some a, Text m, Text t, Text d => ret (mkInsertTransaction a m t d)
  | _, _, _, _ => throw ZodError
  end.

(** [insertSplitExpenseSchema.parse] *)
Definition parse_insertSplitExpenseSchema (body : SplitBody) : M InsertSplitExpense :=
  match sb_payerName body, sb_amount body, sb_description body with
  | Text p, Text m, Text d => ret (mkInsertSplitExpense p m d)
  | _, _, _ => throw ZodError
  end.

(** [insertSplitExpenseSchema.partial().parse] *)
Definition parse_partialSplitExpenseSchema (body : SplitPatchBody) : M PartialSplitExpense :=
  match optional (spb_payerName body), optional (spb_amount body),
        optional (spb_description body) with
  | Some p, Some m, Some d => ret (mkPartialSplitExpense p m d)
  | _, _, _ => throw ZodError
  end.

(** POST /api/accounts *)
Definition post_accounts (user : option id) (body : AccountBody) : M BankAccount :=
  uid <- requireAuth user ;;
  validatedData <- parse_insertBankAccountSchema body ;;
  createBankAccount uid validatedData.

(** POST /api/transactions *)
Definition post_transactions (user : option id) (body : TransactionBody)
  : M Transaction :=
  uid <- requireAuth user ;;
  validatedData <- parse_insertTransactionSchema body ;;
  account <- getBankAccount (it_accountId validatedData) ;;
  match account with
  | Some a =>
      if Nat.eqb (ba_userId a) uid then createTransaction validatedData
      else throw AccessDenied
  | None => throw AccessDenied
  end.

(** GET /api/accounts/:accountId/transactions *)
Definition get_account_transactions (user : option id) (accountId : id)
  : M (list Transaction) :=
  uid <- requireAuth user ;;
  account <- getBankAccount accountId ;;
  match account with
  | Some a =>
      if Nat.eqb (ba_userId a) uid then getTransactionsByAccountId accountId
      else throw AccessDenied
  | None => throw AccessDenied
  end.

(** DELETE /api/transactions/:id *)
Definition delete_transactions (user : option id) (i : id) : M unit :=
  requireAuth user ;;;
  deleteTransaction i.

Record Calculations := mkCalculations {
  totalAmount : number;
  sharePerPerson : number;
  owedToPayer : list (string * number) }.

Record SplitResult := mkSplitResult {
  sr_splitExpense : SplitExpense;
  sr_participants : list InsertSplitParticipant;
  sr_calculations : Calculations }.

(** [participants.split(',').map((name) => name.trim())] *)
Definition participantNames (participants : string) : list string :=
  map trim (split "," participants).

(** [(parseFloat(amount) / participantNames.length).toFixed(2)] *)
Definition shareAmount (amount : string) (names : list string) : string :=
  toFixed2 (js_div (parseFloat amount) (number_of_nat (List.length names))).

(** The [calculations] of the response. *)
Definition calculations (expense : InsertSplitExpense) (names : list string)
    (share : string) : Calculations :=
  mkCalculations
    (parseFloat (ise_amount expense))
    (parseFloat share)
    (map (fun name => (name, parseFloat share))
       (filter (fun name => negb (String.eqb name (ise_payerName expense))) names)).

(** POST /api/split-expense *)
Definition post_split_expense (user : option id) (body : SplitBody) : M SplitResult :=
  uid <- requireAuth user ;;
  validatedExpenseData <- parse_insertSplitExpenseSchema body ;;
  splitExpense <- createSplitExpense uid validatedExpenseData ;;
  match sb_participants body with
  | Text participants =>
      let names := participantNames participants in
      let share := shareAmount (ise_amount validatedExpenseData) names in
      let splitParticipants :=
        map (fun name => mkInsertSplitParticipant name share) names in
      createSplitParticipants (se_id splitExpense) splitParticipants ;;;
      ret (mkSplitResult splitExpense splitParticipants
             (calculations validatedExpenseData names share))
  | _ => throw TypeError
  end.

(** GET /api/split-history *)
Definition get_split_history (user : option id)
  : M (list (SplitExpense * list SplitParticipant)) :=
  uid <- requireAuth user ;;
  getSplitExpensesByUserId uid.

(** PUT /api/split-history/:id *)
Definition put_split_history (user : option id) (i : id) (body : SplitPatchBody)
  : M unit :=
  requireAuth user ;;;
  validatedData <- parse_partialSplitExpenseSchema body ;;
  updateSplitExpense i validatedData.

(** DELETE /api/split-history/:id *)
Definition delete_split_history (user : option id) (i : id) : M unit :=
  requireAuth user ;;;
  deleteSplitExpense i.

(* ================================================================== *)
(** ** Vocabulary of the statements *)

(** Relative and absolute error of one rounding to binary64, for the
    bounds below: [2^-53] and (generously) [2^-60]. *)
Definition eps : Q := 1 # 9007199254740992.
Definition eta : Q := 1 # 1152921504606846976.

(** [money_text s a]: the text [s] is a plain decimal numeral whose value
    is exactly [a] hundredths, as an amount with at most two fractional
    digits is. *)
Definition money_text (s : string) (a : Z) : Prop :=
  exists d, scan_decimal s = Some (d, EmptyString)
            /\ (dec_value d * 100 == inject_Z a)%Q.


(** What a transaction of type [type] and amount [a] adds to a balance:
    anything but ["credit"] counts as a debit. *)
Definition signed (type : string) (a : Z) : Z :=
  if String.eqb type "credit" then a else - a.

(** The balance stored for an account. *)
Definition balance_of (s : db) (i : id) : option numeric :=
  option_map ba_balance (find (fun a => Nat.eqb (ba_id a) i) (bankAccounts s)).

(** A sequence of addTransaction calls. *)
Fixpoint createTransactions (ts : list InsertTransaction) : M unit :=
  match ts with
  | [] => ret tt
  | t :: rest => createTransaction t ;;; createTransactions rest
  end.

(** The running balance stays within the column at every step. *)
Fixpoint fits_column (b : Z) (deltas : list Z) : Prop :=
  match deltas with
  | [] => True
  | d :: rest => Z.abs (b + d) < 10 ^ 12 /\ fits_column (b + d) rest
  end.

Definition sum (l : list Z) : Z := fold_right Z.add 0 l.

Definition credits (calls : list (InsertTransaction * Z)) : list Z :=
  map snd (filter (fun c => String.eqb (it_type (fst c)) "credit") calls).

Definition debits (calls : list (InsertTransaction * Z)) : list Z :=
  map snd (filter (fun c => negb (String.eqb (it_type (fst c)) "credit")) calls).

Definition delta (c : InsertTransaction * Z) : Z := signed (it_type (fst c)) (snd c).

(** The participant rows of one split: one per name, in order, all with
    the share [c], with consecutive keys from [first]. *)
Fixpoint share_rows (expenseId first : id) (names : list string) (c : Z)
  : list SplitParticipant :=
  match names with
  | [] => []
  | name :: rest =>
      mkSplitParticipant first expenseId name c
      :: share_rows expenseId (S first) rest c
  end.

(** The hundredths a cell holds; a NaN cell counts as nothing. *)
Definition hundredths (v : numeric) : Z :=
  match v with Hundredths c => c | NumericNaN => 0 end.

(** The net of the transactions recorded against an account. *)
Definition net_of_transactions (s : db) (i : id) : Z :=
  sum (map (fun t => signed (tx_type t) (hundredths (tx_amount t)))
         (filter (fun t => Nat.eqb (tx_accountId t) i) (transactions s))).

(** The share as the specification words it, "round(amount / count, 2
    decimal places)", on whole hundredths: with ties away from zero
    ("standard rounding"), and with ties to even. *)
Definition spec_share_half_up (amount : Z) (count : nat) : Z :=
  round_half_up (inject_Z amount / inject_Z (Z.of_nat count)).

Definition spec_share_half_even (amount : Z) (count : nat) : Z :=
  round_half_even (inject_Z amount / inject_Z (Z.of_nat count)).



(** Sample data: two users; Alice's account 0 holds 10.00. *)
Definition alice : id := 1%nat.
Definition bob : id := 2%nat.

Definition sample_db : db :=
  mkDb [mkBankAccount 0%nat alice "HDFC" "savings" 1000] [] [] [] 1%nat.

Definition credit_body (amount : string) : TransactionBody :=
  mkTransactionBody (Some 0%nat) (Text amount) (Text "credit") (Text "salary").

Definition split_body (participants payer amount : string) : SplitBody :=
  mkSplitBody (Text participants) (Text payer) (Text amount) (Text "dinner").

(* ================================================================== *)
(** ** The remaining storage methods and routes *)

(** Newest first, as for the other listings. *)
Definition getBankAccountsByUserId (userId : id) : M (list BankAccount) :=
  fun s =>
    (s, inr (rev (filter (fun a => Nat.eqb (ba_userId a) userId) (bankAccounts s)))).

(** [transactions] inner-joined with [bankAccounts] on the account id,
    for the accounts of one user: each transaction with the name of its
    account. *)
Definition getTransactionsByUserId (userId : id)
  : M (list (Transaction * string)) :=
  fun s =>
    (s, inr (rev (flat_map
                    (fun t =>
                       map (fun a => (t, ba_name a))
                         (filter (fun a => Nat.eqb (ba_id a) (tx_accountId t)
                                           && Nat.eqb (ba_userId a) userId)
                            (bankAccounts s)))
                    (transactions s)))).

(** GET /api/accounts *)
Definition get_accounts (user : option id) : M (list BankAccount) :=
  uid <- requireAuth user ;;
  getBankAccountsByUserId uid.

(** GET /api/transactions *)
Definition get_transactions (user : option id) : M (list (Transaction * string)) :=
  uid <- requireAuth user ;;
  getTransactionsByUserId uid.

(** The requests [registerRoutes] serves. *)
Inductive request :=
| PostAccounts (body : AccountBody)
| GetAccounts
| PostTransactions (body : TransactionBody)
| GetTransactions
| GetAccountTransactions (accountId : id)
| DeleteTransactions (i : id)
| PostSplitExpense (body : SplitBody)
| GetSplitHistory
| PutSplitHistory (i : id) (body : SplitPatchBody)
| DeleteSplitHistory (i : id).

(** The database after a handler has run, and the error it threw. *)
Definition outcome {A} (r : db * (error + A)) : db * option error :=
  (fst r, match snd r with inl e => Some e | inr _ => None end).

Definition handle (user : option id) (req : request) (s : db) : db * option error :=
  match req with
  | PostAccounts body => outcome (post_accounts user body s)
  | GetAccounts => outcome (get_accounts user s)
  | PostTransactions body => outcome (post_transactions user body s)
  | GetTransactions => outcome (get_transactions user s)
  | GetAccountTransactions a => outcome (get_account_transactions user a s)
  | DeleteTransactions i => outcome (delete_transactions user i s)
  | PostSplitExpense body => outcome (post_split_expense user body s)
  | GetSplitHistory => outcome (get_split_history user s)
  | PutSplitHistory i body => outcome (put_split_history user i body s)
  | DeleteSplitHistory i => outcome (delete_split_history user i s)
  end.

(** A session: requests served one after the other. *)
Fixpoint serve (calls : list (option id * request)) (s : db) : db :=
  match calls with
  | [] => s
  | (user, req) :: rest => serve rest (fst (handle user req s))
  end.

(* ================================================================== *)
(** ** The home page *)

(** [text || "0"] on a string. *)
Definition or_zero (text : string) : string :=
  match text with EmptyString => "0" | _ => text end.

(** [rows.reduce((sum, row) => sum + parseFloat(row.amount || "0"), 0)]
    on the money texts of the rows. *)
Definition reduce_sum (texts : list string) : number :=
  fold_left (fun sum text => js_add sum (parseFloat (or_zero text))) texts (Finite 0).

(** The rows reach the page as JSON: a money column as the text its cell
    reads back as. *)
Definition totalBalance (accounts : list BankAccount) : number :=
  reduce_sum (map (fun a => numeric_out (ba_balance a)) accounts).

Definition monthlyIncome (transactions : list Transaction) : number :=
  reduce_sum (map (fun t => numeric_out (tx_amount t))
                (filter (fun t => String.eqb (tx_type t) "credit") transactions)).

Definition monthlyExpenses (transactions : list Transaction) : number :=
  reduce_sum (map (fun t => numeric_out (tx_amount t))
                (filter (fun t => String.eqb (tx_type t) "debit") transactions)).

Definition totalSplitExpenses (expenses : list SplitExpense) : number :=
  reduce_sum (map (fun e => numeric_out (se_amount e)) expenses).

(** [transactions.slice(0, 5)] *)
Definition recentTransactions {A} (transactions : list A) : list A :=
  firstn 5 transactions.

(** The balance on an account card: [parseFloat(account.balance).toFixed(2)]. *)
Definition card_balance (account : BankAccount) : string :=
  toFixed2 (parseFloat (numeric_out (ba_balance account))).


(* ================================================================== *)
(** ** Invariants of the database *)

(** Keys are unique within a table and were all drawn from the counter. *)
Definition keys_fresh (s : db) : Prop :=
  NoDup (map ba_id (bankAccounts s))
  /\ NoDup (map tx_id (transactions s))
  /\ NoDup (map se_id (splitExpenses s))
  /\ NoDup (map sp_id (splitParticipants s))
  /\ Forall (fun a => (ba_id a < next_id s)%nat) (bankAccounts s)
  /\ Forall (fun t => (tx_id t < next_id s)%nat) (transactions s)
  /\ Forall (fun e => (se_id e < next_id s)%nat) (splitExpenses s)
  /\ Forall (fun p => (sp_id p < next_id s)%nat) (splitParticipants s).

(** Every transaction belongs to an account and every participant to an
    expense. *)
Definition references_ok (s : db) : Prop :=
  Forall (fun t => In (tx_accountId t) (map ba_id (bankAccounts s))) (transactions s)
  /\ Forall (fun p => In (sp_expenseId p) (map se_id (splitExpenses s)))
       (splitParticipants s).

(** [preserves P m]: running [m] keeps [P], whether it returns or throws. *)
Definition preserves (P : db -> Prop) {A} (m : M A) : Prop :=
  forall s, P s -> P (fst (m s)).

(* ================================================================== *)
(** ** Vocabulary of the further properties *)

(** How often the character [c] occurs in [s]. *)
Fixpoint count_char (c : ascii) (s : string) : nat :=
  match s with
  | EmptyString => 0%nat
  | String x r => ((if Ascii.eqb x c then 1 else 0) + count_char c r)%nat
  end.

(** [Array.prototype.join] with a one-character separator. *)
Fixpoint join (sep : ascii) (pieces : list string) : string :=
  match pieces with
  | [] => EmptyString
  | [p] => p
  | p :: rest => p ++ String sep (join sep rest)
  end.

(** Amounts a dashboard card can add up: at most 200 of them, each
    within the column, with a running sum that fits the column. *)
Definition addable (cs : list Z) : Prop :=
  (List.length cs <= 200)%nat
  /\ Forall (fun c => Z.abs c < 10 ^ 12) cs
  /\ fits_column 0 cs.

(** What a card shows for the Number [x] it computed from the amounts
    [cs]: their exact sum with two decimals; a sum of zero may carry a
    minus sign, unless no amount is negative. *)
Definition card_shows (x : number) (cs : list Z) : Prop :=
  (toFixed2 x = numeric_out (sum cs)
   \/ (sum cs = 0 /\ toFixed2 x = "-0.00"))
  /\ (Forall (fun c => 0 <= c) cs -> toFixed2 x = numeric_out (sum cs)).

(** More sample data: a session of four requests, an account one
    hundredth below the largest balance, and the rows of a home page. *)
Definition sample_session : list (option id * request) :=
  [ (Some alice, PostTransactions (credit_body "5.00"));
    (Some bob, DeleteTransactions 1%nat);
    (Some alice, PostSplitExpense (split_body "A,B" "A" "10.00"));
    (None, GetAccounts) ].

Definition full_db : db :=
  mkDb [mkBankAccount 0%nat alice "HDFC" "savings" 999999999999] [] [] [] 1%nat.

Definition sample_accounts : list BankAccount :=
  [ mkBankAccount 0%nat alice "A" "savings" 30;
    mkBankAccount 1%nat alice "B" "credit" (-10);
    mkBankAccount 2%nat alice "C" "credit" (-20) ].

Definition sample_transactions : list Transaction :=
  [ mkTransaction 3%nat 0%nat 500 "credit" "pay";
    mkTransaction 4%nat 0%nat 200 "debit" "rent" ].

Definition sample_expenses : list SplitExpense :=
  [ mkSplitExpense 5%nat alice "A" 1000 "dinner" ].

(* ================================================================== *)
(** ** Rounding to binary64 *)

Local Open Scope Q_scope.

Lemma round_half_even_near (q : Q) :
  Qabs (inject_Z (round_half_even q) - q) <= 1 # 2.
Proof.
  unfold round_half_even.
  pose proof (Qfloor_le q) as Hlo. pose proof (Qlt_floor q) as Hhi.
  rewrite inject_Z_plus in Hhi. change (inject_Z 1) with 1 in Hhi.
  apply Qabs_Qle_condition.
  destruct (q - inject_Z (Qfloor q) ?= 1 # 2) eqn:Hc.
  - apply Qeq_alt in Hc. destruct (Z.even (Qfloor q)).
    + lra.
    + rewrite inject_Z_plus. change (inject_Z 1) with 1. lra.
  - apply Qlt_alt in Hc. lra.
  - apply Qgt_alt in Hc. rewrite inject_Z_plus. change (inject_Z 1) with 1. lra.
Qed.

Lemma pow2_pos (e : Z) : 0 < 2 ^ e.
Proof. apply Qpower_0_lt. lra. Qed.

Lemma pow2_succ (e : Z) : 2 ^ (e + 1) == 2 * 2 ^ e.
Proof. rewrite Qpower_plus by lra. change (2 ^ 1) with 2. lra. Qed.

Lemma Qabs_num_den (q : Q) :
  Qabs q * inject_Z (Zpos (Qden q)) == inject_Z (Z.abs (Qnum q)).
Proof.
  destruct q as [n d]. unfold Qabs, Qeq, Qmult, inject_Z. simpl. lia.
Qed.

Lemma ilog2_le (q : Q) : ~ q == 0 -> 2 ^ ilog2 q <= Qabs q.
Proof.
  intros Hq. unfold ilog2.
  set (n := Z.abs (Qnum q)). set (d := Zpos (Qden q)).
  destruct (Qle_bool (2 ^ (Z.log2 n - Z.log2 d)) (Qabs q)) eqn:Hc.
  - apply Qle_bool_iff in Hc. exact Hc.
  - assert (Hn : (0 < n)%Z).
    { subst n. destruct q as [qn qd]. unfold Qeq in Hq. simpl in *. lia. }
    assert (Hd : (0 < d)%Z) by (subst d; lia).
    destruct (Z.log2_spec n Hn) as [Hn1 _].
    destruct (Z.log2_spec d Hd) as [_ Hd2].
    pose proof (Z.log2_nonneg n) as Ha. pose proof (Z.log2_nonneg d) as Hb.
    set (a := Z.log2 n) in *. set (b := Z.log2 d) in *.
    pose proof (Qabs_num_den q) as Hnd. fold n d in Hnd.
    assert (HA : inject_Z (2 ^ a) == 2 ^ a) by (apply Zpower_Qpower; lia).
    assert (HB : inject_Z (2 ^ Z.succ b) == 2 ^ (b + 1)).
    { rewrite Zpower_Qpower by lia. reflexivity. }
    assert (Hsplit : 2 ^ (a - b - 1) * 2 ^ (b + 1) == 2 ^ a).
    { rewrite <- Qpower_plus by lra. replace (a - b - 1 + (b + 1))%Z with a by lia. reflexivity. }
    assert (Hn1' : inject_Z (2 ^ a) <= inject_Z n) by (rewrite <- Zle_Qle; exact Hn1).
    assert (Hd2' : inject_Z d < inject_Z (2 ^ Z.succ b)) by (rewrite <- Zlt_Qlt; exact Hd2).
    assert (Hd' : 0 < inject_Z d) by (change 0 with (inject_Z 0); rewrite <- Zlt_Qlt; exact Hd).
    pose proof (pow2_pos (a - b - 1)) as Hp.
    apply Qnot_lt_le. intros Hlt.
    assert (Qabs q * inject_Z d < 2 ^ (a - b - 1) * 2 ^ (b + 1)).
    { apply Qle_lt_trans with (2 ^ (a - b - 1) * inject_Z d).
      - apply Qmult_le_compat_r; lra.
      - apply Qmult_lt_l; [exact Hp|]. rewrite <- HB. exact Hd2'. }
    lra.
Qed.

Lemma Qabs_cases (x : Q) :
  (0 <= x /\ Qabs x == x) \/ (x <= 0 /\ Qabs x == - x).
Proof.
  apply (Qabs_case x (fun a => (0 <= x /\ a == x) \/ (x <= 0 /\ a == - x))).
  - intros H. left. split; [exact H | reflexivity].
  - intros H. right. split; [exact H | reflexivity].
Qed.

(** Eliminates one absolute value in favour of its two cases. *)
Ltac qabs x := destruct (Qabs_cases x) as [[? ?] | [? ?]].

Lemma significand_err (q : Q) :
  ~ q == 0 ->
  Qabs (inject_Z (round_half_even (q / 2 ^ Z.max (ilog2 q - 52) (-1074)))
        * 2 ^ Z.max (ilog2 q - 52) (-1074) - q)
  <= Qabs q * eps + eta.
Proof.
  intros Hq.
  set (e := Z.max (ilog2 q - 52) (-1074)).
  pose proof (pow2_pos e) as HP.
  pose proof (round_half_even_near (q / 2 ^ e)) as Hm.
  set (m := inject_Z (round_half_even (q / 2 ^ e))) in *.
  assert (Hq' : q == q / 2 ^ e * 2 ^ e) by (field; lra).
  set (t := q / 2 ^ e) in *.
  assert (HPb : 2 ^ e <= Qabs q * (2 * eps) + 2 * eta).
  { pose proof (ilog2_le q Hq) as Hl.
    pose proof (Qabs_nonneg q) as Hn.
    destruct (Z.max_spec (ilog2 q - 52) (-1074)) as [[_ He] | [_ He]];
      fold e in He; rewrite He.
    - assert (H1 : 2 ^ (-1074) <= 2 * eta) by (vm_compute; discriminate).
      assert (0 <= Qabs q * (2 * eps)).
      { apply Qmult_le_0_compat; [exact Hn | vm_compute; discriminate]. }
      lra.
    - assert (H1 : 2 ^ (ilog2 q - 52) == 2 ^ ilog2 q * (2 * eps)).
      { unfold Zminus. rewrite Qpower_plus by lra.
        assert (H52 : 2 ^ (- (52)) == 2 * eps) by (vm_compute; reflexivity).
        rewrite H52. reflexivity. }
      rewrite H1.
      assert (2 ^ ilog2 q * (2 * eps) <= Qabs q * (2 * eps)).
      { apply Qmult_le_compat_r; [exact Hl | vm_compute; discriminate]. }
      unfold eta. lra. }
  apply Qabs_Qle_condition in Hm. destruct Hm as [Hm1 Hm2].
  assert (H1 : (m - t) * 2 ^ e <= (1 # 2) * 2 ^ e)
    by (apply Qmult_le_compat_r; lra).
  assert (H2 : (- (1 # 2)) * 2 ^ e <= (m - t) * 2 ^ e)
    by (apply Qmult_le_compat_r; lra).
  apply Qabs_Qle_condition.
  assert (H3 : m * 2 ^ e - q == (m - t) * 2 ^ e) by (rewrite Hq' at 1; ring).
  rewrite H3. split; lra.
Qed.

Lemma Finite_inj (a b : Q) : Finite a = Finite b -> a = b.
Proof. intros H. injection H as H. exact H. Qed.

Lemma binary64_finite (q z : Q) :
  binary64 q = Finite z -> Qabs (z - q) <= Qabs q * eps + eta.
Proof.
  unfold binary64. destruct (Qeq_bool q 0) eqn:H0.
  - intros H. injection H as <-. apply Qeq_bool_eq in H0.
    pose proof (Qabs_nonneg q).
    assert (Qabs (0 - q) == 0) by (rewrite H0; reflexivity).
    unfold eps, eta. lra.
  - apply Qeq_bool_neq in H0.
    destruct (Qle_bool _ _); [discriminate|].
    intros H. apply Finite_inj in H. subst z.
    pose proof (significand_err q H0) as He.
    apply Qabs_Qle_condition. apply Qabs_Qle_condition in He.
    revert He. match goal with |- context [Qred ?z] =>
      pose proof (Qred_correct z) as Hr; revert Hr;
      generalize (Qred z); generalize z end.
    intros z0 z1 Hr He. lra.
Qed.

Lemma binary64_is_finite (q : Q) :
  Qabs q <= 10 ^ 100 -> exists z, binary64 q = Finite z.
Proof.
  intros Hb. unfold binary64. destruct (Qeq_bool q 0) eqn:H0.
  - eexists. reflexivity.
  - apply Qeq_bool_neq in H0.
    pose proof (significand_err q H0) as He.
    destruct (Qle_bool _ _) eqn:Hov; [|eexists; reflexivity].
    exfalso. apply Qle_bool_iff in Hov.
    revert He Hov.
    generalize (inject_Z (round_half_even (q / 2 ^ Z.max (ilog2 q - 52) (-1074)))
                * 2 ^ Z.max (ilog2 q - 52) (-1074)).
    intros z0 He Hov.
    assert (H1 : 2 ^ 1024 > 10 ^ 100 * 2 + 1) by (vm_compute; reflexivity).
    assert (H2 : 10 ^ 100 == 10000000000000000000000000000000000000000000000000000000000000000000000000000000000000000000000000000)
      by reflexivity.
    revert Hov H1. generalize (2 ^ 1024). intros big Hov H1.
    rewrite H2 in *. clear H2.
    unfold eps, eta in He.
    qabs (z0 - q); qabs q; qabs z0; lra.
Qed.

Lemma binary64_money (q : Q) :
  Qabs q <= 40000000000 ->
  exists z, binary64 q = Finite z /\ Qabs (z - q) <= 1 # 100000.
Proof.
  intros Hb.
  destruct (binary64_is_finite q) as [z Hz].
  { assert (H2 : 10 ^ 100 == 10000000000000000000000000000000000000000000000000000000000000000000000000000000000000000000000000000)
      by reflexivity.
    rewrite H2. lra. }
  exists z. split; [exact Hz|].
  pose proof (binary64_finite q z Hz) as He. unfold eps, eta in He.
  qabs (z - q); qabs q; lra.
Qed.

Lemma binary64_money_inv (v z : Q) :
  binary64 v = Finite z -> Qabs z <= 30000000000 ->
  Qabs (z - v) <= 1 # 100000.
Proof.
  intros Hz Hb.
  pose proof (binary64_finite v z Hz) as He. unfold eps, eta in He.
  qabs (z - v); qabs v; qabs z; lra.
Qed.

Lemma Qfloor_unique (x : Q) (t : Z) :
  inject_Z t <= x -> x < inject_Z t + 1 -> Qfloor x = t.
Proof.
  intros H1 H2.
  pose proof (Qfloor_le x) as Hlo. pose proof (Qlt_floor x) as Hhi.
  rewrite inject_Z_plus in Hhi. change (inject_Z 1) with 1 in Hhi.
  assert (inject_Z (Qfloor x) < inject_Z (t + 1)).
  { rewrite inject_Z_plus. change (inject_Z 1) with 1. lra. }
  assert (inject_Z t < inject_Z (Qfloor x + 1)).
  { rewrite inject_Z_plus. change (inject_Z 1) with 1. lra. }
  rewrite <- Zlt_Qlt in *. lia.
Qed.

Lemma round_half_up_near (q : Q) (t : Z) :
  Qabs (q - inject_Z t) < 1 # 2 -> round_half_up q = t.
Proof.
  intros H. unfold round_half_up. apply Qfloor_unique;
    qabs (q - inject_Z t); lra.
Qed.

Lemma dec_value_sign (d : decimal) :
  if dec_neg d then dec_value d <= 0 else 0 <= dec_value d.
Proof.
  unfold dec_value.
  assert (0 <= inject_Z (Z.of_N (dec_mant d)) * 10 ^ dec_exp d).
  { apply Qmult_le_0_compat.
    - change 0 with (inject_Z 0). rewrite <- Zle_Qle. lia.
    - apply Qpower_0_le. lra. }
  destruct (dec_neg d); lra.
Qed.

Lemma inject_Z_abs (a : Z) : Qabs (inject_Z a) == inject_Z (Z.abs a).
Proof. reflexivity. Qed.

(** A numeral within a tenth of a hundredth of a whole number [t] of
    hundredths rounds to [t]. *)
Lemma hundredths_near (d : decimal) (t : Z) :
  Qabs (dec_value d * 100 - inject_Z t) <= 1 # 10 ->
  round_half_up (Qabs (dec_value d) * 100) = Z.abs t
  /\ (if dec_neg d then - Z.abs t else Z.abs t)%Z = t.
Proof.
  intros Hv. pose proof (dec_value_sign d) as Hsg. split.
  - apply round_half_up_near. rewrite <- inject_Z_abs.
    qabs (dec_value d * 100 - inject_Z t); qabs (dec_value d); qabs (inject_Z t);
      qabs (Qabs (dec_value d) * 100 - Qabs (inject_Z t)); lra.
  - destruct (dec_neg d).
    + assert (inject_Z t < inject_Z 1); [|rewrite <- Zlt_Qlt in *; lia].
      change (inject_Z 1) with 1. qabs (dec_value d * 100 - inject_Z t); lra.
    + assert (inject_Z (-1) < inject_Z t); [|rewrite <- Zlt_Qlt in *; lia].
      change (inject_Z (-1)) with (-1). qabs (dec_value d * 100 - inject_Z t); lra.
Qed.

Local Close Scope Q_scope.

(* ================================================================== *)
(** ** Writing and reading numerals *)

Lemma append_assoc (a b c : string) : (a ++ b) ++ c = a ++ (b ++ c).
Proof. induction a as [|x a IH]; simpl; [reflexivity | rewrite IH; reflexivity]. Qed.

Lemma digit_char_spec (d : N) :
  (d < 10)%N -> is_digit (digit_char d) = true /\ digit_val (digit_char d) = d.
Proof.
  intros H.
  assert (Hd : In d [0; 1; 2; 3; 4; 5; 6; 7; 8; 9]%N).
  { simpl. lia. }
  simpl in Hd.
  repeat (destruct Hd as [<- | Hd]; [split; reflexivity|]). contradiction.
Qed.

(** Reading back [w] written digits. *)
Lemma scan_digits_pad (w : nat) : forall (m acc : N) (cnt : nat) (rest : string),
  scan_digits acc cnt (pad_digits w m ++ rest)
  = scan_digits (acc * 10 ^ N.of_nat w + m mod 10 ^ N.of_nat w)%N (cnt + w) rest.
Proof.
  induction w as [|w IH]; intros m acc cnt rest.
  - simpl. rewrite N.mod_1_r, N.mul_1_r, N.add_0_r, Nat.add_0_r. reflexivity.
  - cbn [pad_digits]. rewrite append_assoc. rewrite IH.
    cbn [append scan_digits].
    destruct (digit_char_spec (m mod 10)) as [Hd Hv].
    { apply N.mod_lt. discriminate. }
    rewrite Hd, Hv. f_equal; [|lia].
    rewrite Nat2N.inj_succ, N.pow_succ_r'.
    rewrite (N.Div0.mod_mul_r m 10 (10 ^ N.of_nat w)). lia.
Qed.

Lemma ndigits_aux_spec (fuel : nat) : forall m : N,
  (m < 2 ^ N.of_nat fuel)%N -> (m < 10 ^ N.of_nat (ndigits_aux fuel m))%N.
Proof.
  induction fuel as [|f IH]; intros m Hm.
  - simpl in *. lia.
  - cbn [ndigits_aux]. destruct (N.ltb_spec m 10) as [Hlt | Hge].
    + simpl. exact Hlt.
    + rewrite Nat2N.inj_succ, N.pow_succ_r' in *.
      assert (Hq : (m / 10 < 2 ^ N.of_nat f)%N).
      { apply N.Div0.div_lt_upper_bound. lia. }
      specialize (IH _ Hq).
      pose proof (N.Div0.div_mod m 10) as Hdm.
      pose proof (N.mod_lt m 10 ltac:(discriminate)). lia.
Qed.

Lemma ndigits_spec (m : N) : (m < 10 ^ N.of_nat (ndigits m))%N.
Proof.
  apply ndigits_aux_spec. rewrite N2Nat.id. apply N.size_gt.
Qed.

Lemma ndigits_pos (m : N) : exists k, ndigits m = S k.
Proof.
  unfold ndigits. destruct (N.to_nat (N.size m)); simpl.
  - eexists; reflexivity.
  - destruct (m <? 10)%N; eexists; reflexivity.
Qed.

Lemma scan_digits_string_of_N (m : N) (cnt : nat) (rest : string) :
  scan_digits 0 cnt (string_of_N m ++ rest) = scan_digits m (cnt + ndigits m) rest.
Proof.
  unfold string_of_N. rewrite scan_digits_pad. f_equal.
  rewrite N.mod_small by apply ndigits_spec. lia.
Qed.

(** A written number starts with a digit. *)
Lemma pad_digits_head (w : nat) : forall m : N,
  exists c r, pad_digits (S w) m = String c r /\ is_digit c = true.
Proof.
  induction w as [|w IH]; intros m.
  - exists (digit_char (m mod 10)), EmptyString. split; [reflexivity|].
    apply digit_char_spec. apply N.mod_lt. discriminate.
  - destruct (IH (m / 10)%N) as (c & r & Hp & Hc).
    exists c, (r ++ String (digit_char (m mod 10)) EmptyString).
    split; [|exact Hc].
    change (pad_digits (S (S w)) m)
      with (pad_digits (S w) (m / 10) ++ String (digit_char (m mod 10)) EmptyString).
    rewrite Hp. reflexivity.
Qed.

Lemma string_of_N_head (m : N) :
  exists c r, string_of_N m = String c r /\ is_digit c = true.
Proof.
  unfold string_of_N. destruct (ndigits_pos m) as [k ->]. apply pad_digits_head.
Qed.

Lemma scan_sign_digit (c : ascii) (r : string) :
  is_digit c = true -> scan_sign (String c r) = (false, String c r).
Proof.
  destruct c as [[] [] [] [] [] [] [] []]; intros H; try discriminate H; reflexivity.
Qed.

Lemma scan_digits_exponent (acc : N) (cnt : nat) (e : option Z) :
  scan_digits acc cnt (print_exponent e) = (acc, cnt, print_exponent e).
Proof. destruct e; reflexivity. Qed.

Lemma scan_exponent_print (e : option Z) :
  scan_exponent (print_exponent e) = (exp_of e, EmptyString).
Proof.
  destruct e as [x|]; [|reflexivity].
  cbn [print_exponent append scan_exponent].
  change (Ascii.eqb "e" "e" || Ascii.eqb "e" "E")%bool with true. cbv iota.
  assert (Hd : forall neg : bool, scan_sign ((if neg then "-" else "+") ++ string_of_N (Z.abs_N x))
                    = (neg, string_of_N (Z.abs_N x))).
  { intros []; reflexivity. }
  rewrite Hd.
  pose proof (scan_digits_string_of_N (Z.abs_N x) 0 EmptyString) as Hs.
  assert (Hnil : forall s : string, s ++ "" = s).
  { induction s as [|a s IH]; simpl; [reflexivity | rewrite IH; reflexivity]. }
  rewrite Hnil in Hs. rewrite Hs. cbn [scan_digits].
  destruct (ndigits_pos (Z.abs_N x)) as [k ->]. cbn [Nat.add].
  f_equal. cbn [exp_of]. destruct (Z.ltb_spec x 0); rewrite N2Z.inj_abs_N; lia.
Qed.

(** Reading back a written numeral. *)
Lemma scan_decimal_print (neg : bool) (m : N) (f : nat) (e : option Z) :
  scan_decimal (print_decimal neg m f e)
  = Some (mkDecimal neg m (exp_of e - Z.of_nat f), EmptyString).
Proof.
  unfold print_decimal.
  set (body := string_of_N (m / 10 ^ N.of_nat f)
                ++ match f with O => "" | S _ => "." ++ pad_digits f m end
                ++ print_exponent e).
  assert (Hsign : scan_sign ((if neg then "-" else "") ++ body) = (neg, body)).
  { destruct neg; [reflexivity|]. cbn [append].
    subst body. destruct (string_of_N_head (m / 10 ^ N.of_nat f)) as (c & r & -> & Hc).
    apply scan_sign_digit. exact Hc. }
  unfold scan_decimal. rewrite Hsign. subst body.
  rewrite scan_digits_string_of_N.
  destruct (ndigits_pos (m / 10 ^ N.of_nat f)) as [k Hk]. rewrite Hk. cbn [Nat.add].
  destruct f as [|f].
  - cbn [append]. rewrite scan_digits_exponent.
    change (10 ^ N.of_nat 0)%N with 1%N. rewrite N.div_1_r.
    assert (Hnd : match print_exponent e with
                  | String "."%char r => scan_digits m 0 r
                  | _ => (m, O, print_exponent e)
                  end = (m, O, print_exponent e)).
    { destruct e; reflexivity. }
    rewrite Hnd. rewrite scan_exponent_print. rewrite Z.sub_0_r. reflexivity.
  - cbn [append scan_digits]. change (is_digit ".") with false. cbv iota.
    rewrite scan_digits_pad. rewrite scan_digits_exponent.
    replace (m / 10 ^ N.of_nat (S f) * 10 ^ N.of_nat (S f) + m mod 10 ^ N.of_nat (S f))%N
      with m.
    2:{ pose proof (N.Div0.div_mod m (10 ^ N.of_nat (S f))). lia. }
    cbn [Nat.add]. rewrite scan_exponent_print. reflexivity.
Qed.

(** A numeral starts with a digit, a sign or a point. *)
Lemma scan_decimal_head (c : ascii) (r : string) (x : decimal * string) :
  scan_decimal (String c r) = Some x ->
  is_digit c = true \/ c = "+"%char \/ c = "-"%char \/ c = "."%char.
Proof.
  intros H.
  destruct c as [[] [] [] [] [] [] [] []];
    first [ left; reflexivity
          | right; left; reflexivity
          | right; right; left; reflexivity
          | right; right; right; reflexivity
          | exfalso; cbv in H; discriminate H ].
Qed.

(** Such a character starts no white space, no blank and no [NaN]. *)
Lemma numeral_head (c : ascii) (r : string) :
  is_digit c = true \/ c = "+"%char \/ c = "-"%char \/ c = "."%char ->
  drop_any white_space (String c r) = None
  /\ drop_any (map reverse white_space) (String c r) = None
  /\ skip_spaces (String c r) = String c r
  /\ nan_prefix (String c r) = None.
Proof.
  intros H.
  assert (Hnan : c <> "n"%char -> c <> "N"%char -> nan_prefix (String c r) = None).
  { intros H1 H2. destruct r as [|b [|c' r']]; [reflexivity | reflexivity|].
    cbn [nan_prefix].
    destruct (Ascii.eqb_spec c "n"); [contradiction|].
    destruct (Ascii.eqb_spec c "N"); [contradiction|]. reflexivity. }
  destruct H as [H | [-> | [-> | ->]]];
    [destruct c as [[] [] [] [] [] [] [] []]; try discriminate H | | |];
    (split; [reflexivity
            | split; [reflexivity
                     | split; [reflexivity | apply Hnan; discriminate]]]).
Qed.

Lemma strip_none (ps : list string) (fuel : nat) (s : string) :
  drop_any ps s = None -> strip ps fuel s = s.
Proof. intros H. destruct fuel; cbn [strip]; [|rewrite H]; reflexivity. Qed.

Lemma scan_decimal_trimStart (s : string) (x : decimal * string) :
  scan_decimal s = Some x -> trimStart s = s.
Proof.
  destruct s as [|c r]; [reflexivity|].
  intros H. unfold trimStart. apply strip_none.
  destruct (numeral_head c r (scan_decimal_head c r x H)) as (H1 & _). exact H1.
Qed.

Lemma parseFloat_scan (s : string) (d : decimal) (rest : string) :
  scan_decimal s = Some (d, rest) -> parseFloat s = binary64 (dec_value d).
Proof.
  intros H. unfold parseFloat. rewrite (scan_decimal_trimStart _ _ H), H. reflexivity.
Qed.

(** On a numeral followed by [r] the column rounds its value, provided
    [r] is blank and the result fits. *)
Lemma numeric_in_scan (s : string) (d : decimal) (r : string) :
  scan_decimal s = Some (d, r) ->
  numeric_in s
  = (let c := round_half_up (Qabs (dec_value d) * 100) in
     if all_spaces r && (c <? 10 ^ 12)
     then Some (Hundredths (if dec_neg d then - c else c))
     else None).
Proof.
  intros H. unfold numeric_in.
  destruct s as [|c r0]; [discriminate H|].
  destruct (numeral_head c r0 (scan_decimal_head c r0 _ H)) as (_ & _ & -> & ->).
  rewrite H. reflexivity.
Qed.


(** A numeral within a tenth of a hundredth of a whole number of
    hundredths is stored as that number when the column holds it, and
    refused otherwise. *)
Lemma numeric_in_near (s : string) (d : decimal) (t : Z) :
  scan_decimal s = Some (d, EmptyString) ->
  (Qabs (dec_value d * 100 - inject_Z t) <= 1 # 10)%Q ->
  Z.abs t < 10 ^ 12 ->
  numeric_in s = Some (Hundredths t).
Proof.
  intros Hs Hv Ht. rewrite (numeric_in_scan s d EmptyString Hs). cbv zeta.
  destruct (hundredths_near d t Hv) as [-> ->]. cbn [all_spaces andb].
  destruct (Z.ltb_spec (Z.abs t) (10 ^ 12)); [reflexivity | lia].
Qed.

Lemma numeric_in_far (s : string) (d : decimal) (t : Z) :
  scan_decimal s = Some (d, EmptyString) ->
  (Qabs (dec_value d * 100 - inject_Z t) <= 1 # 10)%Q ->
  10 ^ 12 <= Z.abs t ->
  numeric_in s = None.
Proof.
  intros Hs Hv Ht. rewrite (numeric_in_scan s d EmptyString Hs). cbv zeta.
  destruct (hundredths_near d t Hv) as [-> _]. cbn [all_spaces andb].
  destruct (Z.ltb_spec (Z.abs t) (10 ^ 12)); [lia | reflexivity].
Qed.

(* ================================================================== *)
(** ** Number::toString *)

Local Open Scope Q_scope.

Lemma number_eqb_Finite (n : number) (x : Q) :
  number_eqb n (Finite x) = true -> exists z, n = Finite z /\ z == x.
Proof.
  destruct n as [| |z]; simpl; try discriminate.
  intros H. exists z. split; [reflexivity | apply Qeq_bool_eq; exact H].
Qed.

Lemma shortest_at_spec (x : Q) (ex s : Z) :
  shortest_at x ex = Some s ->
  (Qfloor (x / 10 ^ ex) <= s)%Z
  /\ exists z, binary64 (inject_Z s * 10 ^ ex) = Finite z /\ z == x.
Proof.
  unfold shortest_at.
  set (lo := Qfloor (x / 10 ^ ex)).
  destruct (number_eqb (binary64 (inject_Z lo * 10 ^ ex)) (Finite x)) eqn:Hlo;
  destruct (number_eqb (binary64 (inject_Z (lo + 1) * 10 ^ ex)) (Finite x)) eqn:Hhi;
  intros H.
  - assert (Hs : s = lo \/ s = (lo + 1)%Z).
    { destruct (_ ?= _); [destruct (Z.even lo)| |]; injection H as <-; auto. }
    destruct Hs as [-> | ->]; (split; [lia | apply number_eqb_Finite; assumption]).
  - injection H as <-. split; [lia | apply number_eqb_Finite; assumption].
  - injection H as <-. split; [lia | apply number_eqb_Finite; assumption].
  - discriminate.
Qed.

Lemma shortest_from_spec (fuel : nat) : forall (x : Q) (ex s ex' : Z),
  shortest_from fuel x ex = Some (s, ex') -> shortest_at x ex' = Some s.
Proof.
  induction fuel as [|f IH]; intros x ex s ex'; simpl; [discriminate|].
  destruct (shortest_at x ex) as [s0|] eqn:H0.
  - intros H. injection H as <- <-. exact H0.
  - apply IH.
Qed.

Lemma Qfloor_nonneg (q : Q) : 0 <= q -> (0 <= Qfloor q)%Z.
Proof.
  intros H. change 0%Z with (Qfloor 0). apply Qfloor_resp_le. exact H.
Qed.

Lemma pow10_pos (e : Z) : 0 < 10 ^ e.
Proof. apply Qpower_0_lt. lra. Qed.

Lemma floor_scaled (x T P : Q) :
  0 < x -> 0 < P -> T * P == 1 -> P <= eta ->
  (0 <= Qfloor (x * T))%Z
  /\ Qabs (inject_Z (Qfloor (x * T)) * P - x)
     <= Qabs (inject_Z (Qfloor (x * T)) * P) * eps + eta.
Proof.
  intros Hx HP HTP HPe.
  assert (HT : 0 < T).
  { destruct (Qlt_le_dec 0 T) as [H|H]; [exact H|exfalso].
    assert (T * P <= 0 * P) by (apply Qmult_le_compat_r; lra). lra. }
  pose proof (Qfloor_le (x * T)) as Hlo.
  pose proof (Qlt_floor (x * T)) as Hhi.
  rewrite inject_Z_plus in Hhi. change (inject_Z 1) with 1 in Hhi.
  split.
  - apply Qfloor_nonneg. apply Qmult_le_0_compat; lra.
  - revert Hlo Hhi. generalize (inject_Z (Qfloor (x * T))). intros f Hlo Hhi.
    assert (H1 : f * P <= x * T * P) by (apply Qmult_le_compat_r; lra).
    assert (H2 : x * T * P < (f + 1) * P) by (apply Qmult_lt_compat_r; lra).
    assert (H3 : x * T * P == x) by (rewrite <- Qmult_assoc, HTP; ring).
    assert (H4 : (f + 1) * P == f * P + P) by ring.
    unfold eps. qabs (f * P - x); qabs (f * P); lra.
Qed.

Lemma pair_eq {A B} (a a' : A) (b b' : B) : (a, b) = (a', b') -> a = a' /\ b = b'.
Proof. intros H. split; congruence. Qed.

(** The digits chosen for [x] denote a value that rounds to [x], or is
    within [eta] of it. *)
Lemma shortest_spec (x : Q) (s ex : Z) :
  0 < x -> shortest x = (s, ex) ->
  (0 <= s)%Z
  /\ Qabs (inject_Z s * 10 ^ ex - x) <= Qabs (inject_Z s * 10 ^ ex) * eps + eta.
Proof.
  intros Hx. unfold shortest.
  destruct (shortest_from _ _ _) as [[s0 ex0]|] eqn:Hf; intros H;
    apply pair_eq in H; destruct H as [<- <-].
  - apply shortest_from_spec in Hf. apply shortest_at_spec in Hf.
    destruct Hf as [Hlo (z & Hz & Hzx)]. split.
    + assert (0 <= Qfloor (x / 10 ^ ex0))%Z; [|lia].
      apply Qfloor_nonneg. apply Qle_shift_div_l; [apply pow10_pos | lra].
    + pose proof (binary64_finite _ _ Hz) as He.
      revert He. generalize (inject_Z s0 * 10 ^ ex0). intros v He.
      qabs (z - v); qabs (v - x); lra.
  - apply floor_scaled.
    + exact Hx.
    + apply pow10_pos.
    + rewrite <- Qpower_plus by lra. reflexivity.
    + vm_compute; discriminate.
Qed.

Lemma is_neg_spec (q : Q) : if is_neg q then q < 0 else 0 <= q.
Proof.
  unfold is_neg. destruct (Qle_bool 0 q) eqn:H; simpl.
  - apply Qle_bool_iff. exact H.
  - apply Qnot_le_lt. intros Hle. apply Qle_bool_iff in Hle. congruence.
Qed.

Lemma ndigits_ge_1 (m : N) : (1 <= Z.of_nat (ndigits m))%Z.
Proof. destruct (ndigits_pos m) as [k ->]. lia. Qed.

(** What [toString] writes reads back as a numeral whose value rounds to
    the Number written (or is within [eta] of it). *)
Lemma toString_scan (q : Q) :
  exists d, scan_decimal (toString (Finite q)) = Some (d, EmptyString)
            /\ Qabs (dec_value d - q) <= Qabs (dec_value d) * eps + eta.
Proof.
  unfold toString. destruct (Qeq_bool q 0) eqn:H0.
  - apply Qeq_bool_eq in H0. exists (mkDecimal false 0 0). split; [reflexivity|].
    assert (Hz : dec_value (mkDecimal false 0 0) == 0) by reflexivity.
    revert Hz. generalize (dec_value (mkDecimal false 0 0)). intros v Hz.
    unfold eps, eta. qabs (v - q); qabs v; lra.
  - apply Qeq_bool_neq in H0.
    assert (Hx : 0 < Qabs q) by (qabs q; lra).
    destruct (shortest (Qabs q)) as [s ex] eqn:Hs.
    destruct (shortest_spec _ _ _ Hx Hs) as [Hs0 Hv].
    pose proof (is_neg_spec q) as Hn.
    pose proof (ndigits_ge_1 (Z.to_N s)) as Hk.
    set (k := Z.of_nat (ndigits (Z.to_N s))) in *.
    assert (Hfin : forall (m : N) (x : Z),
      inject_Z (Z.of_N m) * 10 ^ x == inject_Z s * 10 ^ ex ->
      Qabs (dec_value (mkDecimal (is_neg q) m x) - q)
      <= Qabs (dec_value (mkDecimal (is_neg q) m x)) * eps + eta).
    { intros m x Hm. unfold dec_value; cbn [dec_neg dec_mant dec_exp].
      revert Hm Hv. generalize (inject_Z (Z.of_N m) * 10 ^ x).
      generalize (inject_Z s * 10 ^ ex). intros v w Hm Hv.
      unfold eps, eta in *.
      destruct (is_neg q).
      - qabs (v - Qabs q); qabs v; qabs q; qabs (- w - q); qabs (- w); lra.
      - qabs (v - Qabs q); qabs v; qabs q; qabs (w - q); qabs w; lra. }
    destruct ((0 <=? ex)%Z && (k + ex <=? 21)%Z) eqn:B1.
    + apply andb_prop in B1. destruct B1 as [B1 _]. apply Z.leb_le in B1.
      eexists. split; [apply scan_decimal_print|]. apply Hfin.
      cbn [exp_of]. rewrite Z2N.id by (apply Z.mul_nonneg_nonneg; [lia | apply Z.pow_nonneg; lia]).
      rewrite inject_Z_mult, Zpower_Qpower by lia.
      change (10 ^ (0 - Z.of_nat 0)) with 1. change (inject_Z 10) with 10. ring.
    + destruct ((ex <? 0)%Z && (-6 <? k + ex)%Z && (k + ex <=? 21)%Z) eqn:B2.
      * apply andb_prop in B2. destruct B2 as [B2 _].
        apply andb_prop in B2. destruct B2 as [B2 _]. apply Z.ltb_lt in B2.
        eexists. split; [apply scan_decimal_print|]. apply Hfin.
        cbn [exp_of]. rewrite Z2N.id by lia. rewrite Z2Nat.id by lia.
        replace (0 - - ex)%Z with ex by lia. reflexivity.
      * eexists. split; [apply scan_decimal_print|]. apply Hfin.
        cbn [exp_of]. rewrite Z2N.id by lia. rewrite Z2Nat.id by lia.
        replace (k + ex - 1 - (k - 1))%Z with ex by lia. reflexivity.
Qed.

Local Close Scope Q_scope.

(* ================================================================== *)
(** ** Money through binary64 *)

Local Open Scope Q_scope.

Lemma cents_bound (a : Z) :
  (Z.abs a < 10 ^ 12)%Z ->
  - (1000000000000) < inject_Z a /\ inject_Z a < 1000000000000.
Proof.
  intros H. change 1000000000000 with (inject_Z 1000000000000).
  rewrite <- inject_Z_opp. rewrite <- !Zlt_Qlt.
  change (10 ^ 12)%Z with 1000000000000%Z in H. lia.
Qed.

Lemma money_text_numeric_in (s : string) (a : Z) :
  money_text s a -> (Z.abs a < 10 ^ 12)%Z -> numeric_in s = Some (Hundredths a).
Proof.
  intros (d & Hs & Hv) Ha. apply (numeric_in_near s d a Hs); [|exact Ha].
  qabs (dec_value d * 100 - inject_Z a); lra.
Qed.

(** A stored amount reads back as a text that denotes it. *)
Lemma money_text_numeric_out (c : Z) : money_text (numeric_out c) c.
Proof.
  unfold numeric_out, money_text. eexists. split; [apply scan_decimal_print|].
  unfold dec_value; cbn [dec_neg dec_mant dec_exp exp_of].
  assert (H10 : 10 ^ (0 - Z.of_nat 2) * 100 == 1) by reflexivity.
  rewrite N2Z.inj_abs_N.
  destruct (Z.ltb_spec c 0) as [Hc | Hc].
  - rewrite Z.abs_neq by lia. rewrite inject_Z_opp.
    rewrite <- (Qmult_1_r (inject_Z c)) at 2. rewrite <- H10. ring.
  - rewrite Z.abs_eq by lia.
    rewrite <- (Qmult_1_r (inject_Z c)) at 2. rewrite <- H10. ring.
Qed.

(** [parseFloat] of an amount text is within a thousandth of a hundredth
    of the amount. *)
Lemma parseFloat_money (s : string) (a : Z) :
  money_text s a -> (Z.abs a < 10 ^ 12)%Z ->
  exists x, parseFloat s = Finite x /\ Qabs (x * 100 - inject_Z a) <= 1 # 1000.
Proof.
  intros (d & Hs & Hv) Ha. rewrite (parseFloat_scan _ _ _ Hs).
  destruct (cents_bound a Ha) as [Ha1 Ha2].
  destruct (binary64_money (dec_value d)) as (x & Hx & He).
  { qabs (dec_value d); lra. }
  exists x. split; [exact Hx|].
  qabs (x - dec_value d); qabs (x * 100 - inject_Z a); lra.
Qed.

(** A Number within a hundredth of a hundredth of [t] hundredths is
    stored as [t] when written with [toString]. *)
Lemma numeric_in_toString (z : Q) (t : Z) :
  Qabs (z * 100 - inject_Z t) <= 1 # 100 -> (Z.abs t < 10 ^ 12)%Z ->
  numeric_in (toString (Finite z)) = Some (Hundredths t).
Proof.
  intros Hz Ht. destruct (toString_scan z) as (d & Hs & Hd).
  apply (numeric_in_near _ d t Hs); [|exact Ht].
  destruct (cents_bound t Ht) as [Ht1 Ht2]. unfold eps, eta in Hd.
  qabs (z * 100 - inject_Z t); qabs (dec_value d - z); qabs (dec_value d);
    qabs (dec_value d * 100 - inject_Z t); lra.
Qed.

(** The Number computed for the new balance is within a hundredth of a
    hundredth of the exact new balance. *)
Lemma newBalance_near (b a : Z) (t : InsertTransaction) :
  money_text (it_amount t) a ->
  (Z.abs b < 10 ^ 12)%Z -> (Z.abs a < 10 ^ 12)%Z ->
  exists z, newBalance (numeric_out b) t = Finite z
            /\ Qabs (z * 100 - inject_Z (b + signed (it_type t) a)) <= 1 # 100.
Proof.
  intros Hm Hb Ha. unfold newBalance, signed.
  destruct (parseFloat_money _ b (money_text_numeric_out b) Hb) as (x & -> & Hx).
  destruct (parseFloat_money _ a Hm Ha) as (y & -> & Hy).
  destruct (cents_bound a Ha) as [Ha1 Ha2].
  destruct (cents_bound b Hb) as [Hb1 Hb2].
  destruct (String.eqb (it_type t) "credit").
  - cbn [js_add]. destruct (binary64_money (x + y)) as (z & Hz & He).
    { qabs (x * 100 - inject_Z b); qabs (y * 100 - inject_Z a); qabs (x + y); lra. }
    exists z. split; [exact Hz|]. rewrite inject_Z_plus.
    qabs (x * 100 - inject_Z b); qabs (y * 100 - inject_Z a); qabs (z - (x + y));
      qabs (z * 100 - (inject_Z b + inject_Z a)); lra.
  - unfold js_sub. cbn [js_neg js_add].
    destruct (binary64_money (x + - y)) as (z & Hz & He).
    { qabs (x * 100 - inject_Z b); qabs (y * 100 - inject_Z a); qabs (x + - y); lra. }
    exists z. split; [exact Hz|]. rewrite inject_Z_plus, inject_Z_opp.
    qabs (x * 100 - inject_Z b); qabs (y * 100 - inject_Z a); qabs (z - (x + - y));
      qabs (z * 100 - (inject_Z b + - inject_Z a)); lra.
Qed.

Local Close Scope Q_scope.

(* ================================================================== *)
(** ** The ledger *)

Lemma find_set_balance (i : id) (c : numeric) (l : list BankAccount) :
  find (fun a => Nat.eqb (ba_id a) i) (map (set_balance i c) l)
  = option_map (set_balance i c) (find (fun a => Nat.eqb (ba_id a) i) l).
Proof.
  induction l as [|a l IH]; [reflexivity|]. cbn [map find].
  unfold set_balance at 1. destruct (Nat.eqb (ba_id a) i) eqn:E.
  - cbn [ba_id]. rewrite E. cbn [option_map]. unfold set_balance. rewrite E. reflexivity.
  - rewrite E. exact IH.
Qed.

Lemma find_other_set_balance (i j : id) (c : numeric) (l : list BankAccount) :
  i <> j ->
  find (fun a => Nat.eqb (ba_id a) j) (map (set_balance i c) l)
  = find (fun a => Nat.eqb (ba_id a) j) l.
Proof.
  intros Hij. induction l as [|a l IH]; [reflexivity|]. cbn [map find].
  unfold set_balance at 1 2. destruct (Nat.eqb (ba_id a) i) eqn:E.
  - cbn [ba_id]. apply Nat.eqb_eq in E.
    destruct (Nat.eqb (ba_id a) j) eqn:E'.
    + apply Nat.eqb_eq in E'. congruence.
    + exact IH.
  - destruct (Nat.eqb (ba_id a) j); [reflexivity | exact IH].
Qed.

(** What one [createTransaction] does to the database when the amount is
    a money text and the new balance fits the column. *)
Lemma createTransaction_ok (s : db) (t : InsertTransaction) (acc : BankAccount)
    (a b : Z) :
  find (fun x => Nat.eqb (ba_id x) (it_accountId t)) (bankAccounts s) = Some acc ->
  ba_balance acc = Hundredths b ->
  money_text (it_amount t) a ->
  storable (it_type t) = true -> storable (it_description t) = true ->
  Z.abs a < 10 ^ 12 ->
  Z.abs b < 10 ^ 12 ->
  Z.abs (b + signed (it_type t) a) < 10 ^ 12 ->
  let tx := mkTransaction (next_id s) (it_accountId t) a (it_type t) (it_description t) in
  createTransaction t s
  = (mkDb (map (set_balance (it_accountId t) (Hundredths (b + signed (it_type t) a)))
               (bankAccounts s))
          (transactions s ++ [tx]) (splitExpenses s) (splitParticipants s)
          (S (next_id s)),
     inr tx).
Proof.
  intros Hf Hbal Hm Hst Hsd Ha Hb Hn tx.
  unfold createTransaction, bind, insertTransaction.
  rewrite (money_text_numeric_in _ _ Hm Ha), Hf, Hst, Hsd. cbn [andb].
  unfold getBankAccount. cbn [bankAccounts]. rewrite Hf, Hbal.
  unfold updateBankAccountBalance.
  destruct (newBalance_near _ _ t Hm Hb Ha) as (z & -> & Hz).
  rewrite (numeric_in_toString _ _ Hz Hn).
  reflexivity.
Qed.

Lemma sum_credits_debits (c : InsertTransaction * Z) (rest : list (InsertTransaction * Z)) :
  sum (credits (c :: rest)) - sum (debits (c :: rest))
  = delta c + (sum (credits rest) - sum (debits rest)).
Proof.
  unfold credits, debits, delta, signed. cbn [filter].
  destruct (String.eqb (it_type (fst c)) "credit"); cbn [negb map sum fold_right];
    fold (sum (map snd (filter (fun c => String.eqb (it_type (fst c)) "credit") rest)));
    fold (sum (map snd (filter (fun c => negb (String.eqb (it_type (fst c)) "credit")) rest)));
    lia.
Qed.

Lemma balance_after_set (i : id) (c : numeric) (s : db) (acc : BankAccount) :
  find (fun x => Nat.eqb (ba_id x) i) (bankAccounts s) = Some acc ->
  find (fun x => Nat.eqb (ba_id x) i) (map (set_balance i c) (bankAccounts s))
  = Some (set_balance i c acc)
  /\ ba_balance (set_balance i c acc) = c.
Proof.
  intros Hf. rewrite find_set_balance, Hf. split; [reflexivity|].
  unfold set_balance. apply find_some in Hf. destruct Hf as [_ Hf].
  rewrite Hf. reflexivity.
Qed.

Lemma createTransactions_balance (calls : list (InsertTransaction * Z)) :
  forall (i : id) (s : db) (acc : BankAccount) (b : Z),
  find (fun x => Nat.eqb (ba_id x) i) (bankAccounts s) = Some acc ->
  ba_balance acc = Hundredths b ->
  Z.abs b < 10 ^ 12 ->
  Forall (fun c => it_accountId (fst c) = i
                   /\ money_text (it_amount (fst c)) (snd c)
                   /\ 0 < snd c < 10 ^ 12
                   /\ storable (it_type (fst c)) = true
                   /\ storable (it_description (fst c)) = true) calls ->
  fits_column b (map delta calls) ->
  exists s',
    createTransactions (map fst calls) s = (s', inr tt)
    /\ balance_of s' i
       = Some (Hundredths (b + sum (credits calls) - sum (debits calls))).
Proof.
  induction calls as [|c rest IH]; intros i s acc b Hf Hbal Hb Hall Hfit.
  - exists s. split; [reflexivity|]. unfold balance_of. rewrite Hf.
    cbn. rewrite Hbal. do 2 f_equal. lia.
  - inversion Hall as [|c' rest' (Hi & Hm & Ha & Hst & Hsd) Hrest]; subst c' rest'.
    cbn [map fits_column] in Hfit. destruct Hfit as [Hn Hfit]. unfold delta in Hn.
    cbn [map createTransactions]. unfold bind.
    rewrite <- Hi in Hf.
    rewrite (createTransaction_ok s (fst c) acc (snd c) b Hf Hbal Hm Hst Hsd
               ltac:(lia) Hb Hn).
    set (b' := b + signed (it_type (fst c)) (snd c)) in *.
    set (s1 := mkDb _ _ _ _ _).
    destruct (balance_after_set (it_accountId (fst c)) (Hundredths b') s acc Hf)
      as [Hf1 Hb1].
    rewrite Hi in Hf1, Hb1.
    destruct (IH i s1 (set_balance i (Hundredths b') acc) b') as (s' & Hrun & Hbal');
      [subst s1; cbn [bankAccounts]; rewrite Hi; exact Hf1
      | exact Hb1 | exact Hn | exact Hrest | exact Hfit |].
    exists s'. split; [exact Hrun|]. rewrite Hbal'. do 2 f_equal.
    pose proof (sum_credits_debits c rest) as Hsum. unfold delta in Hsum.
    subst b'. lia.
Qed.

(* ================================================================== *)
(** ** Stripping and cutting strings *)

Local Open Scope nat_scope.

Lemma append_nil (s : string) : s ++ "" = s.
Proof. induction s as [|a s IH]; simpl; [reflexivity | rewrite IH; reflexivity]. Qed.

Lemma length_append (a b : string) :
  String.length (a ++ b) = String.length a + String.length b.
Proof. induction a as [|x a IH]; simpl; [reflexivity | rewrite IH; reflexivity]. Qed.

Lemma reverse_append (a b : string) : reverse (a ++ b) = reverse b ++ reverse a.
Proof.
  induction a as [|x a IH]; cbn [append reverse].
  - rewrite append_nil. reflexivity.
  - rewrite IH. apply append_assoc.
Qed.

Lemma reverse_reverse (s : string) : reverse (reverse s) = s.
Proof.
  induction s as [|x s IH]; [reflexivity|].
  cbn [reverse]. rewrite reverse_append, IH. reflexivity.
Qed.

Lemma length_reverse (s : string) : String.length (reverse s) = String.length s.
Proof.
  induction s as [|x s IH]; [reflexivity|].
  cbn [reverse]. rewrite length_append, IH. simpl. lia.
Qed.

Lemma count_char_append (c : ascii) (a b : string) :
  count_char c (a ++ b) = count_char c a + count_char c b.
Proof.
  induction a as [|x a IH]; [reflexivity|].
  cbn [append count_char]. rewrite IH. lia.
Qed.

Lemma count_char_reverse (c : ascii) (s : string) :
  count_char c (reverse s) = count_char c s.
Proof.
  induction s as [|x s IH]; [reflexivity|].
  cbn [reverse]. rewrite count_char_append, IH. cbn [count_char]. lia.
Qed.

Lemma drop_prefix_append (p s r : string) :
  drop_prefix p s = Some r <-> s = p ++ r.
Proof.
  revert s. induction p as [|a p IH]; intros s; cbn [drop_prefix append].
  - split; [intros H; injection H as ->; reflexivity | intros ->; reflexivity].
  - destruct s as [|b s]; [split; discriminate|].
    destruct (Ascii.eqb_spec a b) as [-> | Hab].
    + rewrite IH. split; [intros ->; reflexivity | intros H; injection H as ->; reflexivity].
    + split; [discriminate | intros H; injection H as -> _; contradiction].
Qed.

Lemma drop_any_append (ps : list string) (s r : string) :
  drop_any ps s = Some r -> exists p, In p ps /\ s = p ++ r.
Proof.
  induction ps as [|p ps IH]; cbn [drop_any]; [discriminate|].
  destruct (drop_prefix p s) as [r'|] eqn:E.
  - intros H. injection H as ->. exists p. split; [left; reflexivity|].
    apply drop_prefix_append. exact E.
  - intros H. destruct (IH H) as (q & Hq & Hs). exists q. split; [right; exact Hq | exact Hs].
Qed.

Lemma drop_any_prefix (ps : list string) (p x : string) :
  In p ps -> drop_any ps (p ++ x) <> None.
Proof.
  induction ps as [|q ps IH]; intros Hin; [contradiction|]. cbn [drop_any].
  destruct (drop_prefix q (p ++ x)) eqn:E; [discriminate|].
  destruct Hin as [-> | Hin]; [|exact (IH Hin)].
  assert (H : drop_prefix p (p ++ x) = Some x) by (apply drop_prefix_append; reflexivity).
  congruence.
Qed.

(** What [strip] leaves is an end of the string. *)
Lemma strip_end (ps : list string) (fuel : nat) (s : string) :
  exists p, s = p ++ strip ps fuel s.
Proof.
  revert s. induction fuel as [|f IH]; intros s; cbn [strip]; [exists ""; reflexivity|].
  destruct (drop_any ps s) as [r|] eqn:E; [|exists ""; reflexivity].
  destruct (drop_any_append _ _ _ E) as (p & _ & ->).
  destruct (IH r) as (q & Hq). exists (p ++ q).
  rewrite append_assoc, <- Hq. reflexivity.
Qed.

(** With enough rounds nothing is left to strip. *)
Lemma strip_done (ps : list string) (fuel : nat) (s : string) :
  Forall (fun p => p <> "") ps -> String.length s <= fuel ->
  drop_any ps (strip ps fuel s) = None.
Proof.
  intros Hps. revert s. induction fuel as [|f IH]; intros s Hlen; cbn [strip].
  - destruct s; [|simpl in Hlen; lia].
    destruct (drop_any ps "") as [r|] eqn:E; [|reflexivity].
    destruct (drop_any_append _ _ _ E) as (p & Hp & Hs).
    rewrite Forall_forall in Hps. specialize (Hps p Hp).
    destruct p; [contradiction | discriminate Hs].
  - destruct (drop_any ps s) as [r|] eqn:E; [|exact E].
    destruct (drop_any_append _ _ _ E) as (p & Hp & ->).
    rewrite Forall_forall in Hps. pose proof (Hps p Hp) as Hne.
    apply IH. rewrite length_append in Hlen.
    destruct p; [contradiction|]. simpl in Hlen. lia.
Qed.

Lemma white_space_not_empty :
  Forall (fun p => p <> "") white_space
  /\ Forall (fun p => p <> "") (map reverse white_space).
Proof. split; repeat constructor; discriminate. Qed.

Lemma trimStart_end (s : string) : exists p, s = p ++ trimStart s.
Proof. apply strip_end. Qed.

Lemma trimEnd_start (s : string) : exists q, s = trimEnd s ++ q.
Proof.
  unfold trimEnd.
  destruct (strip_end (map reverse white_space) (String.length s) (reverse s)) as (p & Hp).
  exists (reverse p). rewrite <- reverse_append, <- Hp. symmetry. apply reverse_reverse.
Qed.

Lemma trimStart_done (s : string) : drop_any white_space (trimStart s) = None.
Proof. apply strip_done; [apply white_space_not_empty | apply le_n]. Qed.

Lemma trimEnd_idem (t : string) : trimEnd (trimEnd t) = trimEnd t.
Proof.
  unfold trimEnd at 1.
  assert (Hu : reverse (trimEnd t)
               = strip (map reverse white_space) (String.length t) (reverse t)).
  { unfold trimEnd. apply reverse_reverse. }
  rewrite Hu. rewrite strip_none; [reflexivity|].
  apply strip_done; [apply white_space_not_empty|].
  rewrite length_reverse. apply le_n.
Qed.

(** What [trim] returns neither starts nor ends with white space. *)
Lemma trim_start (s : string) : starts_with_space (trim s) = false.
Proof.
  unfold starts_with_space, trim. set (t := trimStart s).
  destruct (drop_any white_space (trimEnd t)) as [r|] eqn:E; [|reflexivity].
  exfalso. destruct (drop_any_append _ _ _ E) as (p & Hp & Hs).
  destruct (trimEnd_start t) as (q & Hq).
  apply (drop_any_prefix white_space p (r ++ q) Hp).
  rewrite <- append_assoc, <- Hs, <- Hq. apply trimStart_done.
Qed.

Lemma trim_end (s : string) : ends_with_space (trim s) = false.
Proof.
  unfold ends_with_space, trim, trimEnd. rewrite reverse_reverse.
  rewrite strip_done; [reflexivity | apply white_space_not_empty|].
  rewrite length_reverse. apply le_n.
Qed.

Lemma trim_idem (s : string) : trim (trim s) = trim s.
Proof.
  pose proof (trim_start s) as Hs. unfold starts_with_space in Hs.
  unfold trim at 1. unfold trimStart at 1. rewrite strip_none.
  - apply trimEnd_idem.
  - destruct (drop_any white_space (trim s)); [discriminate Hs | reflexivity].
Qed.

Lemma strip_count (c : ascii) (ps : list string) (fuel : nat) (s : string) :
  count_char c (strip ps fuel s) <= count_char c s.
Proof.
  destruct (strip_end ps fuel s) as (p & Hp). rewrite Hp at 2.
  rewrite count_char_append. lia.
Qed.

Lemma trim_count (c : ascii) (s : string) : count_char c (trim s) <= count_char c s.
Proof.
  unfold trim, trimEnd, trimStart. rewrite count_char_reverse.
  etransitivity; [apply strip_count|]. rewrite count_char_reverse. apply strip_count.
Qed.

Lemma split_not_nil (sep : ascii) (s : string) : split sep s <> [].
Proof.
  destruct s as [|c r]; cbn [split]; [discriminate|].
  destruct (Ascii.eqb c sep); [discriminate|].
  destruct (split sep r); discriminate.
Qed.

Lemma split_count_le (c sep : ascii) (s : string) :
  Forall (fun p => count_char c p <= count_char c s) (split sep s).
Proof.
  induction s as [|x r IH]; [repeat constructor|].
  cbn [split]. destruct (Ascii.eqb x sep).
  - constructor; [cbn [count_char]; lia|].
    eapply Forall_impl; [|exact IH]. intros p Hp. cbn [count_char] in *. lia.
  - pose proof (split_not_nil sep r) as Hn.
    destruct (split sep r) as [|h t]; [contradiction|].
    inversion IH as [|? ? Hh Ht]; subst. constructor.
    + cbn [count_char]. lia.
    + eapply Forall_impl; [|exact Ht]. intros p Hp. cbn [count_char] in *. lia.
Qed.

Lemma storable_count (s : string) : storable s = true <-> count_char "000" s = 0.
Proof.
  induction s as [|x r IH]; cbn [storable count_char]; [split; reflexivity|].
  destruct (Ascii.eqb x "000"); cbn [negb andb].
  - split; [discriminate | intros H; lia].
  - rewrite IH. reflexivity.
Qed.

(** The names cut from a storable text are storable. *)
Lemma participantNames_storable (participants : string) :
  storable participants = true ->
  Forall (fun name => storable name = true) (participantNames participants).
Proof.
  intros H. apply storable_count in H. unfold participantNames.
  apply Forall_map. eapply Forall_impl; [|apply (split_count_le "000" ",")].
  intros p Hp. cbn beta in Hp. apply storable_count.
  pose proof (trim_count "000" p). lia.
Qed.

Local Close Scope nat_scope.

(* ================================================================== *)
(** ** The split engine *)

Local Open Scope Q_scope.

Lemma binary64_not_NaN (q : Q) : binary64 q <> NaN.
Proof.
  unfold binary64. destruct (Qeq_bool q 0); [discriminate|].
  destruct (Qle_bool _ _); discriminate.
Qed.

(** What [toFixed(2)] writes is stored as the nearest hundredth, ties
    away from zero, of the Number written. *)
Lemma numeric_in_toFixed2 (w : Q) :
  Qabs w <= 20000000000 ->
  (round_half_up (Qabs w * 100) < 10 ^ 12)%Z ->
  numeric_in (toFixed2 (Finite w))
  = Some (Hundredths (if is_neg w then - round_half_up (Qabs w * 100)
                      else round_half_up (Qabs w * 100))%Z).
Proof.
  intros Hw Hr. unfold toFixed2.
  assert (H21 : Qle_bool (10 ^ 21) (Qabs w) = false).
  { destruct (Qle_bool (10 ^ 21) (Qabs w)) eqn:E; [|reflexivity].
    apply Qle_bool_iff in E.
    assert (10 ^ 21 == 1000000000000000000000) by reflexivity. lra. }
  rewrite H21.
  set (m := round_half_up (Qabs w * 100)) in *.
  assert (Hm : (0 <= m)%Z).
  { subst m. unfold round_half_up. apply Qfloor_nonneg.
    pose proof (Qabs_nonneg w). lra. }
  assert (Hd : dec_value (mkDecimal (is_neg w) (Z.to_N m) (exp_of None - Z.of_nat 2)) * 100
               == inject_Z (if is_neg w then - m else m)).
  { unfold dec_value; cbn [dec_neg dec_mant dec_exp exp_of].
    assert (H10 : 10 ^ (0 - Z.of_nat 2) * 100 == 1) by reflexivity.
    rewrite Z2N.id by exact Hm.
    destruct (is_neg w).
    - rewrite inject_Z_opp. rewrite <- (Qmult_1_r (inject_Z m)) at 2.
      rewrite <- H10. ring.
    - rewrite <- (Qmult_1_r (inject_Z m)) at 2. rewrite <- H10. ring. }
  apply (numeric_in_near _ _ _ (scan_decimal_print _ _ _ _)).
  - revert Hd. generalize (dec_value (mkDecimal (is_neg w) (Z.to_N m) (exp_of None - Z.of_nat 2))).
    intros v Hd. qabs (v * 100 - inject_Z (if is_neg w then (- m)%Z else m)); lra.
  - destruct (is_neg w); lia.
Qed.

(** A whole number of at least one is rounded to a Number of nearly one
    or more, or overflows. *)
Lemma number_of_nat_cases (n : nat) :
  (1 <= n)%nat ->
  (exists y, number_of_nat n = Finite y /\ 1 - (2 # 9007199254740992) <= y)
  \/ (exists s, number_of_nat n = Infinity s).
Proof.
  intros Hn. unfold number_of_nat.
  destruct (binary64 (inject_Z (Z.of_nat n))) as [| s | y] eqn:E.
  - exfalso. exact (binary64_not_NaN _ E).
  - right. exists s. reflexivity.
  - left. exists y. split; [reflexivity|].
    pose proof (binary64_finite _ _ E) as He. unfold eps, eta in He.
    assert (H1 : 1 <= inject_Z (Z.of_nat n)).
    { change 1 with (inject_Z 1). rewrite <- Zle_Qle. lia. }
    revert He H1. generalize (inject_Z (Z.of_nat n)). intros v He H1.
    qabs (y - v); qabs v; lra.
Qed.

(** Dividing by a divisor of nearly one or more does not enlarge. *)
Lemma Qdiv_bound (x y : Q) :
  1 - (2 # 9007199254740992) <= y ->
  Qabs (x / y) * (1 - (2 # 9007199254740992)) <= Qabs x.
Proof.
  intros Hy.
  assert (Hy0 : 0 < y) by lra.
  assert (Hx : Qabs x == Qabs (x / y) * y).
  { rewrite <- (Qabs_pos y) at 2 by lra. rewrite <- Qabs_Qmult.
    apply Qabs_wd. field. lra. }
  rewrite Hx. rewrite (Qmult_comm (Qabs (x / y)) (1 - (2 # 9007199254740992))).
  rewrite (Qmult_comm (Qabs (x / y)) y).
  apply Qmult_le_compat_r; [exact Hy | apply Qabs_nonneg].
Qed.

Lemma Qabs_mult_bound (p q P : Q) :
  Qabs p <= P -> Qabs (p * q) <= P * Qabs q.
Proof.
  intros H. rewrite Qabs_Qmult. apply Qmult_le_compat_r; [exact H | apply Qabs_nonneg].
Qed.

Lemma round_half_up_signed (w : Q) :
  Qabs (inject_Z (if is_neg w then - round_half_up (Qabs w * 100)
                  else round_half_up (Qabs w * 100))%Z - w * 100) <= 1 # 2.
Proof.
  unfold round_half_up.
  pose proof (Qfloor_le (Qabs w * 100 + (1 # 2))) as Hlo.
  pose proof (Qlt_floor (Qabs w * 100 + (1 # 2))) as Hhi.
  rewrite inject_Z_plus in Hhi. change (inject_Z 1) with 1 in Hhi.
  pose proof (is_neg_spec w) as Hn.
  destruct (is_neg w).
  - rewrite inject_Z_opp. revert Hlo Hhi.
    generalize (inject_Z (Qfloor (Qabs w * 100 + (1 # 2)))). intros m Hlo Hhi.
    qabs w; qabs (- m - w * 100); lra.
  - revert Hlo Hhi.
    generalize (inject_Z (Qfloor (Qabs w * 100 + (1 # 2)))). intros m Hlo Hhi.
    qabs w; qabs (m - w * 100); lra.
Qed.

(** The share of a money amount is accepted by its column, is no larger
    than the amount, and is within 0.51 hundredths of the exact
    quotient. *)
Lemma shareAmount_near (amount : string) (a : Z) (names : list string) :
  money_text amount a -> (Z.abs a < 10 ^ 12)%Z -> names <> [] ->
  exists c, numeric_in (shareAmount amount names) = Some (Hundredths c)
            /\ (Z.abs c <= Z.abs a)%Z
            /\ Qabs (inject_Z c * inject_Z (Z.of_nat (List.length names)) - inject_Z a)
               <= (51 # 100) * inject_Z (Z.of_nat (List.length names)).
Proof.
  intros Hm Ha Hn. unfold shareAmount.
  destruct (parseFloat_money _ _ Hm Ha) as (x & -> & Hx).
  destruct (cents_bound a Ha) as [Ha1 Ha2].
  pose proof (inject_Z_abs a) as HA.
  assert (Hlen : (1 <= List.length names)%nat).
  { destruct names; [contradiction | simpl; lia]. }
  assert (HN : 1 <= inject_Z (Z.of_nat (List.length names))).
  { change 1 with (inject_Z 1). rewrite <- Zle_Qle. lia. }
  unfold number_of_nat.
  set (N := inject_Z (Z.of_nat (List.length names))) in *.
  destruct (binary64 N) as [| s | y] eqn:Ey.
  - exfalso. exact (binary64_not_NaN _ Ey).
  - cbn [js_div]. exists 0%Z. split; [reflexivity|]. split; [lia|].
    assert (Hbig : ~ Qabs N <= 10 ^ 100).
    { intros Hle. destruct (binary64_is_finite N Hle) as (z & Hz). congruence. }
    assert (H100 : 10 ^ 100 == 10000000000000000000000000000000000000000000000000000000000000000000000000000000000000000000000000000)
      by reflexivity.
    rewrite H100 in Hbig. change (inject_Z 0) with 0.
    qabs N; qabs (0 * N - inject_Z a); lra.
  - pose proof (binary64_finite _ _ Ey) as Hy. unfold eps, eta in Hy.
    assert (Hy1 : 1 - (2 # 9007199254740992) <= y) by (qabs (y - N); qabs N; lra).
    cbn [js_div].
    assert (Hy0 : Qeq_bool y 0 = false).
    { destruct (Qeq_bool y 0) eqn:E; [|reflexivity]. apply Qeq_bool_eq in E. lra. }
    rewrite Hy0.
    pose proof (Qdiv_bound x y Hy1) as Hr.
    destruct (binary64_money (x / y)) as (w & -> & Hw).
    { revert Hr. generalize (Qabs (x / y)). intros r Hr.
      qabs (x * 100 - inject_Z a); qabs x; lra. }
    set (m := round_half_up (Qabs w * 100)).
    assert (Hwr : Qabs w <= Qabs (x / y) + (1 # 100000)).
    { qabs (w - x / y); qabs w; qabs (x / y); lra. }
    assert (Hm1 : (m <= Z.abs a)%Z).
    { assert (inject_Z m < inject_Z (Z.abs a + 1)); [|rewrite <- Zlt_Qlt in *; lia].
      rewrite inject_Z_plus. change (inject_Z 1) with 1. rewrite <- HA.
      pose proof (Qfloor_le (Qabs w * 100 + (1 # 2))) as Hfl.
      fold (round_half_up (Qabs w * 100)) in Hfl. fold m in Hfl.
      revert Hr Hwr. generalize (Qabs (x / y)). intros r Hr Hwr.
      qabs (x * 100 - inject_Z a); qabs x; qabs (inject_Z a); lra. }
    assert (Hm0 : (0 <= m)%Z).
    { subst m. unfold round_half_up. apply Qfloor_nonneg.
      pose proof (Qabs_nonneg w). lra. }
    rewrite numeric_in_toFixed2.
    2:{ revert Hr Hwr. generalize (Qabs (x / y)). intros r Hr Hwr.
        qabs (x * 100 - inject_Z a); qabs x; lra. }
    2:{ fold m. lia. }
    eexists. split; [reflexivity|]. fold m. split; [destruct (is_neg w); lia|].
    pose proof (round_half_up_signed w) as Hu. fold m in Hu.
    set (c := inject_Z (if is_neg w then (- m)%Z else m)) in *.
    (* c N - a = (c - 100 w) N + 100 (w - r) N + 100 r (N - y) + (100 x - a) *)
    pose proof (Qabs_mult_bound (c - w * 100) N _ Hu) as H1.
    pose proof (Qabs_mult_bound (w - x / y) N _ Hw) as H2.
    assert (Hrb : Qabs (x / y) <= 10100000000).
    { revert Hr. generalize (Qabs (x / y)). intros r Hr.
      qabs (x * 100 - inject_Z a); qabs x; lra. }
    pose proof (Qabs_mult_bound (x / y) (N - y) _ Hrb) as H3.
    assert (Hid : c * N - inject_Z a
                  == (c - w * 100) * N + 100 * ((w - x / y) * N)
                     + 100 * (x / y * (N - y)) + (x * 100 - inject_Z a)).
    { field. lra. }
    rewrite Hid.
    revert H1 H2 H3.
    generalize ((c - w * 100) * N) ((w - x / y) * N) (x / y * (N - y)).
    intros t1 t2 t3 H1 H2 H3.
    qabs N; qabs (N - y); qabs (y - N); qabs t1; qabs t2; qabs t3;
      qabs (x * 100 - inject_Z a);
      qabs (t1 + 100 * t2 + 100 * t3 + (x * 100 - inject_Z a)); lra.
Qed.

Local Close Scope Q_scope.

Lemma participantNames_not_nil (p : string) : participantNames p <> [].
Proof.
  unfold participantNames. pose proof (split_not_nil "," p) as H.
  destruct (split "," p); [contradiction | discriminate].
Qed.

Lemma participant_rows_same (e : id) (share : string) (c : Z) (names : list string) :
  numeric_in share = Some (Hundredths c) ->
  Forall (fun name => storable name = true) names ->
  forall first,
  participant_rows e first (map (fun name => mkInsertSplitParticipant name share) names)
  = Some (share_rows e first names c).
Proof.
  intros Hc. induction names as [|n rest IH]; intros Hall first; [reflexivity|].
  inversion Hall as [|? ? Hn Hrest]; subst.
  cbn [map participant_rows isp_shareAmount isp_name share_rows].
  rewrite Hc, (IH Hrest), Hn. reflexivity.
Qed.

Lemma share_rows_length (e first : id) (names : list string) (c : Z) :
  List.length (share_rows e first names c) = List.length names.
Proof.
  revert first. induction names as [|n rest IH]; intros first; [reflexivity|].
  cbn [share_rows List.length]. rewrite IH. reflexivity.
Qed.

Lemma find_last {A} (f : A -> bool) (l : list A) (x : A) :
  f x = true -> exists y, find f (l ++ [x]) = Some y.
Proof.
  intros Hx. induction l as [|a l IH]; cbn [app find].
  - rewrite Hx. eexists; reflexivity.
  - destruct (f a); [eexists; reflexivity | exact IH].
Qed.

Lemma createSplitExpense_ok (s : db) (uid : id) (expense : InsertSplitExpense)
    (c : numeric) :
  numeric_in (ise_amount expense) = Some c ->
  storable (ise_payerName expense) = true ->
  storable (ise_description expense) = true ->
  createSplitExpense uid expense s
  = (mkDb (bankAccounts s) (transactions s)
          (splitExpenses s
           ++ [mkSplitExpense (next_id s) uid (ise_payerName expense) c
                 (ise_description expense)])
          (splitParticipants s) (S (next_id s)),
     inr (mkSplitExpense (next_id s) uid (ise_payerName expense) c
            (ise_description expense))).
Proof.
  intros H Hp Hd. unfold createSplitExpense. rewrite H, Hp, Hd. reflexivity.
Qed.

Lemma createSplitParticipants_ok (s : db) (e : id)
    (participants : list InsertSplitParticipant) (x : SplitExpense)
    (rows : list SplitParticipant) :
  participants <> [] ->
  3 * Z.of_nat (List.length participants) <= 65535 ->
  find (fun y => Nat.eqb (se_id y) e) (splitExpenses s) = Some x ->
  participant_rows e (next_id s) participants = Some rows ->
  createSplitParticipants e participants s
  = (mkDb (bankAccounts s) (transactions s) (splitExpenses s)
          (splitParticipants s ++ rows) (next_id s + List.length rows)%nat,
     inr rows).
Proof.
  intros Hn Hl Hf Hr. unfold createSplitParticipants.
  apply Z.leb_le in Hl. rewrite Hl.
  destruct participants as [|p ps]; [contradiction|].
  rewrite Hf, Hr. reflexivity.
Qed.

(** What POST /api/split-expense does for a money amount, whatever the
    participants text. *)
Lemma post_split_expense_ok (s : db) (uid : id)
    (participants payer amount description : string) (a : Z) :
  money_text amount a -> Z.abs a < 10 ^ 12 ->
  storable participants = true -> storable payer = true ->
  storable description = true ->
  let names := participantNames participants in
  3 * Z.of_nat (List.length names) <= 65535 ->
  let share := shareAmount amount names in
  let e := mkSplitExpense (next_id s) uid payer a description in
  exists c,
    numeric_in share = Some (Hundredths c) /\ Z.abs c <= Z.abs a
    /\ (Qabs (inject_Z c * inject_Z (Z.of_nat (List.length names)) - inject_Z a)
        <= (51 # 100) * inject_Z (Z.of_nat (List.length names)))%Q
    /\ post_split_expense (Some uid)
         (mkSplitBody (Text participants) (Text payer) (Text amount) (Text description)) s
       = (mkDb (bankAccounts s) (transactions s) (splitExpenses s ++ [e])
               (splitParticipants s ++ share_rows (next_id s) (S (next_id s)) names c)
               (S (next_id s) + List.length names)%nat,
          inr (mkSplitResult e
                 (map (fun name => mkInsertSplitParticipant name share) names)
                 (calculations (mkInsertSplitExpense payer amount description) names share))).
Proof.
  intros Hm Ha Hsp Hsy Hsd names Hl share e.
  destruct (shareAmount_near amount a names Hm Ha (participantNames_not_nil _))
    as (c & Hc & Hca & Hnear).
  exists c. split; [exact Hc|]. split; [exact Hca|]. split; [exact Hnear|].
  unfold post_split_expense, bind, requireAuth, parse_insertSplitExpenseSchema.
  cbn [sb_payerName sb_amount sb_description sb_participants].
  unfold ret at 1 2.
  rewrite (createSplitExpense_ok s uid (mkInsertSplitExpense payer amount description) a)
    by (first [exact (money_text_numeric_in _ _ Hm Ha) | assumption]).
  cbn [ise_payerName ise_amount ise_description se_id].
  fold names. fold share.
  destruct (find_last (fun x => Nat.eqb (se_id x) (next_id s)) (splitExpenses s) e)
    as (y & Hy); [apply Nat.eqb_refl|].
  rewrite (createSplitParticipants_ok _ _ _ y (share_rows (next_id s) (S (next_id s)) names c)).
  - rewrite share_rows_length. reflexivity.
  - intros Hmap. apply map_eq_nil in Hmap. exact (participantNames_not_nil _ Hmap).
  - rewrite length_map. exact Hl.
  - exact Hy.
  - apply participant_rows_same; [exact Hc | apply participantNames_storable; exact Hsp].
Qed.

Lemma share_rows_names (e first : id) (names : list string) (c : Z) :
  map sp_name (share_rows e first names c) = names.
Proof.
  revert first. induction names as [|n rest IH]; intros first; [reflexivity|].
  cbn [share_rows map sp_name]. rewrite IH. reflexivity.
Qed.

Lemma share_rows_all (e first : id) (names : list string) (c : Z) :
  Forall (fun p => sp_shareAmount p = c /\ sp_expenseId p = e)
    (share_rows e first names c).
Proof.
  revert first. induction names as [|n rest IH]; intros first; constructor.
  - split; reflexivity.
  - apply IH.
Qed.

(* ================================================================== *)
(** ** The claims *)

(** C1, as stated, fails.  For the amount 2.01 and the participants
    "A,B" every share is "1.00", while 2.01 / 2 = 1.005 rounded to two
    decimals with standard rounding is 1.01; for 0.25 and "A,B" every
    share is "0.13", while ties-to-even rounding of 0.125 gives 0.12: the
    shares follow no one decimal rounding of the exact quotient. *)
Lemma share_is_not_decimal_rounding :
  (exists s' r,
     post_split_expense (Some alice) (split_body "A,B" "A" "2.01") sample_db = (s', inr r)
     /\ map isp_shareAmount (sr_participants r) = ["1.00"; "1.00"])
  /\ numeric_out (spec_share_half_up 201 2) = "1.01"
  /\ (exists s' r,
        post_split_expense (Some alice) (split_body "A,B" "A" "0.25") sample_db = (s', inr r)
        /\ map isp_shareAmount (sr_participants r) = ["0.13"; "0.13"])
  /\ numeric_out (spec_share_half_even 25 2) = "0.12".
Proof.
  split; [|split; [|split]].
  - eexists. eexists. split; vm_compute; reflexivity.
  - vm_compute; reflexivity.
  - eexists. eexists. split; vm_compute; reflexivity.
  - vm_compute; reflexivity.
Qed.

(** C1, amended.  For a positive money amount (a numeral of exactly [a]
    hundredths, below the column's bound), texts the database can store
    (none holds the character U+0000) and no more names than one insert
    statement takes (21845), POST /api/split-expense succeeds and
    creates exactly one share per comma-separated name, in order and
    with duplicates kept; every share, the payer's included, carries the
    same text [toFixed(parseFloat(amount) / count, 2)], stored as [c]
    hundredths; [c] is within 0.51 hundredths of the exact quotient
    [a / count]. *)
Theorem split_shares (s : db) (uid : id)
    (participants payer amount description : string) (a : Z) :
  money_text amount a -> 0 < a < 10 ^ 12 ->
  storable participants = true -> storable payer = true ->
  storable description = true ->
  let names := participantNames participants in
  3 * Z.of_nat (List.length names) <= 65535 ->
  let share := shareAmount amount names in
  exists s' r rows c,
    post_split_expense (Some uid)
      (mkSplitBody (Text participants) (Text payer) (Text amount) (Text description)) s
    = (s', inr r)
    /\ sr_participants r = map (fun name => mkInsertSplitParticipant name share) names
    /\ splitParticipants s' = (splitParticipants s ++ rows)%list
    /\ map sp_name rows = names
    /\ Forall (fun p => sp_shareAmount p = Hundredths c
                        /\ sp_expenseId p = se_id (sr_splitExpense r)) rows
    /\ numeric_in share = Some (Hundredths c)
    /\ (Qabs (inject_Z c * inject_Z (Z.of_nat (List.length names)) - inject_Z a)
        <= (51 # 100) * inject_Z (Z.of_nat (List.length names)))%Q.
Proof.
  intros Hm Ha Hsp Hsy Hsd names Hl share.
  destruct (post_split_expense_ok s uid participants payer amount description a Hm
              ltac:(lia) Hsp Hsy Hsd Hl) as (c & Hc & _ & Hnear & Hrun).
  eexists. eexists. exists (share_rows (next_id s) (S (next_id s)) names c), c.
  split; [exact Hrun|]. cbn [sr_participants splitParticipants sr_splitExpense se_id].
  split; [reflexivity|]. split; [reflexivity|].
  split; [apply share_rows_names|]. split; [apply share_rows_all|].
  split; [exact Hc | exact Hnear].
Qed.

Lemma split_shares_witness :
  exists s' r rows c,
    post_split_expense (Some alice)
      (mkSplitBody (Text "A,B,C") (Text "A") (Text "100.00") (Text "dinner")) sample_db
    = (s', inr r)
    /\ sr_participants r
       = map (fun name => mkInsertSplitParticipant name
                            (shareAmount "100.00" (participantNames "A,B,C")))
           (participantNames "A,B,C")
    /\ splitParticipants s' = (splitParticipants sample_db ++ rows)%list
    /\ map sp_name rows = participantNames "A,B,C"
    /\ Forall (fun p => sp_shareAmount p = Hundredths c
                        /\ sp_expenseId p = se_id (sr_splitExpense r)) rows
    /\ numeric_in (shareAmount "100.00" (participantNames "A,B,C")) = Some (Hundredths c)
    /\ (Qabs (inject_Z c * inject_Z (Z.of_nat (List.length (participantNames "A,B,C")))
              - inject_Z 10000)
        <= (51 # 100) * inject_Z (Z.of_nat (List.length (participantNames "A,B,C"))))%Q.
Proof.
  apply (split_shares sample_db alice "A,B,C" "A" "100.00" "dinner" 10000).
  - eexists. split; vm_compute; reflexivity.
  - lia.
  - reflexivity.
  - reflexivity.
  - reflexivity.
  - vm_compute. discriminate.
Defined.

(** C2, as stated, fails.  Alice's account holds 9999999999.99, the
    largest balance of the column; a credit of 0.01, a positive amount on
    an existing account, is recorded as a transaction, but the balance
    10000000000.00 does not fit the column: the update is refused, the
    call fails and the balance stays at 9999999999.99. *)
Lemma credit_beyond_column :
  let r := createTransaction (mkInsertTransaction 0%nat "0.01" "credit" "pay") full_db in
  balance_of full_db 0%nat = Some (Hundredths 999999999999)
  /\ snd r = inl DatabaseError
  /\ map tx_amount (transactions (fst r)) = [Hundredths 1]
  /\ balance_of (fst r) 0%nat = Some (Hundredths 999999999999).
Proof. vm_compute. repeat split; reflexivity. Qed.

(** C2, amended.  addTransaction on an existing account whose balance is
    a number, with a positive money amount and texts the database can
    store, leaves the balance at the prior balance plus the amount for a
    credit and minus the amount for a debit, exactly, provided the new
    balance fits its column; hence after any sequence of such calls on
    an account of balance [B0] whose running balance fits the column the
    balance is [B0 + credits - debits] in exact decimal arithmetic. *)
Theorem createTransaction_balance_exact :
  (forall (s : db) (t : InsertTransaction) (acc : BankAccount) (a b : Z),
     find (fun x => Nat.eqb (ba_id x) (it_accountId t)) (bankAccounts s) = Some acc ->
     ba_balance acc = Hundredths b ->
     money_text (it_amount t) a -> 0 < a < 10 ^ 12 ->
     storable (it_type t) = true -> storable (it_description t) = true ->
     Z.abs b < 10 ^ 12 ->
     Z.abs (b + signed (it_type t) a) < 10 ^ 12 ->
     exists s' tx,
       createTransaction t s = (s', inr tx)
       /\ transactions s' = (transactions s ++ [tx])%list
       /\ tx_amount tx = Hundredths a
       /\ balance_of s' (it_accountId t)
          = Some (Hundredths (if String.eqb (it_type t) "credit"
                              then b + a else b - a)))
  /\ (forall (calls : list (InsertTransaction * Z)) (i : id) (s : db)
             (acc : BankAccount) (b : Z),
        find (fun x => Nat.eqb (ba_id x) i) (bankAccounts s) = Some acc ->
        ba_balance acc = Hundredths b ->
        Z.abs b < 10 ^ 12 ->
        Forall (fun c => it_accountId (fst c) = i
                         /\ money_text (it_amount (fst c)) (snd c)
                         /\ 0 < snd c < 10 ^ 12
                         /\ storable (it_type (fst c)) = true
                         /\ storable (it_description (fst c)) = true) calls ->
        fits_column b (map delta calls) ->
        exists s',
          createTransactions (map fst calls) s = (s', inr tt)
          /\ balance_of s' i
             = Some (Hundredths (b + sum (credits calls) - sum (debits calls)))).
Proof.
  split.
  - intros s t acc a b Hf Hbal Hm Ha Hst Hsd Hb Hn.
    eexists. eexists. split.
    + apply (createTransaction_ok s t acc a b Hf Hbal Hm Hst Hsd); [lia | exact Hb | exact Hn].
    + cbn [transactions tx_amount]. split; [reflexivity|]. split; [reflexivity|].
      unfold balance_of. cbn [bankAccounts].
      destruct (balance_after_set (it_accountId t)
                  (Hundredths (b + signed (it_type t) a)) s acc Hf) as [-> Hb1].
      cbn [option_map]. rewrite Hb1.
      unfold signed. destruct (String.eqb (it_type t) "credit"); do 2 f_equal; lia.
  - intros calls i s acc b. apply createTransactions_balance.
Qed.

Lemma createTransaction_balance_exact_witness :
  (exists s' tx,
     createTransaction (mkInsertTransaction 0%nat "0.20" "credit" "salary") sample_db
     = (s', inr tx)
     /\ transactions s' = (transactions sample_db ++ [tx])%list
     /\ tx_amount tx = Hundredths 20
     /\ balance_of s' 0%nat = Some (Hundredths (1000 + 20)))
  /\ (exists s',
        createTransactions
          [mkInsertTransaction 0%nat "0.20" "credit" "salary";
           mkInsertTransaction 0%nat "0.10" "debit" "coffee"] sample_db
        = (s', inr tt)
        /\ balance_of s' 0%nat = Some (Hundredths (1000 + (20 + 0) - (10 + 0)))).
Proof.
  split.
  - apply (proj1 createTransaction_balance_exact sample_db
             (mkInsertTransaction 0%nat "0.20" "credit" "salary")
             (mkBankAccount 0%nat alice "HDFC" "savings" 1000) 20 1000).
    + reflexivity.
    + reflexivity.
    + eexists. split; vm_compute; reflexivity.
    + lia.
    + reflexivity.
    + reflexivity.
    + simpl; lia.
    + vm_compute; reflexivity.
  - apply (proj2 createTransaction_balance_exact
             [(mkInsertTransaction 0%nat "0.20" "credit" "salary", 20);
              (mkInsertTransaction 0%nat "0.10" "debit" "coffee", 10)]
             0%nat sample_db (mkBankAccount 0%nat alice "HDFC" "savings" 1000) 1000).
    + reflexivity.
    + reflexivity.
    + simpl; lia.
    + repeat constructor; try (simpl; lia);
        eexists; split; vm_compute; reflexivity.
    + simpl. repeat split; vm_compute; reflexivity.
Defined.

(** C3, at the failing input.  Alice's account holds 10.00; a credit of
    10.00 is added, which brings the balance to 20.00, and then deleted:
    the stored balance stays 20.00, while the initial balance plus the
    net of the transactions left is 10.00.  [deleteTransaction] never
    touches an account. *)
Lemma balance_drifts_after_delete :
  (forall (i : id) (s : db),
     bankAccounts (fst (deleteTransaction i s)) = bankAccounts s)
  /\ (let s1 := fst (post_transactions (Some alice) (credit_body "10.00") sample_db) in
      let s2 := fst (delete_transactions (Some alice) 1%nat s1) in
      balance_of sample_db 0%nat = Some (Hundredths 1000)
      /\ balance_of s1 0%nat = Some (Hundredths 2000)
      /\ transactions s2 = []
      /\ net_of_transactions s2 0%nat = 0
      /\ balance_of s2 0%nat = Some (Hundredths 2000)).
Proof.
  split; [reflexivity|]. vm_compute. repeat split; reflexivity.
Qed.


Lemma post_transactions_owner (s : db) (uid : id) (acc : BankAccount)
    (i : id) (amount type description : string) :
  find (fun x => Nat.eqb (ba_id x) i) (bankAccounts s) = Some acc ->
  ba_userId acc = uid ->
  post_transactions (Some uid)
    (mkTransactionBody (Some i) (Text amount) (Text type) (Text description)) s
  = createTransaction (mkInsertTransaction i amount type description) s.
Proof.
  intros Hf Hu. unfold post_transactions, bind, requireAuth,
    parse_insertTransactionSchema, getBankAccount.
  cbn [tb_accountId tb_amount tb_type tb_description]. unfold ret.
  cbn [it_accountId]. rewrite Hf, Hu, Nat.eqb_refl. reflexivity.
Qed.







Lemma split_length_pos (sep : ascii) (s : string) :
  (1 <= List.length (split sep s))%nat.
Proof.
  pose proof (split_not_nil sep s). destruct (split sep s); [contradiction | simpl; lia].
Qed.

(** C4, as stated, fails.  For the participants text " , ", whose names
    are all empty after trimming, POST /api/split-expense does not fail:
    it persists the expense and two shares of 50.00 with empty names. *)
Lemma blank_participants_accepted :
  let r := post_split_expense (Some alice) (split_body " , " "A" "100.00") sample_db in
  participantNames " , " = [""; ""]
  /\ (exists x, snd r = inr x)
  /\ List.length (splitExpenses (fst r)) = 1%nat
  /\ map (fun p => (sp_name p, sp_shareAmount p)) (splitParticipants (fst r))
     = [("", Hundredths 5000); ("", Hundredths 5000)].
Proof.
  vm_compute. split; [reflexivity|]. split; [eexists; reflexivity|].
  split; reflexivity.
Qed.

(** C4, amended.  POST /api/split-expense makes no check on the
    participant list.  For a positive money amount and every non-empty
    participants text, blank ones included, it succeeds, provided the
    database can store the texts (none holds the character U+0000) and
    takes the rows in one insert statement (at most 21845): the
    participants text is cut at its commas, the pieces are trimmed,
    pieces that are empty after trimming stay in the list as
    participants with an empty name, so the list is never empty; one
    Expense row and one share row per piece are persisted. *)
Theorem split_accepts_any_participants (s : db) (uid : id)
    (participants payer amount description : string) (a : Z) :
  participants <> "" ->
  money_text amount a -> 0 < a < 10 ^ 12 ->
  storable participants = true -> storable payer = true ->
  storable description = true ->
  3 * Z.of_nat (List.length (participantNames participants)) <= 65535 ->
  exists s' r rows,
    post_split_expense (Some uid)
      (mkSplitBody (Text participants) (Text payer) (Text amount) (Text description)) s
    = (s', inr r)
    /\ splitExpenses s' = (splitExpenses s ++ [sr_splitExpense r])%list
    /\ splitParticipants s' = (splitParticipants s ++ rows)%list
    /\ map sp_name rows = map trim (split "," participants)
    /\ (1 <= List.length rows)%nat.
Proof.
  intros _ Hm Ha Hsp Hsy Hsd Hl.
  destruct (post_split_expense_ok s uid participants payer amount description a Hm
              ltac:(lia) Hsp Hsy Hsd Hl) as (c & _ & _ & _ & Hrun).
  eexists. eexists.
  exists (share_rows (next_id s) (S (next_id s)) (participantNames participants) c).
  split; [exact Hrun|]. cbn [splitExpenses splitParticipants sr_splitExpense].
  split; [reflexivity|]. split; [reflexivity|].
  split; [apply share_rows_names|].
  rewrite share_rows_length. unfold participantNames. rewrite length_map.
  apply split_length_pos.
Qed.

Lemma split_accepts_any_participants_witness :
  exists s' r rows,
    post_split_expense (Some alice)
      (mkSplitBody (Text "  ") (Text "A") (Text "100.00") (Text "dinner")) sample_db
    = (s', inr r)
    /\ splitExpenses s' = (splitExpenses sample_db ++ [sr_splitExpense r])%list
    /\ splitParticipants s' = (splitParticipants sample_db ++ rows)%list
    /\ map sp_name rows = map trim (split "," "  ")
    /\ (1 <= List.length rows)%nat.
Proof.
  apply (split_accepts_any_participants sample_db alice "  " "A" "100.00" "dinner" 10000).
  - discriminate.
  - eexists. split; vm_compute; reflexivity.
  - lia.
  - reflexivity.
  - reflexivity.
  - reflexivity.
  - vm_compute. discriminate.
Defined.

(** A successful POST /api/split-expense had a body of four strings, and
    its response is made of the names and the share computed from them. *)
Lemma post_split_expense_inv (user : option id) (body : SplitBody) (s s' : db)
    (r : SplitResult) :
  post_split_expense user body s = (s', inr r) ->
  exists participants payer amount description e,
    body = mkSplitBody (Text participants) (Text payer) (Text amount) (Text description)
    /\ se_payerName e = payer
    /\ r = mkSplitResult e
             (map (fun name => mkInsertSplitParticipant name
                                 (shareAmount amount (participantNames participants)))
                (participantNames participants))
             (calculations (mkInsertSplitExpense payer amount description)
                (participantNames participants)
                (shareAmount amount (participantNames participants))).
Proof.
  unfold post_split_expense, bind, requireAuth.
  destruct user as [uid|]; [|discriminate].
  unfold ret at 1. unfold parse_insertSplitExpenseSchema.
  destruct body as [p pn am de]. cbn [sb_payerName sb_amount sb_description sb_participants].
  destruct pn as [|payer|]; try discriminate.
  destruct am as [|amount|]; try discriminate.
  destruct de as [|description|]; try discriminate.
  unfold ret at 1. unfold createSplitExpense. cbn [ise_amount ise_payerName ise_description].
  destruct (numeric_in amount) as [c|]; [|discriminate].
  destruct (storable payer && storable description); [|discriminate].
  destruct p as [|participants|]; try discriminate.
  destruct (createSplitParticipants _ _ _) as [s2 [e|rows]]; [discriminate|].
  unfold ret. intros H. injection H as _ <-.
  exists participants, payer, amount, description,
    (mkSplitExpense (next_id s) uid payer c description).
  split; [reflexivity|]. split; reflexivity.
Qed.

(** C7.  In the response of a successful POST /api/split-expense the
    "owed to payer" list holds exactly the shares whose name differs from
    the payer name as a string (case-sensitively), in order and as often
    as they occur, each with the Number of its share text. *)
Theorem owed_to_payer (user : option id) (body : SplitBody) (s s' : db)
    (r : SplitResult) :
  post_split_expense user body s = (s', inr r) ->
  let payer := se_payerName (sr_splitExpense r) in
  owedToPayer (sr_calculations r)
  = map (fun p => (isp_name p, parseFloat (isp_shareAmount p)))
      (filter (fun p => negb (String.eqb (isp_name p) payer)) (sr_participants r))
  /\ (forall name amt,
        In (name, amt) (owedToPayer (sr_calculations r))
        <-> name <> payer
            /\ exists p, In p (sr_participants r) /\ isp_name p = name
                         /\ amt = parseFloat (isp_shareAmount p)).
Proof.
  intros Hrun payer.
  destruct (post_split_expense_inv _ _ _ _ _ Hrun)
    as (participants & pn & amount & description & e & _ & Hp & ->).
  subst payer. cbn [sr_splitExpense sr_calculations sr_participants].
  rewrite Hp. unfold calculations. cbn [owedToPayer ise_payerName].
  set (names := participantNames participants).
  set (share := shareAmount amount names).
  clearbody share. clearbody names.
  assert (Heq : map (fun name => (name, parseFloat share))
                  (filter (fun name => negb (String.eqb name pn)) names)
                = map (fun p => (isp_name p, parseFloat (isp_shareAmount p)))
                    (filter (fun p => negb (String.eqb (isp_name p) pn))
                       (map (fun name => mkInsertSplitParticipant name share) names))).
  { induction names as [|n rest IH]; [reflexivity|].
    cbn [map filter isp_name]. destruct (String.eqb n pn); cbn [negb map];
      [exact IH | rewrite IH; reflexivity]. }
  split; [exact Heq|].
  intros name amt. rewrite Heq. rewrite in_map_iff. split.
  - intros (p & Hpa & Hin). apply filter_In in Hin. destruct Hin as [Hin Hne].
    injection Hpa as <- <-. split.
    + apply negb_true_iff in Hne. apply String.eqb_neq in Hne. exact Hne.
    + exists p. split; [exact Hin|]. split; reflexivity.
  - intros (Hne & p & Hin & <- & ->). exists p. split; [reflexivity|].
    apply filter_In. split; [exact Hin|].
    apply negb_true_iff. apply String.eqb_neq. exact Hne.
Qed.

Lemma owed_to_payer_witness :
  exists s' r,
    post_split_expense (Some alice) (split_body "A,B,C" "A" "100.00") sample_db = (s', inr r)
    /\ map isp_shareAmount (sr_participants r) = ["33.33"; "33.33"; "33.33"]
    /\ map (fun o => (fst o, toString (snd o))) (owedToPayer (sr_calculations r))
       = [("B", "33.33"); ("C", "33.33")]
    /\ owedToPayer (sr_calculations r)
       = map (fun p => (isp_name p, parseFloat (isp_shareAmount p)))
           (filter (fun p => negb (String.eqb (isp_name p)
                                     (se_payerName (sr_splitExpense r))))
              (sr_participants r)).
Proof.
  eexists. eexists. split; [vm_compute; reflexivity|].
  split; [vm_compute; reflexivity|]. split; [vm_compute; reflexivity|].
  refine (proj1 (owed_to_payer (Some alice) (split_body "A,B,C" "A" "100.00")
                   sample_db _ _ _)).
  vm_compute. reflexivity.
Defined.

(** C8, at the failing input.  Alice records a transaction on her account
    and a split; Bob, another authenticated user, deletes the transaction,
    edits the split and deletes it: every call succeeds, nothing signals
    AccessDenied.  POST /api/transactions, by contrast, refuses Bob on
    Alice's account. *)
Lemma foreign_writes_succeed :
  let s1 := fst (post_transactions (Some alice) (credit_body "10.00") sample_db) in
  let s2 := fst (post_split_expense (Some alice) (split_body "A,B" "A" "50.00") s1) in
  map tx_id (transactions s2) = [1%nat]
  /\ map (fun e => (se_id e, se_userId e, se_amount e)) (splitExpenses s2)
     = [(2%nat, alice, Hundredths 5000)]
  /\ snd (post_transactions (Some bob) (credit_body "10.00") s2) = inl AccessDenied
  /\ snd (delete_transactions (Some bob) 1%nat s2) = inr tt
  /\ transactions (fst (delete_transactions (Some bob) 1%nat s2)) = []
  /\ snd (put_split_history (Some bob) 2%nat
            (mkSplitPatchBody Absent (Text "1.00") Absent) s2) = inr tt
  /\ map se_amount
       (splitExpenses (fst (put_split_history (Some bob) 2%nat
                              (mkSplitPatchBody Absent (Text "1.00") Absent) s2)))
     = [Hundredths 100]
  /\ snd (delete_split_history (Some bob) 2%nat s2) = inr tt
  /\ splitExpenses (fst (delete_split_history (Some bob) 2%nat s2)) = []
  /\ splitParticipants (fst (delete_split_history (Some bob) 2%nat s2)) = [].
Proof. vm_compute. repeat split; reflexivity. Qed.

(** The row update of [updateSplitExpense], with the amount already
    converted by its column. *)
Lemma put_split_history_cases (user : option id) (i : id) (body : SplitPatchBody)
    (s : db) :
  let r := put_split_history user i body s in
  (fst r = s /\ exists e, snd r = inl e)
  \/ (snd r = inr tt
      /\ exists (p : option string) (c : option numeric) (d : option string),
          optional (spb_payerName body) = Some p
          /\ optional (spb_description body) = Some d
          /\ match c with
             | Some c => exists t, spb_amount body = Text t /\ numeric_in t = Some c
             | None => spb_amount body = Absent
             end
          /\ fst r
             = mkDb (bankAccounts s) (transactions s)
                 (map (fun e =>
                         if Nat.eqb (se_id e) i
                         then mkSplitExpense (se_id e) (se_userId e)
                                (patch p (se_payerName e)) (patch c (se_amount e))
                                (patch d (se_description e))
                         else e) (splitExpenses s))
                 (splitParticipants s) (next_id s)).
Proof.
  assert (Hfail : forall (e : error) (s0 : db),
             (fst (s0, @inl error unit e) = s0 /\ exists e', snd (s0, @inl error unit e) = inl e')).
  { intros e s0. split; [reflexivity | eexists; reflexivity]. }
  unfold put_split_history, bind, requireAuth.
  destruct user as [uid|]; [|left; apply Hfail].
  unfold ret at 1. unfold parse_partialSplitExpenseSchema.
  destruct (optional (spb_payerName body)) as [p|] eqn:Hp; [|left; apply Hfail].
  destruct (optional (spb_amount body)) as [m|] eqn:Hm; [|left; apply Hfail].
  destruct (optional (spb_description body)) as [d|] eqn:Hd; [|left; apply Hfail].
  unfold ret. unfold updateSplitExpense. cbn [pse_payerName pse_amount pse_description].
  assert (Hamount : match m with
                    | Some t => spb_amount body = Text t
                    | None => spb_amount body = Absent
                    end).
  { destruct (spb_amount body); cbn in Hm; inversion Hm; reflexivity. }
  destruct m as [t|]; cbn [option_map].
  - destruct (numeric_in t) as [c|] eqn:Ht.
    + destruct (storable_opt p && storable_opt d);
        [|destruct p, d; left; apply Hfail].
      right. split; [destruct p, d; reflexivity|].
      exists p, (Some c), d. split; [reflexivity|]. split; [reflexivity|].
      split; [exists t; split; [exact Hamount | exact Ht]|].
      destruct p, d; reflexivity.
    + destruct p, d; left; apply Hfail.
  - destruct p as [p|], d as [d|]; try (left; apply Hfail);
      (destruct (storable_opt _ && storable_opt _); [|left; apply Hfail]);
      (right; split; [reflexivity|]; eexists; exists None; eexists;
       split; [reflexivity|]; split; [reflexivity|]; split; [exact Hamount | reflexivity]).
Qed.

Lemma optional_Some (f : field) (v : string) :
  optional f = Some (Some v) -> f = Text v.
Proof. destruct f; cbn; congruence. Qed.

Lemma optional_None (f : field) (o : option string) :
  optional f = Some o -> o = None \/ exists v, o = Some v /\ f = Text v.
Proof.
  destruct f; cbn; intros H; try discriminate; injection H as <-;
    [left; reflexivity | right; eexists; split; reflexivity].
Qed.

(** C9.  PUT /api/split-history/:id leaves every participant share as it
    is, also when the amount is among the fields sent; of the expenses it
    touches only the one with that id, and of that one only the fields
    the body supplies; a call that fails changes nothing, and after one
    that succeeds every supplied field holds the value sent (the amount:
    what its column reads the text as). *)
Theorem update_split_frame (user : option id) (i : id) (body : SplitPatchBody)
    (s : db) :
  let r := put_split_history user i body s in
  splitParticipants (fst r) = splitParticipants s
  /\ bankAccounts (fst r) = bankAccounts s
  /\ transactions (fst r) = transactions s
  /\ Forall2
       (fun e e' =>
          se_id e' = se_id e /\ se_userId e' = se_userId e
          /\ (se_id e <> i -> e' = e)
          /\ (se_payerName e' = se_payerName e
              \/ spb_payerName body = Text (se_payerName e'))
          /\ (se_amount e' = se_amount e \/ exists t, spb_amount body = Text t)
          /\ (se_description e' = se_description e
              \/ spb_description body = Text (se_description e')))
       (splitExpenses s) (splitExpenses (fst r))
  /\ (forall e, snd r = inl e -> fst r = s)
  /\ (snd r = inr tt ->
      forall e', In e' (splitExpenses (fst r)) -> se_id e' = i ->
        (forall p, spb_payerName body = Text p -> se_payerName e' = p)
        /\ (forall t v, spb_amount body = Text t -> numeric_in t = Some v ->
                        se_amount e' = v)
        /\ (forall d, spb_description body = Text d -> se_description e' = d)).
Proof.
  intros r.
  destruct (put_split_history_cases user i body s)
    as [[Hs (e & He)] | (Hok & p & c & d & Hp & Hd & Hc & Hs)]; fold r in Hs.
  - fold r in He. rewrite Hs.
    split; [reflexivity|]. split; [reflexivity|]. split; [reflexivity|].
    split; [|split].
    + clear Hs. induction (splitExpenses s);
        [constructor | constructor; [|assumption]]. repeat split; auto.
    + intros _ _. reflexivity.
    + intros H. rewrite He in H. discriminate.
  - fold r in Hok. rewrite Hs.
    cbn [splitParticipants bankAccounts transactions splitExpenses].
    split; [reflexivity|]. split; [reflexivity|]. split; [reflexivity|].
    split; [|split].
    + clear Hs. induction (splitExpenses s) as [|e l IHl]; cbn [map];
        [constructor | constructor; [|exact IHl]].
      destruct (Nat.eqb (se_id e) i) eqn:Ei.
      * cbn [se_id se_userId se_payerName se_amount se_description].
        apply Nat.eqb_eq in Ei.
        split; [reflexivity|]. split; [reflexivity|]. split; [congruence|].
        split; [|split].
        -- destruct (optional_None _ _ Hp) as [-> | (v & -> & Hv)];
             [left; reflexivity | right; exact Hv].
        -- destruct c as [c|]; [|left; reflexivity].
           right. destruct Hc as (t & Ht & _). exists t. exact Ht.
        -- destruct (optional_None _ _ Hd) as [-> | (v & -> & Hv)];
             [left; reflexivity | right; exact Hv].
      * repeat split; auto.
    + intros e He. rewrite Hok in He. discriminate.
    + intros _ e' Hin Hid. apply in_map_iff in Hin. destruct Hin as (e & <- & _).
      destruct (Nat.eqb (se_id e) i) eqn:Ei.
      * cbn [se_payerName se_amount se_description]. split; [|split].
        -- intros v Hv. rewrite Hv in Hp. cbn in Hp. injection Hp as <-. reflexivity.
        -- intros t v Ht Hv. destruct c as [c|].
           ++ destruct Hc as (t' & Ht' & Hn). rewrite Ht in Ht'.
              injection Ht' as <-. cbn [patch]. congruence.
           ++ rewrite Ht in Hc. discriminate.
        -- intros v Hv. rewrite Hv in Hd. cbn in Hd. injection Hd as <-. reflexivity.
      * apply Nat.eqb_neq in Ei. contradiction.
Qed.




Lemma update_split_frame_witness :
  let s1 := fst (post_split_expense (Some alice) (split_body "A,B" "A" "50.00") sample_db) in
  let r := put_split_history (Some alice) 1%nat
             (mkSplitPatchBody Absent (Text "80.00") Absent) s1 in
  snd r = inr tt
  /\ map (fun p => (sp_name p, sp_shareAmount p)) (splitParticipants (fst r))
     = [("A", Hundredths 2500); ("B", Hundredths 2500)]
  /\ map (fun e => (se_payerName e, se_amount e, se_description e)) (splitExpenses (fst r))
     = [("A", Hundredths 8000, "dinner")]
  /\ splitParticipants (fst r) = splitParticipants s1.
Proof.
  split; [vm_compute; reflexivity|]. split; [vm_compute; reflexivity|].
  split; [vm_compute; reflexivity|].
  exact (proj1 (update_split_frame (Some alice) 1%nat
                  (mkSplitPatchBody Absent (Text "80.00") Absent)
                  (fst (post_split_expense (Some alice) (split_body "A,B" "A" "50.00")
                          sample_db)))).
Defined.

(* ================================================================== *)
(** ** Invariants kept by every route *)

Lemma preserves_ret (P : db -> Prop) {A} (a : A) : preserves P (ret a).
Proof. intros s H. exact H. Qed.

Lemma preserves_throw (P : db -> Prop) {A} (e : error) : preserves P (@throw A e).
Proof. intros s H. exact H. Qed.

Lemma preserves_bind (P : db -> Prop) {A B} (m : M A) (k : A -> M B) :
  preserves P m -> (forall a, preserves P (k a)) -> preserves P (bind m k).
Proof.
  intros Hm Hk s H. unfold bind. specialize (Hm s H).
  destruct (m s) as [s' [e|a]]; cbn [fst] in *; [exact Hm | apply Hk; exact Hm].
Qed.

Lemma preserves_read (P : db -> Prop) {A} (f : db -> A) :
  preserves P (fun s => (s, inr (f s))).
Proof. intros s H. exact H. Qed.

Lemma Forall_app_one {A} (P : A -> Prop) (l : list A) (x : A) :
  Forall P l -> P x -> Forall P (l ++ [x]).
Proof. intros Hl Hx. apply Forall_app. split; [exact Hl | constructor; [exact Hx | constructor]]. Qed.

Lemma Forall_filter {A} (P : A -> Prop) (f : A -> bool) (l : list A) :
  Forall P l -> Forall P (filter f l).
Proof.
  intros H. rewrite Forall_forall in *. intros x Hx. apply filter_In in Hx. apply H, Hx.
Qed.

(** A property kept by every writing storage method is kept by every
    route, and so by every session. *)
Section Routes.
Variable P : db -> Prop.
Hypothesis P_createBankAccount : forall u a, preserves P (createBankAccount u a).
Hypothesis P_createTransaction : forall t, preserves P (createTransaction t).
Hypothesis P_deleteTransaction : forall i, preserves P (deleteTransaction i).
Hypothesis P_createSplitExpense : forall u e, preserves P (createSplitExpense u e).
Hypothesis P_createSplitParticipants :
  forall e l, preserves P (createSplitParticipants e l).
Hypothesis P_updateSplitExpense : forall i e, preserves P (updateSplitExpense i e).
Hypothesis P_deleteSplitExpense : forall i, preserves P (deleteSplitExpense i).

Lemma preserves_requireAuth user : preserves P (requireAuth user).
Proof. destruct user; [apply preserves_ret | apply preserves_throw]. Qed.

Lemma handle_preserves (user : option id) (req : request) (s : db) :
  P s -> P (fst (handle user req s)).
Proof.
  assert (Hauth := preserves_requireAuth user).
  destruct req; unfold handle, outcome; cbn [fst]; revert s;
    match goal with |- forall s, P s -> P (fst (?m s)) => change (preserves P m) end.
  - unfold post_accounts. apply preserves_bind; [exact Hauth|]. intros uid.
    apply preserves_bind; [|intros a; apply P_createBankAccount].
    unfold parse_insertBankAccountSchema.
    destruct (ab_name body), (optional (ab_type body)), (optional (ab_balance body));
      first [apply preserves_ret | apply preserves_throw].
  - unfold get_accounts. apply preserves_bind; [exact Hauth|]. intros uid.
    apply preserves_read.
  - unfold post_transactions. apply preserves_bind; [exact Hauth|]. intros uid.
    apply preserves_bind.
    + unfold parse_insertTransactionSchema.
      destruct (tb_accountId body), (tb_amount body), (tb_type body),
        (tb_description body); first [apply preserves_ret | apply preserves_throw].
    + intros v. apply preserves_bind; [apply preserves_read|].
      intros [a|]; [|apply preserves_throw].
      destruct (Nat.eqb (ba_userId a) uid);
        [apply P_createTransaction | apply preserves_throw].
  - unfold get_transactions. apply preserves_bind; [exact Hauth|]. intros uid.
    apply preserves_read.
  - unfold get_account_transactions. apply preserves_bind; [exact Hauth|]. intros uid.
    apply preserves_bind; [apply preserves_read|].
    intros [a|]; [|apply preserves_throw].
    destruct (Nat.eqb (ba_userId a) uid); [apply preserves_read | apply preserves_throw].
  - unfold delete_transactions. apply preserves_bind; [exact Hauth|]. intros _.
    apply P_deleteTransaction.
  - unfold post_split_expense. apply preserves_bind; [exact Hauth|]. intros uid.
    apply preserves_bind.
    + unfold parse_insertSplitExpenseSchema.
      destruct (sb_payerName body), (sb_amount body), (sb_description body);
        first [apply preserves_ret | apply preserves_throw].
    + intros v. apply preserves_bind; [apply P_createSplitExpense|].
      intros e. destruct (sb_participants body); try apply preserves_throw.
      apply preserves_bind; [apply P_createSplitParticipants|].
      intros _. apply preserves_ret.
  - unfold get_split_history. apply preserves_bind; [exact Hauth|]. intros uid.
    apply preserves_read.
  - unfold put_split_history. apply preserves_bind; [exact Hauth|]. intros _.
    apply preserves_bind; [|intros v; apply P_updateSplitExpense].
    unfold parse_partialSplitExpenseSchema.
    destruct (optional (spb_payerName body)), (optional (spb_amount body)),
      (optional (spb_description body));
      first [apply preserves_ret | apply preserves_throw].
  - unfold delete_split_history. apply preserves_bind; [exact Hauth|]. intros _.
    apply P_deleteSplitExpense.
Qed.

Lemma serve_preserves (calls : list (option id * request)) :
  forall s, P s -> P (serve calls s).
Proof.
  induction calls as [|[user req] rest IH]; intros s H; cbn [serve]; [exact H|].
  apply IH. apply handle_preserves. exact H.
Qed.
End Routes.

Lemma map_id_set_balance i c l : map ba_id (map (set_balance i c) l) = map ba_id l.
Proof.
  rewrite map_map. apply map_ext. intros a. unfold set_balance.
  destruct (Nat.eqb (ba_id a) i); reflexivity.
Qed.

Lemma find_id_In (i : id) (l : list BankAccount) (a : BankAccount) :
  find (fun x => Nat.eqb (ba_id x) i) l = Some a -> In i (map ba_id l).
Proof.
  intros H. apply find_some in H. destruct H as [Hin He]. apply Nat.eqb_eq in He.
  subst i. apply in_map. exact Hin.
Qed.

Lemma find_se_In (i : id) (l : list SplitExpense) (e : SplitExpense) :
  find (fun x => Nat.eqb (se_id x) i) l = Some e -> In i (map se_id l).
Proof.
  intros H. apply find_some in H. destruct H as [Hin He]. apply Nat.eqb_eq in He.
  subst i. apply in_map. exact Hin.
Qed.

Lemma refs_createBankAccount u a : preserves references_ok (createBankAccount u a).
Proof.
  intros s (H1 & H2). unfold createBankAccount. cbv zeta.
  destruct (numeric_in _) as [c|]; [|split; assumption].
  destruct (storable _ && storable _); cbn [fst]; [|split; assumption].
  split; cbn [bankAccounts transactions splitExpenses splitParticipants]; [|exact H2].
  revert H1. apply Forall_impl. intros t Ht. rewrite map_app. apply in_or_app. left. exact Ht.
Qed.

Lemma refs_updateBankAccountBalance i t :
  preserves references_ok (updateBankAccountBalance i t).
Proof.
  intros s (H1 & H2). unfold updateBankAccountBalance.
  destruct (numeric_in _) as [c|]; cbn [fst]; [|split; assumption].
  split; cbn [bankAccounts transactions splitExpenses splitParticipants]; [|exact H2].
  rewrite map_id_set_balance. exact H1.
Qed.

Lemma refs_insertTransaction t : preserves references_ok (insertTransaction t).
Proof.
  intros s (H1 & H2). unfold insertTransaction.
  destruct (numeric_in _) as [c|]; [|split; assumption].
  destruct (find _ _) as [a|] eqn:Ef; [|split; assumption].
  destruct (storable _ && storable _); cbn [fst]; [|split; assumption].
  split; cbn [bankAccounts transactions splitExpenses splitParticipants]; [|exact H2].
  apply Forall_app_one; [exact H1|]. cbn [tx_accountId]. exact (find_id_In _ _ _ Ef).
Qed.

Lemma refs_createTransaction t : preserves references_ok (createTransaction t).
Proof.
  unfold createTransaction. apply preserves_bind; [apply refs_insertTransaction|].
  intros tx. apply preserves_bind; [apply preserves_read|].
  intros [acc|]; [|apply preserves_ret].
  apply preserves_bind; [apply refs_updateBankAccountBalance|].
  intros _. apply preserves_ret.
Qed.

Lemma refs_deleteTransaction i : preserves references_ok (deleteTransaction i).
Proof.
  intros s (H1 & H2). split; cbn; [|exact H2]. apply Forall_filter. exact H1.
Qed.

Lemma refs_createSplitExpense u e : preserves references_ok (createSplitExpense u e).
Proof.
  intros s (H1 & H2). unfold createSplitExpense.
  destruct (numeric_in _) as [c|]; [|split; assumption].
  destruct (storable _ && storable _); cbn [fst]; [|split; assumption].
  split; cbn [bankAccounts transactions splitExpenses splitParticipants]; [exact H1|].
  revert H2. apply Forall_impl. intros p Hp. rewrite map_app. apply in_or_app. left. exact Hp.
Qed.

Lemma participant_rows_expense (e : id) (l : list InsertSplitParticipant) :
  forall first rows, participant_rows e first l = Some rows ->
  Forall (fun p => sp_expenseId p = e) rows.
Proof.
  induction l as [|p l IH]; intros first rows; cbn [participant_rows].
  - intros H. injection H as <-. constructor.
  - destruct (numeric_in (isp_shareAmount p)) as [c|]; [|discriminate].
    destruct (participant_rows e (S first) l) as [r|] eqn:Er; [|discriminate].
    destruct (storable (isp_name p)); [|discriminate].
    intros H. injection H as <-. constructor; [reflexivity | exact (IH _ _ Er)].
Qed.

Lemma refs_createSplitParticipants e l :
  preserves references_ok (createSplitParticipants e l).
Proof.
  intros s (H1 & H2). unfold createSplitParticipants.
  destruct l as [|p l]; [split; assumption|].
  destruct (find _ _) as [x|] eqn:Ef; [|split; assumption].
  destruct (participant_rows _ _ _) as [rows|] eqn:E; cbn [fst]; [|split; assumption].
  destruct (_ <=? _); cbn [fst]; [|split; assumption].
  split; cbn [bankAccounts transactions splitExpenses splitParticipants]; [exact H1|].
  apply Forall_app. split; [exact H2|].
  pose proof (participant_rows_expense _ _ _ _ E) as Hr. revert Hr.
  apply Forall_impl. intros q ->. exact (find_se_In _ _ _ Ef).
Qed.

Lemma refs_updateSplitExpense i e : preserves references_ok (updateSplitExpense i e).
Proof.
  intros s (H1 & H2). unfold updateSplitExpense.
  assert (Hmap : forall f : SplitExpense -> SplitExpense,
            (forall x, se_id (f x) = se_id x) ->
            map se_id (map f (splitExpenses s)) = map se_id (splitExpenses s)).
  { intros f Hf. rewrite map_map. apply map_ext. exact Hf. }
  destruct (pse_payerName e), (pse_amount e) as [t|], (pse_description e);
    cbn [option_map]; try (split; assumption);
    try (destruct (numeric_in t) as [c|]; [|split; assumption]);
    (destruct (storable_opt _ && storable_opt _); [|split; assumption]);
    cbn [fst]; (split; [exact H1|]);
    cbn [bankAccounts transactions splitExpenses splitParticipants];
    (rewrite Hmap; [exact H2|]); intros x; destruct (Nat.eqb (se_id x) i); reflexivity.
Qed.

Lemma refs_deleteSplitExpense i : preserves references_ok (deleteSplitExpense i).
Proof.
  intros s (H1 & H2). split; cbn; [exact H1|].
  rewrite Forall_forall in *. intros p Hp. apply filter_In in Hp.
  destruct Hp as [Hp Hne]. specialize (H2 p Hp).
  apply in_map_iff in H2. destruct H2 as (x & Hx & Hin).
  apply in_map_iff. exists x. split; [exact Hx|]. apply filter_In. split; [exact Hin|].
  rewrite Hx. exact Hne.
Qed.

(** X2.  Whatever requests are served, every transaction keeps referring to
    an existing account and every share to an existing expense: no route
    leaves an orphan row behind. *)
Theorem references_stay_valid (calls : list (option id * request)) (s : db) :
  references_ok s -> references_ok (serve calls s).
Proof.
  apply serve_preserves.
  - apply refs_createBankAccount.
  - apply refs_createTransaction.
  - apply refs_deleteTransaction.
  - apply refs_createSplitExpense.
  - apply refs_createSplitParticipants.
  - apply refs_updateSplitExpense.
  - apply refs_deleteSplitExpense.
Qed.

(* ---------------- keys_fresh ---------------- *)

Section Keys.
Context {A : Type} (key : A -> id).

Lemma keys_not_in (n : id) (l : list A) :
  Forall (fun a => (key a < n)%nat) l -> ~ In n (map key l).
Proof.
  intros H Hin. apply in_map_iff in Hin. destruct Hin as (a & Ha & Hin).
  rewrite Forall_forall in H. specialize (H a Hin). lia.
Qed.

Lemma keys_below_le (n m : id) (l : list A) :
  (n <= m)%nat -> Forall (fun a => (key a < n)%nat) l ->
  Forall (fun a => (key a < m)%nat) l.
Proof. intros Hle. apply Forall_impl. intros a Ha. lia. Qed.

Lemma NoDup_keys_add (l : list A) (x : A) :
  NoDup (map key l) -> ~ In (key x) (map key l) -> NoDup (map key (l ++ [x])).
Proof.
  intros Hn Hx. rewrite map_app. cbn [map].
  apply NoDup_app; [exact Hn | constructor; [intros [] | constructor] |].
  intros k Hk [<- | []]. exact (Hx Hk).
Qed.

Lemma NoDup_keys_filter (f : A -> bool) (l : list A) :
  NoDup (map key l) -> NoDup (map key (filter f l)).
Proof.
  induction l as [|a l IH]; cbn [map filter]; intros H; [constructor|].
  inversion H as [|k ks Hk Hks]; subst.
  destruct (f a); cbn [map]; [|exact (IH Hks)].
  constructor; [|exact (IH Hks)].
  intros Hin. apply Hk. apply in_map_iff in Hin. destruct Hin as (b & Hb & Hin).
  apply filter_In in Hin. apply in_map_iff. exists b. split; [exact Hb | apply Hin].
Qed.

Lemma keys_map_same (g : A -> A) (l : list A) :
  (forall a, key (g a) = key a) -> map key (map g l) = map key l.
Proof. intros Hg. rewrite map_map. apply map_ext. exact Hg. Qed.

Lemma keys_below_map (g : A -> A) (n : id) (l : list A) :
  (forall a, key (g a) = key a) ->
  Forall (fun a => (key a < n)%nat) l -> Forall (fun a => (key a < n)%nat) (map g l).
Proof.
  intros Hg H. apply Forall_map. revert H. apply Forall_impl. intros a Ha.
  rewrite Hg. exact Ha.
Qed.
End Keys.

Lemma set_balance_id i c a : ba_id (set_balance i c a) = ba_id a.
Proof. unfold set_balance. destruct (Nat.eqb (ba_id a) i); reflexivity. Qed.

Ltac keys_split :=
  match goal with
  | H : keys_fresh _ |- _ =>
      destruct H as (N1 & N2 & N3 & N4 & F1 & F2 & F3 & F4)
  end.

Ltac keys_same := repeat split; assumption.

Lemma keys_createBankAccount u a : preserves keys_fresh (createBankAccount u a).
Proof.
  intros s H. keys_split. unfold createBankAccount. cbv zeta.
  destruct (numeric_in _) as [c|]; [|keys_same].
  destruct (storable _ && storable _); cbn [fst]; [|keys_same].
  repeat split; cbn [bankAccounts transactions splitExpenses splitParticipants next_id];
    try assumption;
    try (eapply keys_below_le; [|eassumption]; lia).
  - apply NoDup_keys_add; [exact N1|]. cbn [ba_id]. apply keys_not_in. exact F1.
  - apply Forall_app_one; [eapply keys_below_le; [|exact F1]; lia | cbn [ba_id]; lia].
Qed.

Lemma keys_updateBankAccountBalance i t :
  preserves keys_fresh (updateBankAccountBalance i t).
Proof.
  intros s H. keys_split. unfold updateBankAccountBalance.
  destruct (numeric_in _) as [c|]; cbn [fst]; [|keys_same].
  repeat split; cbn [bankAccounts transactions splitExpenses splitParticipants next_id];
    try assumption.
  - rewrite (keys_map_same ba_id); [exact N1 | apply set_balance_id].
  - apply (keys_below_map ba_id); [apply set_balance_id | exact F1].
Qed.

Lemma keys_insertTransaction t : preserves keys_fresh (insertTransaction t).
Proof.
  intros s H. keys_split. unfold insertTransaction.
  destruct (numeric_in _) as [c|]; [|keys_same].
  destruct (find _ _); [|keys_same].
  destruct (storable _ && storable _); cbn [fst]; [|keys_same].
  repeat split; cbn [bankAccounts transactions splitExpenses splitParticipants next_id];
    try assumption;
    try (eapply keys_below_le; [|eassumption]; lia).
  - apply NoDup_keys_add; [exact N2|]. cbn [tx_id]. apply keys_not_in. exact F2.
  - apply Forall_app_one; [eapply keys_below_le; [|exact F2]; lia | cbn [tx_id]; lia].
Qed.

Lemma keys_createTransaction t : preserves keys_fresh (createTransaction t).
Proof.
  unfold createTransaction. apply preserves_bind; [apply keys_insertTransaction|].
  intros tx. apply preserves_bind; [apply preserves_read|].
  intros [acc|]; [|apply preserves_ret].
  apply preserves_bind; [apply keys_updateBankAccountBalance|].
  intros _. apply preserves_ret.
Qed.

Lemma keys_deleteTransaction i : preserves keys_fresh (deleteTransaction i).
Proof.
  intros s H. keys_split. repeat split; cbn; try assumption.
  - apply NoDup_keys_filter. exact N2.
  - apply Forall_filter. exact F2.
Qed.

Lemma keys_createSplitExpense u e : preserves keys_fresh (createSplitExpense u e).
Proof.
  intros s H. keys_split. unfold createSplitExpense.
  destruct (numeric_in _) as [c|]; [|keys_same].
  destruct (storable _ && storable _); cbn [fst]; [|keys_same].
  repeat split; cbn [bankAccounts transactions splitExpenses splitParticipants next_id];
    try assumption;
    try (eapply keys_below_le; [|eassumption]; lia).
  - apply NoDup_keys_add; [exact N3|]. cbn [se_id]. apply keys_not_in. exact F3.
  - apply Forall_app_one; [eapply keys_below_le; [|exact F3]; lia | cbn [se_id]; lia].
Qed.

Lemma participant_rows_keys (e : id) (l : list InsertSplitParticipant) :
  forall first rows, participant_rows e first l = Some rows ->
  map sp_id rows = seq first (List.length rows).
Proof.
  induction l as [|p l IH]; intros first rows; cbn [participant_rows].
  - intros H. injection H as <-. reflexivity.
  - destruct (numeric_in (isp_shareAmount p)) as [c|]; [|discriminate].
    destruct (participant_rows e (S first) l) as [r|] eqn:Er; [|discriminate].
    destruct (storable (isp_name p)); [|discriminate].
    intros H. injection H as <-. cbn [map sp_id List.length seq].
    rewrite (IH _ _ Er). reflexivity.
Qed.

Lemma keys_createSplitParticipants e l :
  preserves keys_fresh (createSplitParticipants e l).
Proof.
  intros s H. keys_split. unfold createSplitParticipants.
  destruct l as [|p l]; [keys_same|].
  destruct (find _ _); [|keys_same].
  destruct (participant_rows _ _ _) as [rows|] eqn:E; cbn [fst]; [|keys_same].
  destruct (_ <=? _); cbn [fst]; [|keys_same].
  pose proof (participant_rows_keys _ _ _ _ E) as Hk.
  repeat split; cbn [bankAccounts transactions splitExpenses splitParticipants next_id];
    try assumption;
    try (eapply keys_below_le; [|eassumption]; lia).
  - rewrite map_app, Hk. apply NoDup_app; [exact N4 | apply seq_NoDup |].
    intros k Hin Hseq. apply in_seq in Hseq.
    apply in_map_iff in Hin. destruct Hin as (q & <- & Hq).
    rewrite Forall_forall in F4. specialize (F4 q Hq). lia.
  - apply Forall_app. split; [eapply keys_below_le; [|exact F4]; lia|].
    rewrite Forall_forall. intros q Hq.
    assert (Hin : In (sp_id q) (map sp_id rows)) by (apply in_map; exact Hq).
    rewrite Hk in Hin. apply in_seq in Hin. lia.
Qed.

Lemma keys_updateSplitExpense i e : preserves keys_fresh (updateSplitExpense i e).
Proof.
  intros s H. keys_split. unfold updateSplitExpense.
  destruct (pse_payerName e), (pse_amount e) as [t|], (pse_description e);
    cbn [option_map]; try keys_same;
    try (destruct (numeric_in t) as [c|]; [|keys_same]);
    (destruct (storable_opt _ && storable_opt _); [|keys_same]);
    cbn [fst]; repeat split;
    cbn [bankAccounts transactions splitExpenses splitParticipants next_id];
    try assumption;
    first [ rewrite (keys_map_same se_id); [exact N3|]
          | apply (keys_below_map se_id); [|exact F3] ];
    intros x; destruct (Nat.eqb (se_id x) i); reflexivity.
Qed.

Lemma keys_deleteSplitExpense i : preserves keys_fresh (deleteSplitExpense i).
Proof.
  intros s H. keys_split. repeat split; cbn; try assumption;
    first [apply NoDup_keys_filter; assumption | apply Forall_filter; assumption].
Qed.

(** Keys stand for the identifiers the database generates; drawn from a
    counter, they stay pairwise distinct and below it whatever requests
    are served, so that the states the routes reach have fresh keys. *)
Lemma keys_stay_fresh (calls : list (option id * request)) (s : db) :
  keys_fresh s -> keys_fresh (serve calls s).
Proof.
  apply serve_preserves.
  - apply keys_createBankAccount.
  - apply keys_createTransaction.
  - apply keys_deleteTransaction.
  - apply keys_createSplitExpense.
  - apply keys_createSplitParticipants.
  - apply keys_updateSplitExpense.
  - apply keys_deleteSplitExpense.
Qed.

Lemma sample_db_references_ok : references_ok sample_db.
Proof. split; constructor. Qed.

Lemma sample_db_keys_fresh : keys_fresh sample_db.
Proof.
  repeat split; try (constructor; fail).
  - constructor; [intros [] | constructor].
  - constructor; [cbn; lia | constructor].
Qed.

Lemma references_stay_valid_witness : references_ok (serve sample_session sample_db).
Proof.
  apply (references_stay_valid sample_session sample_db).
  split; constructor.
Defined.

(* ================================================================== *)
(** ** Guards and edge cases of the routes *)

(** X4.  Without a logged-in user every route answers 401 and leaves the
    database as it is. *)
Theorem unauthenticated_requests_rejected (req : request) (s : db) :
  handle None req s = (s, Some Unauthorized).
Proof. destruct req; reflexivity. Qed.

Lemma db_eta (s : db) :
  mkDb (bankAccounts s) (transactions s) (splitExpenses s) (splitParticipants s)
    (next_id s) = s.
Proof. destruct s; reflexivity. Qed.


(** X6.  Whatever POST /api/transactions is sent, it changes the database only
    when the account named in the body belongs to the caller. *)
Theorem post_transactions_writes_own_account (user : option id)
    (body : TransactionBody) (s : db) :
  fst (post_transactions user body s) <> s ->
  exists uid i acc,
    user = Some uid /\ tb_accountId body = Some i
    /\ find (fun a => Nat.eqb (ba_id a) i) (bankAccounts s) = Some acc
    /\ ba_userId acc = uid.
Proof.
  unfold post_transactions, bind, requireAuth.
  destruct user as [uid|]; [|intros H; exfalso; apply H; reflexivity].
  unfold ret at 1. unfold parse_insertTransactionSchema.
  destruct (tb_accountId body) as [i|]; [|intros H; exfalso; apply H; reflexivity].
  destruct (tb_amount body) as [|m|]; try (intros H; exfalso; apply H; reflexivity).
  destruct (tb_type body) as [|t|]; try (intros H; exfalso; apply H; reflexivity).
  destruct (tb_description body) as [|d|]; try (intros H; exfalso; apply H; reflexivity).
  unfold ret at 1. unfold getBankAccount. cbn [it_accountId].
  destruct (find _ (bankAccounts s)) as [acc|] eqn:Ef;
    [|intros H; exfalso; apply H; reflexivity].
  destruct (Nat.eqb (ba_userId acc) uid) eqn:Eu;
    [|intros H; exfalso; apply H; reflexivity].
  intros _. apply Nat.eqb_eq in Eu. exists uid, i, acc. repeat split; assumption.
Qed.

Lemma filter_all {A} (f : A -> bool) (l : list A) :
  (forall x, In x l -> f x = true) -> filter f l = l.
Proof.
  induction l as [|a l IH]; intros H; cbn [filter]; [reflexivity|].
  rewrite (H a (or_introl eq_refl)). rewrite IH; [reflexivity|].
  intros x Hx. apply H. right. exact Hx.
Qed.

Lemma map_all {A} (f : A -> A) (l : list A) :
  (forall x, In x l -> f x = x) -> map f l = l.
Proof.
  induction l as [|a l IH]; intros H; cbn [map]; [reflexivity|].
  rewrite (H a (or_introl eq_refl)). rewrite IH; [reflexivity|].
  intros x Hx. apply H. right. exact Hx.
Qed.

(** What PUT /api/split-history/:id answers depends on the body alone. *)
Lemma put_split_history_answer (user : option id) (i j : id) (body : SplitPatchBody)
    (s s0 : db) :
  snd (put_split_history user i body s) = snd (put_split_history user j body s0).
Proof.
  destruct user as [uid|]; [|reflexivity].
  cbv [put_split_history bind requireAuth parse_partialSplitExpenseSchema ret throw].
  destruct (optional (spb_payerName body)) as [p|]; [|reflexivity].
  destruct (optional (spb_amount body)) as [m|]; [|reflexivity].
  destruct (optional (spb_description body)) as [d|]; [|reflexivity].
  unfold updateSplitExpense. cbn [pse_payerName pse_amount pse_description].
  destruct p, m as [t|], d; cbn [option_map]; try reflexivity;
    try (destruct (numeric_in t); [|reflexivity]);
    destruct (storable_opt _ && storable_opt _); reflexivity.
Qed.

(** X7.  An id that names no row is not reported: deleting a transaction
    or a split that does not exist answers success, editing such a split
    answers what the same body is answered for any split (success, when
    the body is valid), and none of them changes anything. *)
Theorem missing_ids_not_reported (uid : id) (i : id) (s : db) :
  (~ In i (map tx_id (transactions s)) ->
   delete_transactions (Some uid) i s = (s, inr tt))
  /\ (~ In i (map se_id (splitExpenses s)) ->
      references_ok s ->
      delete_split_history (Some uid) i s = (s, inr tt))
  /\ (~ In i (map se_id (splitExpenses s)) ->
      forall body : SplitPatchBody,
        fst (put_split_history (Some uid) i body s) = s
        /\ forall (j : id) (s0 : db),
             snd (put_split_history (Some uid) i body s)
             = snd (put_split_history (Some uid) j body s0)).
Proof.
  split; [|split].
  - intros Hno. unfold delete_transactions, bind, requireAuth, ret, deleteTransaction.
    rewrite filter_all; [rewrite db_eta; reflexivity|].
    intros t Ht. apply negb_true_iff. apply Nat.eqb_neq. intros <-.
    apply Hno. apply in_map. exact Ht.
  - intros Hno [_ Href].
    unfold delete_split_history, bind, requireAuth, ret, deleteSplitExpense.
    rewrite !filter_all; [rewrite db_eta; reflexivity | |].
    + intros p Hp. apply negb_true_iff. apply Nat.eqb_neq. intros <-.
      rewrite Forall_forall in Href. exact (Hno (Href p Hp)).
    + intros e He. apply negb_true_iff. apply Nat.eqb_neq. intros <-.
      apply Hno. apply in_map. exact He.
  - intros Hno body. split; [|intros j s0; apply put_split_history_answer].
    destruct (put_split_history_cases (Some uid) i body s)
      as [[Hs _] | (_ & p & c & d & _ & _ & _ & Hs)]; [exact Hs|].
    rewrite Hs. rewrite map_all; [apply db_eta|].
    intros e He. destruct (Nat.eqb (se_id e) i) eqn:Ei; [|reflexivity].
    apply Nat.eqb_eq in Ei. exfalso. apply Hno. rewrite <- Ei. apply in_map. exact He.
Qed.

(** X8.  DELETE /api/split-history/:id removes the expense and, by the
    cascade, every share that refers to it; all other rows stay. *)
Theorem delete_split_cascades (uid : id) (i : id) (s : db) :
  let r := delete_split_history (Some uid) i s in
  snd r = inr tt
  /\ (forall e, In e (splitExpenses (fst r)) <-> In e (splitExpenses s) /\ se_id e <> i)
  /\ (forall p, In p (splitParticipants (fst r))
                <-> In p (splitParticipants s) /\ sp_expenseId p <> i)
  /\ bankAccounts (fst r) = bankAccounts s
  /\ transactions (fst r) = transactions s.
Proof.
  cbn. split; [reflexivity|]. split; [|split; [|split; reflexivity]].
  - intros e. rewrite filter_In, negb_true_iff, Nat.eqb_neq. reflexivity.
  - intros p. rewrite filter_In, negb_true_iff, Nat.eqb_neq. reflexivity.
Qed.

(** X9.  A split request without a participants string is refused only after
    its expense has been written: the expense row stays, without any
    share. *)
Theorem split_without_participants_leaves_expense (uid : id) (s : db)
    (participants : field) (payer amount description : string) (c : numeric) :
  (forall p, participants <> Text p) ->
  numeric_in amount = Some c ->
  storable payer = true -> storable description = true ->
  post_split_expense (Some uid)
    (mkSplitBody participants (Text payer) (Text amount) (Text description)) s
  = (mkDb (bankAccounts s) (transactions s)
          (splitExpenses s ++ [mkSplitExpense (next_id s) uid payer c description])
          (splitParticipants s) (S (next_id s)),
     inl TypeError).
Proof.
  intros Hp Hc Hsy Hsd.
  cbv [post_split_expense bind requireAuth parse_insertSplitExpenseSchema ret throw
       createSplitExpense].
  cbn [sb_payerName sb_amount sb_description sb_participants
       ise_amount ise_payerName ise_description].
  rewrite Hc, Hsy, Hsd. cbn [andb]. destruct participants as [|p|]; try reflexivity.
  exfalso. exact (Hp p eq_refl).
Qed.


Lemma post_transactions_writes_own_account_witness :
  exists uid i acc,
    Some alice = Some uid /\ tb_accountId (credit_body "5.00") = Some i
    /\ find (fun a => Nat.eqb (ba_id a) i) (bankAccounts sample_db) = Some acc
    /\ ba_userId acc = uid.
Proof.
  apply (post_transactions_writes_own_account (Some alice) (credit_body "5.00") sample_db).
  vm_compute. discriminate.
Defined.

Lemma missing_ids_not_reported_witness :
  delete_transactions (Some alice) 7%nat sample_db = (sample_db, inr tt)
  /\ delete_split_history (Some alice) 7%nat sample_db = (sample_db, inr tt)
  /\ snd (put_split_history (Some alice) 7%nat
            (mkSplitPatchBody (Text "A") (Text "1.00") Absent) sample_db) = inr tt
  /\ fst (put_split_history (Some alice) 7%nat
            (mkSplitPatchBody (Text "A") (Text "1.00") Absent) sample_db) = sample_db
  /\ forall (j : id) (s0 : db),
       snd (put_split_history (Some alice) 7%nat
              (mkSplitPatchBody (Text "A") (Text "1.00") Absent) sample_db)
       = snd (put_split_history (Some alice) j
                (mkSplitPatchBody (Text "A") (Text "1.00") Absent) s0).
Proof.
  destruct (missing_ids_not_reported alice 7%nat sample_db) as (H1 & H2 & H3).
  split; [|split; [|split]].
  - apply H1. simpl. tauto.
  - apply H2; [simpl; tauto | split; constructor].
  - vm_compute. reflexivity.
  - apply H3. simpl. tauto.
Defined.

Lemma split_without_participants_leaves_expense_witness :
  post_split_expense (Some alice)
    (mkSplitBody Absent (Text "A") (Text "10.00") (Text "dinner")) sample_db
  = (mkDb (bankAccounts sample_db) (transactions sample_db)
          (splitExpenses sample_db
           ++ [mkSplitExpense (next_id sample_db) alice "A" 1000 "dinner"])
          (splitParticipants sample_db) (S (next_id sample_db)),
     inl TypeError).
Proof.
  apply (split_without_participants_leaves_expense alice sample_db Absent
           "A" "10.00" "dinner" (Hundredths 1000)).
  - intros p. discriminate.
  - vm_compute. reflexivity.
  - reflexivity.
  - reflexivity.
Defined.

(* ================================================================== *)
(** ** The share and the dashboard sums *)

Local Open Scope Q_scope.

(** The Number of which the share is printed: within 0.0025 hundredths
    per participant of the exact quotient. *)
Lemma share_number (amount : string) (a : Z) (names : list string) :
  money_text amount a -> (Z.abs a < 10 ^ 12)%Z -> names <> [] ->
  exists w,
    js_div (parseFloat amount) (number_of_nat (List.length names)) = Finite w
    /\ Qabs w <= 10100000001
    /\ Qabs (w * 100 * inject_Z (Z.of_nat (List.length names)) - inject_Z a)
       <= (25 # 10000) * inject_Z (Z.of_nat (List.length names)).
Proof.
  intros Hm Ha Hn.
  destruct (parseFloat_money _ _ Hm Ha) as (x & -> & Hx).
  destruct (cents_bound a Ha) as [Ha1 Ha2].
  assert (Hlen : (1 <= List.length names)%nat).
  { destruct names; [contradiction | simpl; lia]. }
  assert (HN : 1 <= inject_Z (Z.of_nat (List.length names))).
  { change 1 with (inject_Z 1). rewrite <- Zle_Qle. lia. }
  unfold number_of_nat.
  set (N := inject_Z (Z.of_nat (List.length names))) in *.
  destruct (binary64 N) as [| s | y] eqn:Ey.
  - exfalso. exact (binary64_not_NaN _ Ey).
  - cbn [js_div]. exists 0. split; [reflexivity|].
    assert (Hbig : ~ Qabs N <= 10 ^ 100).
    { intros Hle. destruct (binary64_is_finite N Hle) as (z & Hz). congruence. }
    assert (H100 : 10 ^ 100 == 10000000000000000000000000000000000000000000000000000000000000000000000000000000000000000000000000000)
      by reflexivity.
    rewrite H100 in Hbig.
    split; [qabs 0; lra|].
    qabs N; qabs (0 * 100 * N - inject_Z a); lra.
  - pose proof (binary64_finite _ _ Ey) as Hy. unfold eps, eta in Hy.
    assert (Hy1 : 1 - (2 # 9007199254740992) <= y) by (qabs (y - N); qabs N; lra).
    cbn [js_div].
    assert (Hy0 : Qeq_bool y 0 = false).
    { destruct (Qeq_bool y 0) eqn:E; [|reflexivity]. apply Qeq_bool_eq in E. lra. }
    rewrite Hy0.
    pose proof (Qdiv_bound x y Hy1) as Hr.
    assert (Hrb : Qabs (x / y) <= 10000000000 + (1 # 2)).
    { revert Hr. generalize (Qabs (x / y)). intros r Hr.
      qabs (x * 100 - inject_Z a); qabs x; lra. }
    destruct (binary64_money (x / y)) as (w & -> & Hw); [lra|].
    exists w. split; [reflexivity|].
    split; [qabs (w - x / y); qabs w; qabs (x / y); lra|].
    pose proof (Qabs_mult_bound (w - x / y) N _ Hw) as H2.
    pose proof (Qabs_mult_bound (x / y) (N - y) _ Hrb) as H3.
    assert (Hid : w * 100 * N - inject_Z a
                  == 100 * ((w - x / y) * N)
                     + 100 * (x / y * (N - y)) + (x * 100 - inject_Z a)).
    { field. lra. }
    rewrite Hid. revert H2 H3.
    generalize ((w - x / y) * N) (x / y * (N - y)). intros t2 t3 H2 H3.
    qabs N; qabs (N - y); qabs (y - N); qabs t2; qabs t3;
      qabs (x * 100 - inject_Z a);
      qabs (100 * t2 + 100 * t3 + (x * 100 - inject_Z a)); lra.
Qed.

Lemma toFixed2_small (w : Q) :
  Qabs w <= 20000000000 ->
  toFixed2 (Finite w)
  = print_decimal (is_neg w) (Z.to_N (round_half_up (Qabs w * 100))) 2 None.
Proof.
  intros Hw. unfold toFixed2.
  destruct (Qle_bool (10 ^ 21) (Qabs w)) eqn:E; [|reflexivity].
  apply Qle_bool_iff in E.
  assert (10 ^ 21 == 1000000000000000000000) by reflexivity. lra.
Qed.

(** [toFixed(2)] of a Number within a tenth of a hundredth of a positive
    whole number [k] of hundredths writes [k]. *)
Lemma toFixed2_exact (w : Q) (k : Z) :
  (0 < k < 10 ^ 12)%Z -> Qabs (w * 100 - inject_Z k) <= 1 # 10 ->
  toFixed2 (Finite w) = numeric_out k.
Proof.
  intros Hk Hw.
  assert (Hk1 : 1 <= inject_Z k).
  { change 1 with (inject_Z 1). rewrite <- Zle_Qle. lia. }
  destruct (cents_bound k ltac:(lia)) as [Hk2 Hk3].
  rewrite toFixed2_small by (qabs (w * 100 - inject_Z k); qabs w; lra).
  pose proof (is_neg_spec w) as Hn.
  destruct (is_neg w); [exfalso; qabs (w * 100 - inject_Z k); lra|].
  assert (Hr : round_half_up (Qabs w * 100) = k).
  { apply round_half_up_near.
    qabs (w * 100 - inject_Z k); qabs w; qabs (Qabs w * 100 - inject_Z k); lra. }
  rewrite Hr. unfold numeric_out.
  destruct (Z.ltb_spec k 0); [lia|].
  f_equal. destruct k; try lia; reflexivity.
Qed.

Lemma Qabs_scale_down (u N b : Q) :
  1 <= N -> Qabs (u * N) <= b * N -> Qabs u <= b.
Proof.
  intros HN H. apply Qabs_Qle_condition in H. destruct H as [H1 H2].
  apply Qabs_Qle_condition. split.
  - apply (Qmult_le_r _ _ N); [lra|]. lra.
  - apply (Qmult_le_r _ _ N); [lra|]. exact H2.
Qed.

(** When the count divides the amount the share is the exact quotient. *)
Lemma shareAmount_even (amount : string) (a k : Z) (names : list string) :
  money_text amount a -> (0 < a < 10 ^ 12)%Z -> names <> [] ->
  (a = Z.of_nat (List.length names) * k)%Z ->
  shareAmount amount names = numeric_out k.
Proof.
  intros Hm Ha Hn Hk.
  destruct (share_number amount a names Hm ltac:(lia) Hn) as (w & Hw & _ & Hnear).
  unfold shareAmount. rewrite Hw.
  assert (Hlen : (1 <= List.length names)%nat).
  { destruct names; [contradiction | simpl; lia]. }
  assert (Hkpos : (0 < k < 10 ^ 12)%Z) by nia.
  apply toFixed2_exact; [exact Hkpos|].
  assert (HN : 1 <= inject_Z (Z.of_nat (List.length names))).
  { change 1 with (inject_Z 1). rewrite <- Zle_Qle. lia. }
  apply (Qabs_scale_down _ (inject_Z (Z.of_nat (List.length names)))); [exact HN|].
  assert (Hid : (w * 100 - inject_Z k) * inject_Z (Z.of_nat (List.length names))
                == w * 100 * inject_Z (Z.of_nat (List.length names)) - inject_Z a).
  { rewrite Hk, inject_Z_mult. ring. }
  rewrite Hid. revert Hnear HN.
  generalize (inject_Z (Z.of_nat (List.length names))). intros N Hnear HN.
  qabs (w * 100 * N - inject_Z a); lra.
Qed.

Lemma toFixed2_near (w : Q) (k : Z) :
  (Z.abs k < 10 ^ 12)%Z -> Qabs (w * 100 - inject_Z k) <= 4 # 10 ->
  toFixed2 (Finite w) = numeric_out k
  \/ (k = 0%Z /\ w < 0 /\ toFixed2 (Finite w) = "-0.00"%string).
Proof.
  intros Hk Hw.
  destruct (cents_bound k Hk) as [Hk2 Hk3].
  rewrite toFixed2_small by (qabs (w * 100 - inject_Z k); qabs w; lra).
  assert (Hr : round_half_up (Qabs w * 100) = Z.abs k).
  { apply round_half_up_near. rewrite <- inject_Z_abs.
    qabs (w * 100 - inject_Z k); qabs w; qabs (inject_Z k);
      qabs (Qabs w * 100 - Qabs (inject_Z k)); try lra.
    all: assert (Hint : inject_Z k <= -1 \/ inject_Z k == 0 \/ 1 <= inject_Z k)
      by (destruct (Z.lt_trichotomy k 0) as [Hlt | [-> | Hgt]];
          [left; change (-1) with (inject_Z (-1)); rewrite <- Zle_Qle; lia
          |right; left; reflexivity
          |right; right; change 1 with (inject_Z 1); rewrite <- Zle_Qle; lia]);
      destruct Hint as [Hint | [Hint | Hint]]; lra. }
  rewrite Hr. pose proof (is_neg_spec w) as Hn. unfold numeric_out.
  destruct (Z.lt_trichotomy k 0) as [Hlt | [-> | Hgt]].
  - left. assert (Hk1 : inject_Z k <= -1).
    { change (-1) with (inject_Z (-1)). rewrite <- Zle_Qle. lia. }
    destruct (is_neg w); [|exfalso; qabs (w * 100 - inject_Z k); lra].
    destruct (Z.ltb_spec k 0); [|lia]. f_equal. destruct k; try lia; reflexivity.
  - destruct (is_neg w); [right | left]; repeat split; try reflexivity. exact Hn.
  - left. assert (Hk1 : 1 <= inject_Z k).
    { change 1 with (inject_Z 1). rewrite <- Zle_Qle. lia. }
    destruct (is_neg w); [exfalso; qabs (w * 100 - inject_Z k); lra|].
    destruct (Z.ltb_spec k 0); [lia|]. f_equal. destruct k; try lia; reflexivity.
Qed.

(** X10.  The balance on an account card is the stored balance, digit for
    digit (and "NaN" for a balance that is NaN). *)
Theorem card_balance_exact (account : BankAccount) :
  (forall c, ba_balance account = Hundredths c -> (Z.abs c < 10 ^ 12)%Z) ->
  card_balance account = numeric_out (ba_balance account).
Proof.
  intros H. unfold card_balance.
  destruct (ba_balance account) as [|c]; [vm_compute; reflexivity|].
  pose proof (H c eq_refl) as Hc. clear H.
  destruct (Z.eq_dec c 0) as [-> | Hnz]; [vm_compute; reflexivity|].
  destruct (parseFloat_money _ c (money_text_numeric_out c) Hc) as (x & -> & Hx).
  destruct (toFixed2_near x c Hc) as [H | (H0 & _)]; [|exact H | contradiction].
  qabs (x * 100 - inject_Z c); lra.
Qed.

Lemma or_zero_numeric_out (c : Z) : or_zero (numeric_out c) = numeric_out c.
Proof.
  unfold numeric_out, print_decimal.
  destruct (c <? 0)%Z; [reflexivity|].
  destruct (string_of_N_head (Z.abs_N c / 10 ^ N.of_nat 2)) as (d & r & -> & _).
  reflexivity.
Qed.

(** Summing [k] money texts in binary64 stays within two thousandths of a
    hundredth per term of the exact sum. *)
Lemma reduce_sum_near (cs : list Z) :
  forall (x : Q) (S : Z) (j : nat),
  Qabs (x * 100 - inject_Z S) <= (2 # 1000) * inject_Z (Z.of_nat j) ->
  (Z.abs S < 10 ^ 12)%Z ->
  Forall (fun c => (Z.abs c < 10 ^ 12)%Z) cs ->
  fits_column S cs ->
  (j + List.length cs <= 200)%nat ->
  exists x',
    fold_left (fun sum text => js_add sum (parseFloat (or_zero text)))
      (map numeric_out (map Hundredths cs)) (Finite x) = Finite x'
    /\ Qabs (x' * 100 - inject_Z (S + sum cs))
       <= (2 # 1000) * inject_Z (Z.of_nat (j + List.length cs)).
Proof.
  induction cs as [|c cs IH]; intros x S j Hx HS Hall Hfit Hlen.
  - exists x. split; [reflexivity|]. cbn [sum fold_right List.length].
    rewrite Z.add_0_r, Nat.add_0_r. exact Hx.
  - inversion Hall as [|c' cs' Hc Hcs]; subst c' cs'.
    cbn [fits_column] in Hfit. destruct Hfit as [Hn Hfit].
    cbn [map fold_left List.length] in *.
    rewrite or_zero_numeric_out.
    destruct (parseFloat_money _ c (money_text_numeric_out c) Hc) as (y & -> & Hy).
    cbn [js_add].
    destruct (cents_bound S HS) as [HS1 HS2].
    destruct (cents_bound c Hc) as [Hc1 Hc2].
    assert (Hj : 0 <= inject_Z (Z.of_nat j) <= 200).
    { split; [change 0 with (inject_Z 0) | change 200 with (inject_Z 200)];
        rewrite <- Zle_Qle; lia. }
    destruct (binary64_money (x + y)) as (z & -> & Hz).
    { qabs (x * 100 - inject_Z S); qabs (y * 100 - inject_Z c); qabs (x + y); lra. }
    destruct (IH z (S + c)%Z (Datatypes.S j)) as (x' & Hfold & Hx').
    + rewrite Nat2Z.inj_succ. unfold Z.succ. rewrite !inject_Z_plus.
      change (inject_Z 1) with 1.
      qabs (x * 100 - inject_Z S); qabs (y * 100 - inject_Z c); qabs (z - (x + y));
        qabs (z * 100 - (inject_Z S + inject_Z c)); lra.
    + exact Hn.
    + exact Hcs.
    + exact Hfit.
    + lia.
    + exists x'. split; [exact Hfold|].
      cbn [sum fold_right]. fold (sum cs).
      replace (S + (c + sum cs))%Z with (S + c + sum cs)%Z by lia.
      replace (j + Datatypes.S (List.length cs))%nat
        with (Datatypes.S j + List.length cs)%nat by lia.
      exact Hx'.
Qed.

Lemma fits_column_sum (cs : list Z) : forall S0,
  fits_column S0 cs ->
  (Z.abs S0 < 10 ^ 12 -> Z.abs (S0 + sum cs) < 10 ^ 12)%Z.
Proof.
  induction cs as [|c cs IH]; intros S0 Hf HS0; cbn [sum fold_right].
  - rewrite Z.add_0_r. exact HS0.
  - cbn [fits_column] in Hf. destruct Hf as [H1 H2]. fold (sum cs).
    replace (S0 + (c + sum cs))%Z with (S0 + c + sum cs)%Z by lia.
    apply IH; assumption.
Qed.

(** What a dashboard card shows for up to 200 amounts whose running sum
    fits the column: the exact decimal sum, or "-0.00" when that sum is
    zero and the binary sum came out below zero. *)
Lemma reduce_sum_shown (cs : list Z) :
  (List.length cs <= 200)%nat ->
  Forall (fun c => (Z.abs c < 10 ^ 12)%Z) cs ->
  fits_column 0 cs ->
  toFixed2 (reduce_sum (map numeric_out (map Hundredths cs))) = numeric_out (sum cs)
  \/ (sum cs = 0%Z /\ toFixed2 (reduce_sum (map numeric_out (map Hundredths cs))) = "-0.00"%string).
Proof.
  intros Hlen Hall Hfit. unfold reduce_sum.
  destruct (reduce_sum_near cs 0 0%Z 0%nat) as (x & -> & Hx);
    try assumption; try (simpl; lia).
  { vm_compute. discriminate. }
  cbn [Nat.add Z.add] in Hx.
  assert (Hn : 0 <= inject_Z (Z.of_nat (List.length cs)) <= 200).
  { split; [change 0 with (inject_Z 0) | change 200 with (inject_Z 200)];
      rewrite <- Zle_Qle; lia. }
  assert (Hsum : (Z.abs (sum cs) < 10 ^ 12)%Z).
  { pose proof (fits_column_sum cs 0%Z Hfit) as G. cbn [Z.add] in G.
    apply G. reflexivity. }
  destruct (toFixed2_near x (sum cs) Hsum) as [H | (H0 & _ & H)].
  - qabs (x * 100 - inject_Z (sum cs)); lra.
  - left. exact H.
  - right. split; assumption.
Qed.

Lemma round_half_even_nonneg (t : Q) : 0 <= t -> (0 <= round_half_even t)%Z.
Proof.
  intros Ht. unfold round_half_even. pose proof (Qfloor_nonneg t Ht) as Hf.
  destruct (_ ?= _); [destruct (Z.even (Qfloor t))| |]; lia.
Qed.

(** Rounding keeps the sign. *)
Lemma binary64_nonneg (q z : Q) : 0 <= q -> binary64 q = Finite z -> 0 <= z.
Proof.
  intros Hq. unfold binary64. destruct (Qeq_bool q 0).
  - intros H. apply Finite_inj in H. subst z. lra.
  - destruct (Qle_bool _ _); [discriminate|].
    intros H. apply Finite_inj in H. subst z. rewrite Qred_correct.
    apply Qmult_le_0_compat.
    + change 0 with (inject_Z 0). rewrite <- Zle_Qle.
      apply round_half_even_nonneg. apply Qle_shift_div_l; [apply pow2_pos | lra].
    + apply Qlt_le_weak, pow2_pos.
Qed.

Lemma fold_not_finite (l : list string) : forall n,
  n = NaN \/ (exists b, n = Infinity b) ->
  forall v, fold_left (fun sum text => js_add sum (parseFloat (or_zero text))) l n
            <> Finite v.
Proof.
  induction l as [|t l IHl]; intros n Hn v.
  - destruct Hn as [-> | (b & ->)]; discriminate.
  - cbn [fold_left]. apply IHl.
    destruct Hn as [-> | (b & ->)]; [left; reflexivity|].
    destruct (parseFloat (or_zero t)) as [| b' | q]; cbn [js_add];
      [left; reflexivity | | right; eexists; reflexivity].
    destruct (Bool.eqb b b'); [right; eexists; reflexivity | left; reflexivity].
Qed.

(** A sum of amounts none of which is negative is not negative. *)
Lemma reduce_sum_nonneg (cs : list Z) :
  Forall (fun c => (0 <= c)%Z) cs ->
  forall x x', 0 <= x ->
  fold_left (fun sum text => js_add sum (parseFloat (or_zero text)))
    (map numeric_out (map Hundredths cs)) (Finite x) = Finite x' ->
  0 <= x'.
Proof.
  induction cs as [|c cs IH]; intros Hall x x' Hx; cbn [map fold_left].
  - intros H. apply Finite_inj in H. subst x'. exact Hx.
  - inversion Hall as [|c' cs' Hc Hcs]; subst c' cs'.
    rewrite or_zero_numeric_out.
    destruct (money_text_numeric_out c) as (d & Hs & Hv).
    rewrite (parseFloat_scan _ _ _ Hs).
    assert (Hd : 0 <= dec_value d).
    { assert (0 <= inject_Z c) by (change 0 with (inject_Z 0); rewrite <- Zle_Qle; exact Hc).
      lra. }
    destruct (binary64 (dec_value d)) as [| sg | y] eqn:Ey.
    + cbn [js_add]. intros H. exfalso.
      exact (fold_not_finite _ _ (or_introl eq_refl) _ H).
    + cbn [js_add]. intros H. exfalso.
      exact (fold_not_finite _ _ (or_intror (ex_intro _ sg eq_refl)) _ H).
    + cbn [js_add]. pose proof (binary64_nonneg _ _ Hd Ey) as Hy.
      destruct (binary64 (x + y)) as [| sg | z] eqn:Ez.
      * exfalso. exact (binary64_not_NaN _ Ez).
      * intros H. exfalso.
        exact (fold_not_finite _ _ (or_intror (ex_intro _ sg eq_refl)) _ H).
      * apply (IH Hcs z x'). apply (binary64_nonneg (x + y)); [lra | exact Ez].
Qed.

(** What a card shows for the amounts [cs]. *)
Lemma reduce_sum_card (cs : list Z) :
  addable cs -> card_shows (reduce_sum (map numeric_out (map Hundredths cs))) cs.
Proof.
  intros (Hlen & Hall & Hfit). split; [apply reduce_sum_shown; assumption|].
  intros Hpos. unfold reduce_sum.
  destruct (reduce_sum_near cs 0 0%Z 0%nat) as (x & Hfold & Hx);
    try assumption; try (simpl; lia).
  { vm_compute. discriminate. }
  rewrite Hfold.
  pose proof (reduce_sum_nonneg cs Hpos 0 x ltac:(lra) Hfold) as Hx0.
  cbn [Nat.add Z.add] in Hx.
  assert (Hn : 0 <= inject_Z (Z.of_nat (List.length cs)) <= 200).
  { split; [change 0 with (inject_Z 0) | change 200 with (inject_Z 200)];
      rewrite <- Zle_Qle; lia. }
  assert (Hsum : (Z.abs (sum cs) < 10 ^ 12)%Z).
  { pose proof (fits_column_sum cs 0%Z Hfit) as G. cbn [Z.add] in G.
    apply G. reflexivity. }
  destruct (toFixed2_near x (sum cs) Hsum) as [H | (_ & Hneg & _)].
  - qabs (x * 100 - inject_Z (sum cs)); lra.
  - exact H.
  - lra.
Qed.

(** X11.  The four dashboard cards: each shows the exact decimal sum of the
    amounts it adds up, for up to 200 rows whose running sum fits the
    column; a sum of zero can show as "-0.00", but not when no amount is
    negative. *)
Theorem dashboard_cards_exact (accounts : list BankAccount)
    (transactions : list Transaction) (expenses : list SplitExpense)
    (balances income spent splits : list Z) :
  map ba_balance accounts = map Hundredths balances ->
  map tx_amount (filter (fun t => String.eqb (tx_type t) "credit") transactions)
  = map Hundredths income ->
  map tx_amount (filter (fun t => String.eqb (tx_type t) "debit") transactions)
  = map Hundredths spent ->
  map se_amount expenses = map Hundredths splits ->
  addable balances -> addable income -> addable spent -> addable splits ->
  card_shows (totalBalance accounts) balances
  /\ card_shows (monthlyIncome transactions) income
  /\ card_shows (monthlyExpenses transactions) spent
  /\ card_shows (totalSplitExpenses expenses) splits.
Proof.
  intros Eb Ei Es Ep Hb Hi Hs Hp.
  unfold totalBalance, monthlyIncome, monthlyExpenses, totalSplitExpenses.
  rewrite <- (map_map ba_balance numeric_out), <- (map_map se_amount numeric_out).
  rewrite <- !(map_map tx_amount numeric_out).
  rewrite Eb, Ei, Es, Ep.
  split; [|split; [|split]]; apply reduce_sum_card; assumption.
Qed.



Lemma share_rows_sum (e first : id) (names : list string) (c : Z) :
  sum (map (fun p => hundredths (sp_shareAmount p)) (share_rows e first names c))
  = (Z.of_nat (List.length names) * c)%Z.
Proof.
  revert first. induction names as [|n rest IH]; intros first; [reflexivity|].
  cbn [share_rows map sp_shareAmount hundredths List.length]. unfold sum in *.
  cbn [fold_right]. rewrite IH. lia.
Qed.

Lemma share_rows_amounts (e first : id) (names : list string) (c : Z) :
  map sp_shareAmount (share_rows e first names c)
  = map (fun _ => Hundredths c) names.
Proof.
  revert first. induction names as [|n rest IH]; intros first; [reflexivity|].
  cbn [share_rows map sp_shareAmount]. rewrite IH. reflexivity.
Qed.

Local Close Scope Q_scope.


(** X13.  When the number of names divides the amount in hundredths, and
    the database can store the texts and takes the rows in one insert
    statement, every share is the exact quotient, printed with two
    decimals, and the rows add up to the amount. *)
Theorem even_split_exact (s : db) (uid : id)
    (participants payer amount description : string) (a k : Z) :
  money_text amount a -> 0 < a < 10 ^ 12 ->
  storable participants = true -> storable payer = true ->
  storable description = true ->
  let names := participantNames participants in
  3 * Z.of_nat (List.length names) <= 65535 ->
  a = Z.of_nat (List.length names) * k ->
  exists s' r rows,
    post_split_expense (Some uid)
      (mkSplitBody (Text participants) (Text payer) (Text amount) (Text description)) s
    = (s', inr r)
    /\ sr_participants r
       = map (fun name => mkInsertSplitParticipant name (numeric_out (Hundredths k)))
           names
    /\ splitParticipants s' = (splitParticipants s ++ rows)%list
    /\ map sp_shareAmount rows = map (fun _ => Hundredths k) names
    /\ sum (map (fun p => hundredths (sp_shareAmount p)) rows) = a.
Proof.
  intros Hm Ha Hsp Hsy Hsd names Hl Hk.
  destruct (post_split_expense_ok s uid participants payer amount description a Hm
              ltac:(lia) Hsp Hsy Hsd Hl) as (c0 & Hc0 & _ & _ & Hrun).
  pose proof (shareAmount_even amount a k names Hm Ha (participantNames_not_nil _) Hk)
    as Hshare.
  fold names in Hc0, Hrun. rewrite Hshare in Hc0, Hrun.
  assert (Hlen : (1 <= List.length names)%nat).
  { pose proof (participantNames_not_nil participants) as Hn. fold names in Hn.
    destruct names; [contradiction | simpl; lia]. }
  assert (Hkb : Z.abs k < 10 ^ 12) by nia.
  rewrite (money_text_numeric_in _ _ (money_text_numeric_out k) Hkb) in Hc0.
  injection Hc0 as <-.
  eexists. eexists. exists (share_rows (next_id s) (S (next_id s)) names k).
  split; [exact Hrun|]. cbn [sr_participants splitParticipants].
  split; [reflexivity|]. split; [reflexivity|].
  split; [apply share_rows_amounts|].
  rewrite share_rows_sum. lia.
Qed.

Lemma card_balance_exact_witness :
  card_balance (mkBankAccount 0%nat alice "HDFC" "savings" 1250)
  = numeric_out (ba_balance (mkBankAccount 0%nat alice "HDFC" "savings" 1250)).
Proof.
  apply (card_balance_exact (mkBankAccount 0%nat alice "HDFC" "savings" 1250)).
  intros c H. injection H as <-. simpl. lia.
Defined.

Lemma dashboard_cards_exact_witness :
  card_shows (totalBalance sample_accounts) [30; -10; -20]
  /\ card_shows (monthlyIncome sample_transactions) [500]
  /\ card_shows (monthlyExpenses sample_transactions) [200]
  /\ card_shows (totalSplitExpenses sample_expenses) [1000].
Proof.
  apply (dashboard_cards_exact sample_accounts sample_transactions sample_expenses);
    try reflexivity;
    (split; [simpl; lia | split; [repeat constructor | simpl; lia]]).
Defined.


Lemma even_split_exact_witness :
  exists s' r rows,
    post_split_expense (Some alice)
      (mkSplitBody (Text "X,Y") (Text "X") (Text "50.00") (Text "cab")) sample_db
    = (s', inr r)
    /\ sr_participants r
       = map (fun name => mkInsertSplitParticipant name (numeric_out (Hundredths 2500)))
           (participantNames "X,Y")
    /\ splitParticipants s' = (splitParticipants sample_db ++ rows)%list
    /\ map sp_shareAmount rows = map (fun _ => Hundredths 2500) (participantNames "X,Y")
    /\ sum (map (fun p => hundredths (sp_shareAmount p)) rows) = 5000.
Proof.
  apply (even_split_exact sample_db alice "X,Y" "X" "50.00" "cab" 5000 2500).
  - eexists. split; vm_compute; reflexivity.
  - lia.
  - reflexivity.
  - reflexivity.
  - reflexivity.
  - vm_compute. discriminate.
  - reflexivity.
Defined.

(* ================================================================== *)
(** ** Listings after a write *)

Lemma rev_filter_last {A} (f : A -> bool) (l : list A) (x : A) :
  f x = true -> rev (filter f (l ++ [x])) = x :: rev (filter f l).
Proof.
  intros Hx. rewrite filter_app. cbn [filter]. rewrite Hx.
  rewrite rev_app_distr. reflexivity.
Qed.


Lemma find_fresh_account (s : db) (acc : BankAccount) :
  keys_fresh s -> ba_id acc = next_id s ->
  find (fun a => Nat.eqb (ba_id a) (next_id s)) (bankAccounts s ++ [acc]) = Some acc.
Proof.
  intros (_ & _ & _ & _ & F1 & _) Hid.
  induction (bankAccounts s) as [|a l IH]; cbn [app find].
  - rewrite Hid, Nat.eqb_refl. reflexivity.
  - inversion F1 as [|a' l' Ha Hl]; subst a' l'.
    destruct (Nat.eqb (ba_id a) (next_id s)) eqn:E.
    + apply Nat.eqb_eq in E. lia.
    + apply IH. exact Hl.
Qed.

(** X14.  A freshly created account starts at the balance sent, and after any
    sequence of money transactions whose running balance fits the column
    it holds the initial balance plus the credits minus the debits (all
    texts being such as the database can store). *)
Theorem fresh_account_ledger (s : db) (uid : id) (name balance : string) (B0 : Z)
    (calls : list (InsertTransaction * Z)) :
  keys_fresh s ->
  storable name = true ->
  money_text balance B0 -> Z.abs B0 < 10 ^ 12 ->
  Forall (fun c => it_accountId (fst c) = next_id s
                   /\ money_text (it_amount (fst c)) (snd c)
                   /\ 0 < snd c < 10 ^ 12
                   /\ storable (it_type (fst c)) = true
                   /\ storable (it_description (fst c)) = true) calls ->
  fits_column B0 (map delta calls) ->
  exists s1 acc s2,
    post_accounts (Some uid) (mkAccountBody (Text name) Absent (Text balance)) s
    = (s1, inr acc)
    /\ ba_id acc = next_id s /\ ba_userId acc = uid /\ ba_type acc = "savings"
    /\ balance_of s1 (ba_id acc) = Some (Hundredths B0)
    /\ createTransactions (map fst calls) s1 = (s2, inr tt)
    /\ balance_of s2 (ba_id acc)
       = Some (Hundredths (B0 + sum (credits calls) - sum (debits calls))).
Proof.
  intros Hk Hsn Hm HB Hall Hfit.
  set (acc := mkBankAccount (next_id s) uid name "savings" (Hundredths B0)).
  set (s1 := mkDb (bankAccounts s ++ [acc]) (transactions s) (splitExpenses s)
               (splitParticipants s) (S (next_id s))).
  assert (Hrun : post_accounts (Some uid) (mkAccountBody (Text name) Absent (Text balance)) s
                 = (s1, inr acc)).
  { cbv [post_accounts bind requireAuth parse_insertBankAccountSchema ret throw optional
         createBankAccount].
    cbn [ab_name ab_type ab_balance iba_name iba_type iba_balance].
    rewrite (money_text_numeric_in _ _ Hm HB), Hsn. reflexivity. }
  assert (Hf : find (fun a => Nat.eqb (ba_id a) (next_id s)) (bankAccounts s1) = Some acc).
  { apply find_fresh_account; [exact Hk | reflexivity]. }
  destruct (createTransactions_balance calls (next_id s) s1 acc B0 Hf eq_refl HB Hall Hfit)
    as (s2 & Hrun2 & Hbal).
  exists s1, acc, s2. repeat split; try assumption; try reflexivity.
  unfold balance_of. cbn [ba_id acc]. rewrite Hf. reflexivity.
Qed.

Lemma find_keeps_owner (i j : id) (c : numeric) (l : list BankAccount)
    (acc : BankAccount) :
  find (fun a => Nat.eqb (ba_id a) i) l = Some acc ->
  exists acc', find (fun a => Nat.eqb (ba_id a) i) (map (set_balance j c) l) = Some acc'
               /\ ba_userId acc' = ba_userId acc.
Proof.
  induction l as [|a l IH]; cbn [find map]; [discriminate|].
  rewrite set_balance_id. destruct (Nat.eqb (ba_id a) i).
  - intros H. injection H as <-. eexists. split; [reflexivity|].
    unfold set_balance. destruct (Nat.eqb (ba_id a) j); reflexivity.
  - exact IH.
Qed.

(** X15.  After a transaction has been added, the account's history lists it
    first, in front of what was listed before. *)
Theorem transaction_listed_first (s : db) (uid : id) (acc : BankAccount)
    (i : id) (amount type description : string) (a b : Z) :
  find (fun x => Nat.eqb (ba_id x) i) (bankAccounts s) = Some acc ->
  ba_userId acc = uid ->
  ba_balance acc = Hundredths b ->
  money_text amount a -> Z.abs a < 10 ^ 12 ->
  storable type = true -> storable description = true ->
  Z.abs b < 10 ^ 12 ->
  Z.abs (b + signed type a) < 10 ^ 12 ->
  exists s' tx old,
    post_transactions (Some uid)
      (mkTransactionBody (Some i) (Text amount) (Text type) (Text description)) s
    = (s', inr tx)
    /\ get_account_transactions (Some uid) i s = (s, inr old)
    /\ get_account_transactions (Some uid) i s' = (s', inr (tx :: old)).
Proof.
  intros Hf Hu Hbal Hm Ha Hst Hsd Hb Hn.
  rewrite (post_transactions_owner s uid acc i amount type description Hf Hu).
  rewrite (createTransaction_ok s (mkInsertTransaction i amount type description) acc a b
             Hf Hbal Hm Hst Hsd Ha Hb Hn).
  cbn [it_accountId it_type it_description].
  eexists. eexists. eexists. split; [reflexivity|].
  unfold get_account_transactions, bind, requireAuth, ret, throw, getBankAccount,
    getTransactionsByAccountId.
  cbn [bankAccounts transactions].
  rewrite Hf, Hu, Nat.eqb_refl. split; [reflexivity|].
  destruct (find_keeps_owner i i (Hundredths (b + signed type a)) _ _ Hf)
    as (acc' & -> & Hu').
  rewrite Hu', Hu, Nat.eqb_refl. cbn [transactions].
  rewrite rev_filter_last; [reflexivity|]. cbn [tx_accountId]. apply Nat.eqb_refl.
Qed.




Lemma fresh_account_ledger_witness :
  exists s1 acc s2,
    post_accounts (Some alice) (mkAccountBody (Text "Cash") Absent (Text "10.00")) sample_db
    = (s1, inr acc)
    /\ ba_id acc = next_id sample_db /\ ba_userId acc = alice /\ ba_type acc = "savings"
    /\ balance_of s1 (ba_id acc) = Some (Hundredths 1000)
    /\ createTransactions
         (map fst [(mkInsertTransaction 1%nat "5.00" "credit" "pay", 500);
                   (mkInsertTransaction 1%nat "2.50" "debit" "tea", 250)]) s1
       = (s2, inr tt)
    /\ balance_of s2 (ba_id acc)
       = Some (Hundredths
                 (1000
                  + sum (credits [(mkInsertTransaction 1%nat "5.00" "credit" "pay", 500);
                                  (mkInsertTransaction 1%nat "2.50" "debit" "tea", 250)])
                  - sum (debits [(mkInsertTransaction 1%nat "5.00" "credit" "pay", 500);
                                 (mkInsertTransaction 1%nat "2.50" "debit" "tea", 250)]))).
Proof.
  apply (fresh_account_ledger sample_db alice "Cash" "10.00" 1000
           [(mkInsertTransaction 1%nat "5.00" "credit" "pay", 500);
            (mkInsertTransaction 1%nat "2.50" "debit" "tea", 250)]).
  - exact sample_db_keys_fresh.
  - reflexivity.
  - eexists. split; vm_compute; reflexivity.
  - simpl. lia.
  - repeat constructor; try (eexists; split; vm_compute; reflexivity).
  - vm_compute. repeat split.
Defined.

Lemma transaction_listed_first_witness :
  exists s' tx old,
    post_transactions (Some alice)
      (mkTransactionBody (Some 0%nat) (Text "5.00") (Text "credit") (Text "pay")) sample_db
    = (s', inr tx)
    /\ get_account_transactions (Some alice) 0%nat sample_db = (sample_db, inr old)
    /\ get_account_transactions (Some alice) 0%nat s' = (s', inr (tx :: old)).
Proof.
  apply (transaction_listed_first sample_db alice
           (mkBankAccount 0%nat alice "HDFC" "savings" 1000) 0%nat
           "5.00" "credit" "pay" 500 1000).
  - reflexivity.
  - reflexivity.
  - reflexivity.
  - eexists. split; vm_compute; reflexivity.
  - simpl. lia.
  - reflexivity.
  - reflexivity.
  - simpl. lia.
  - vm_compute. reflexivity.
Defined.


(** X17.  The three listings write nothing and show a user exactly their own
    rows: the accounts they own, the transactions of accounts they own
    (with that account's name), and the expenses they recorded, each with
    the shares that refer to it. *)
Theorem listings_scoped_to_user (uid : id) (s : db) :
  (exists accounts,
     get_accounts (Some uid) s = (s, inr accounts)
     /\ forall a, In a accounts <-> In a (bankAccounts s) /\ ba_userId a = uid)
  /\ (exists rows,
        get_transactions (Some uid) s = (s, inr rows)
        /\ forall t name,
             In (t, name) rows
             <-> In t (transactions s)
                 /\ exists a, In a (bankAccounts s) /\ ba_id a = tx_accountId t
                              /\ ba_userId a = uid /\ ba_name a = name)
  /\ (exists entries,
        get_split_history (Some uid) s = (s, inr entries)
        /\ (forall e, In e (map fst entries) <-> In e (splitExpenses s) /\ se_userId e = uid)
        /\ forall e shares, In (e, shares) entries ->
             forall p, In p shares <-> In p (splitParticipants s) /\ sp_expenseId p = se_id e).
Proof.
  split; [|split].
  - eexists. split; [reflexivity|]. intros a.
    rewrite <- in_rev, filter_In, Nat.eqb_eq. reflexivity.
  - eexists. split; [reflexivity|]. intros t name.
    rewrite <- in_rev, in_flat_map. split.
    + intros (t0 & Ht0 & Hin). apply in_map_iff in Hin.
      destruct Hin as (a & Heq & Ha). injection Heq as <- <-.
      apply filter_In in Ha. destruct Ha as [Ha Hb].
      apply andb_true_iff in Hb. destruct Hb as [H1 H2].
      apply Nat.eqb_eq in H1, H2.
      split; [exact Ht0|]. exists a. repeat split; assumption.
    + intros (Ht & a & Ha & H1 & H2 & H3). exists t. split; [exact Ht|].
      apply in_map_iff. exists a. split; [rewrite H3; reflexivity|].
      apply filter_In. split; [exact Ha|].
      apply andb_true_iff. split; apply Nat.eqb_eq; assumption.
  - eexists. split; [reflexivity|]. split.
    + intros e. rewrite map_map. cbn [fst]. rewrite map_id.
      rewrite <- in_rev, filter_In, Nat.eqb_eq. reflexivity.
    + intros e shares Hin p. apply in_map_iff in Hin.
      destruct Hin as (e0 & Heq & _). injection Heq as <- <-.
      rewrite filter_In, Nat.eqb_eq. reflexivity.
Qed.

(* ================================================================== *)
(** ** The participants text *)

Local Open Scope nat_scope.

Lemma split_join (sep : ascii) (s : string) : join sep (split sep s) = s.
Proof.
  induction s as [|c r IH]; [reflexivity|].
  cbn [split]. pose proof (split_not_nil sep r) as Hn.
  destruct (Ascii.eqb_spec c sep) as [-> | Hc].
  - destruct (split sep r) as [|h t] eqn:E; [contradiction|].
    cbn [join]. cbn [join] in IH. rewrite IH. reflexivity.
  - destruct (split sep r) as [|h t] eqn:E; [contradiction|].
    destruct t as [|h2 t]; cbn [join] in *; rewrite <- IH; reflexivity.
Qed.

Lemma split_count (sep : ascii) (s : string) :
  List.length (split sep s) = S (count_char sep s).
Proof.
  induction s as [|c r IH]; [reflexivity|].
  cbn [split count_char]. pose proof (split_not_nil sep r) as Hn.
  destruct (Ascii.eqb c sep).
  - cbn [List.length]. rewrite IH. reflexivity.
  - destruct (split sep r) as [|h t]; [contradiction|]. exact IH.
Qed.

Lemma split_pieces (sep : ascii) (s : string) :
  Forall (fun p => count_char sep p = 0) (split sep s).
Proof.
  induction s as [|c r IH]; [repeat constructor|].
  cbn [split]. destruct (Ascii.eqb c sep) eqn:E.
  - constructor; [reflexivity | exact IH].
  - destruct (split sep r) as [|h t]; [repeat constructor; cbn; rewrite E; reflexivity|].
    inversion IH as [|? ? Hh Ht]; subst. constructor; [|exact Ht].
    cbn [count_char]. rewrite E, Hh. reflexivity.
Qed.

(** X18.  The participants text gives one name per comma plus one, in order;
    every name is trimmed (it neither starts nor ends with white space,
    and trimming it again changes nothing) and holds no comma;
    untrimmed, the names joined by commas are the text again. *)
Theorem participant_names_shape (participants : string) :
  List.length (participantNames participants) = S (count_char "," participants)
  /\ Forall (fun name => starts_with_space name = false
                         /\ ends_with_space name = false
                         /\ trim name = name
                         /\ count_char "," name = 0)
       (participantNames participants)
  /\ join "," (split "," participants) = participants.
Proof.
  split; [|split].
  - unfold participantNames. rewrite length_map. apply split_count.
  - unfold participantNames. rewrite Forall_map.
    eapply Forall_impl; [|apply split_pieces]. intros p Hp. cbn beta in *.
    split; [apply trim_start|]. split; [apply trim_end|].
    split; [apply trim_idem|].
    pose proof (trim_count "," p). lia.
  - apply split_join.
Qed.

Local Close Scope nat_scope.

(* ================================================================== *)
(** ** A balance beyond the column *)

Local Open Scope Q_scope.

Lemma numeric_in_toString_far (z : Q) (t : Z) :
  Qabs (z * 100 - inject_Z t) <= 1 # 100 ->
  (10 ^ 12 <= Z.abs t < 2 * 10 ^ 12)%Z ->
  numeric_in (toString (Finite z)) = None.
Proof.
  intros Hz Ht. destruct (toString_scan z) as (d & Hs & Hd).
  apply (numeric_in_far _ d t Hs); [|lia].
  assert (Hb : - (2000000000000) < inject_Z t /\ inject_Z t < 2000000000000).
  { change 2000000000000 with (inject_Z 2000000000000).
    rewrite <- inject_Z_opp. rewrite <- !Zlt_Qlt.
    change (10 ^ 12)%Z with 1000000000000%Z in Ht. lia. }
  destruct Hb as [Ht1 Ht2]. unfold eps, eta in Hd.
  qabs (z * 100 - inject_Z t); qabs (dec_value d - z); qabs (dec_value d);
    qabs (dec_value d * 100 - inject_Z t); lra.
Qed.

Local Close Scope Q_scope.

Lemma createTransaction_overflow (s : db) (t : InsertTransaction)
    (acc : BankAccount) (a b : Z) :
  find (fun x => Nat.eqb (ba_id x) (it_accountId t)) (bankAccounts s) = Some acc ->
  ba_balance acc = Hundredths b ->
  money_text (it_amount t) a ->
  storable (it_type t) = true -> storable (it_description t) = true ->
  Z.abs a < 10 ^ 12 ->
  Z.abs b < 10 ^ 12 ->
  10 ^ 12 <= Z.abs (b + signed (it_type t) a) ->
  createTransaction t s
  = (mkDb (bankAccounts s)
          (transactions s
           ++ [mkTransaction (next_id s) (it_accountId t) (Hundredths a) (it_type t)
                 (it_description t)])
          (splitExpenses s) (splitParticipants s) (S (next_id s)),
     inl DatabaseError).
Proof.
  intros Hf Hbal Hm Hst Hsd Ha Hb Hn.
  unfold createTransaction, bind, insertTransaction.
  rewrite (money_text_numeric_in _ _ Hm Ha), Hf, Hst, Hsd. cbn [andb].
  unfold getBankAccount. cbn [bankAccounts]. rewrite Hf, Hbal.
  unfold updateBankAccountBalance.
  destruct (newBalance_near _ _ t Hm Hb Ha) as (z & -> & Hz).
  rewrite (numeric_in_toString_far _ _ Hz); [reflexivity|].
  split; [exact Hn|]. unfold signed. destruct (String.eqb _ _); lia.
Qed.

(** X19.  When the new balance does not fit the balance column,
    POST /api/transactions fails after the transaction row has been
    written: the row stays in the history, the balance stays as it was. *)
Theorem overflow_keeps_transaction (s : db) (uid : id) (acc : BankAccount)
    (i : id) (amount type description : string) (a b : Z) :
  find (fun x => Nat.eqb (ba_id x) i) (bankAccounts s) = Some acc ->
  ba_userId acc = uid ->
  ba_balance acc = Hundredths b ->
  money_text amount a ->
  storable type = true -> storable description = true ->
  Z.abs a < 10 ^ 12 ->
  Z.abs b < 10 ^ 12 ->
  10 ^ 12 <= Z.abs (b + signed type a) ->
  exists s',
    post_transactions (Some uid)
      (mkTransactionBody (Some i) (Text amount) (Text type) (Text description)) s
    = (s', inl DatabaseError)
    /\ transactions s'
       = (transactions s
          ++ [mkTransaction (next_id s) i (Hundredths a) type description])%list
    /\ bankAccounts s' = bankAccounts s.
Proof.
  intros Hf Hu Hbal Hm Hst Hsd Ha Hb Hn.
  rewrite (post_transactions_owner s uid acc i amount type description Hf Hu).
  rewrite (createTransaction_overflow s (mkInsertTransaction i amount type description)
             acc a b Hf Hbal Hm Hst Hsd Ha Hb Hn).
  eexists. split; [reflexivity|]. split; reflexivity.
Qed.

Lemma overflow_keeps_transaction_witness :
  exists s',
    post_transactions (Some alice)
      (mkTransactionBody (Some 0%nat) (Text "0.01") (Text "credit") (Text "pay")) full_db
    = (s', inl DatabaseError)
    /\ transactions s'
       = (transactions full_db
          ++ [mkTransaction (next_id full_db) 0%nat (Hundredths 1) "credit" "pay"])%list
    /\ bankAccounts s' = bankAccounts full_db.
Proof.
  apply (overflow_keeps_transaction full_db alice
           (mkBankAccount 0%nat alice "HDFC" "savings" 999999999999) 0%nat
           "0.01" "credit" "pay" 1 999999999999).
  - reflexivity.
  - reflexivity.
  - reflexivity.
  - eexists. split; vm_compute; reflexivity.
  - reflexivity.
  - reflexivity.
  - simpl. lia.
  - simpl. lia.
  - vm_compute. discriminate.
Defined.

